(** * walk: grid layout engine, image view and spacer

    A shallow embedding of the layout code of the walk GUI toolkit
    (GridLayout, gridLayoutItem, ImageView.drawImage, Spacer) together
    with the properties its specification states.

    Conventions of the embedding.
    - Go [int] and [Pixel] values are integers of [Z]; [/] on them is Go's
      truncating division, [Z.quot].
    - Go [float64] is IEEE-754 binary64, taken from the executable
      specification of the Standard Library ([SpecFloat], precision 53,
      maximal exponent 1024, round to nearest even).
    - A Go slice is its backing array and its length ([slice]); a Go map
      is a [gmap]; a pointer into [cells] is the pair of indices of the
      cell it points to.
    - A run-time panic (index out of range, nil dereference) and a
      float-to-int conversion of a NaN or an infinity are [None]. *)

From Stdlib Require Import ZArith Lia List Bool String.
From Stdlib Require Import Floats.SpecFloat.
From stdpp Require Import base option list gmap sorting.

Local Open Scope Z_scope.

(** ** float64 *)

Module Float64.

Definition prec : Z := 53.
Definition emax : Z := 1024.

Definition float64 : Type := spec_float.

(** [float64(n)] for an [int] n. *)
Definition of_int (n : Z) : float64 := binary_normalize prec emax n 0 false.

Definition mul : float64 -> float64 -> float64 := SFmul prec emax.
Definition div : float64 -> float64 -> float64 := SFdiv prec emax.

(** The literal [1.0]. *)
Definition one : float64 := of_int 1.

(** [Pixel(x)], [int(x)]: the fraction is discarded.  Go leaves the
    conversion of a NaN or an infinity to the implementation. *)
Definition to_int (x : float64) : option Z :=
  match x with
  | S754_zero _ => Some 0
  | S754_finite s m e =>
      let a := match e with
               | Zneg p => Z.shiftr (Zpos m) (Zpos p)
               | _ => Z.shiftl (Zpos m) e
               end in
      Some (if s then - a else a)
  | S754_infinity _ | S754_nan => None
  end.

(** A mantissa of 53 bits. *)
Definition normal (m : positive) : Prop := 2 ^ 52 <= Zpos m < 2 ^ 53.

Definition is_neg_zero (x : float64) : bool :=
  match x with S754_zero true => true | _ => false end.

(** [math.Min]: Min(x, -Inf) = Min(-Inf, x) = -Inf, Min(x, NaN) =
    Min(NaN, x) = NaN, Min(-0, +-0) = Min(+-0, -0) = -0. *)
Definition min (x y : float64) : float64 :=
  match x, y with
  | S754_infinity true, _ | _, S754_infinity true => S754_infinity true
  | S754_nan, _ | _, S754_nan => S754_nan
  | _, _ =>
      match x, y with
      | S754_zero _, S754_zero _ =>
          if is_neg_zero x then x else y
      | _, _ => if SFltb x y then x else y
      end
  end.

End Float64.

(** ** Geometry value types *)

(** [type Pixel int] *)
Abbreviation Pixel := Z (only parsing).

Record Size := { sWidth : Z; sHeight : Z }.
Record SizePixels := { Width : Pixel; Height : Pixel }.
Record PointPixels := { pX : Pixel; pY : Pixel }.
Record RectanglePixels :=
  { rX : Pixel; rY : Pixel; rWidth : Pixel; rHeight : Pixel }.
Record Margins := { HNear : Z; VNear : Z; HFar : Z; VFar : Z }.

#[global] Instance SizePixels_eq_dec : EqDecision SizePixels.
Proof. solve_decision. Defined.

#[global] Instance SizePixels_countable : Countable SizePixels.
Proof.
  refine (inj_countable' (fun s => (Width s, Height s))
                         (fun p => {| Width := p.1; Height := p.2 |}) _).
  by intros [].
Defined.

Definition maxPixel (a b : Pixel) : Pixel := if a >? b then a else b.
Definition maxi (a b : Z) : Z := if a >? b then a else b.

(** ** ImageView.drawImage *)

Module ImageView.

Inductive ImageViewMode :=
| ImageViewModeIdeal
| ImageViewModeCorner
| ImageViewModeCenter
| ImageViewModeShrink
| ImageViewModeZoom
| ImageViewModeStretch.

(** What [drawImage] reads of the image view: the image (its size at
    96 dpi when there is one), the margin, the mode, the client bounds
    of the window and its DPI. *)
Record ImageView := {
  image : option Size;
  margin96dpi : Z;
  mode : ImageViewMode;
  ClientBoundsPixels : RectanglePixels;
  DPI : Z
}.

(** The calls [drawImage] makes on the canvas. *)
Inductive CanvasOp :=
| IntersectClipRect (left top right bottom : Z)
| DrawImageStretchedPixels (bounds : RectanglePixels)
| DrawImagePixels (pos : PointPixels).

(** The value of [scale] in the shrink and zoom modes. *)
Definition imageScale (md : ImageViewMode) (cbW cbH : Pixel) (s : SizePixels)
    : Float64.float64 :=
  if match md with ImageViewModeZoom => true | _ => false end
     || (Width s >? cbW) || (Height s >? cbH)
  then
    let sx := Float64.div (Float64.of_int cbW) (Float64.of_int (Width s)) in
    let sy := Float64.div (Float64.of_int cbH) (Float64.of_int (Height s)) in
    Float64.min sx sy
  else Float64.one.

(** [bounds] in the shrink, zoom and stretch modes. *)
Definition stretchedBounds (md : ImageViewMode) (margin : Pixel)
    (cbW cbH : Pixel) (s : SizePixels) : option RectanglePixels :=
  match md with
  | ImageViewModeStretch =>
      Some {| rX := margin; rY := margin; rWidth := cbW; rHeight := cbH |}
  | _ =>
      let scale := imageScale md cbW cbH s in
      w ← Float64.to_int (Float64.mul (Float64.of_int (Width s)) scale);
      h ← Float64.to_int (Float64.mul (Float64.of_int (Height s)) scale);
      Some {| rX := margin + Z.quot (cbW - w) 2;
              rY := margin + Z.quot (cbH - h) 2;
              rWidth := w; rHeight := h |}
  end.

Section DrawImage.
(** The DPI conversions are not part of the layout code. *)
Variable IntFrom96DPI : Z -> Z -> Z.
Variable SizeFrom96DPI : Size -> Z -> SizePixels.

(** [None] when a float-to-int conversion is not defined. *)
Definition drawImage (iv : ImageView) : option (list CanvasOp) :=
  match image iv with
  | None => Some []
  | Some img =>
      let cb := ClientBoundsPixels iv in
      let dpi := DPI iv in
      let margin := IntFrom96DPI (margin96dpi iv) dpi in
      let cbW := rWidth cb - margin * 2 in
      let cbH := rHeight cb - margin * 2 in
      let s := SizeFrom96DPI img dpi in
      match mode iv with
      | ImageViewModeShrink | ImageViewModeZoom | ImageViewModeStretch =>
          bounds ← stretchedBounds (mode iv) margin cbW cbH s;
          Some [DrawImageStretchedPixels bounds]
      | ImageViewModeCorner =>
          Some [IntersectClipRect margin margin (cbW + margin) (cbH + margin);
                DrawImagePixels {| pX := margin; pY := margin |}]
      | ImageViewModeCenter =>
          Some [IntersectClipRect margin margin (cbW + margin) (cbH + margin);
                DrawImagePixels {| pX := margin + Z.quot (cbW - Width s) 2;
                                   pY := margin + Z.quot (cbH - Height s) 2 |}]
      | ImageViewModeIdeal =>
          Some [DrawImagePixels {| pX := margin; pY := margin |}]
      end
  end.

End DrawImage.

(** A DPI conversion that is linear in the DPI, for the examples. *)
Definition linearFrom96DPI (v dpi : Z) : Z := Z.quot (v * dpi) 96.
Definition linearSizeFrom96DPI (s : Size) (dpi : Z) : SizePixels :=
  {| Width := linearFrom96DPI (sWidth s) dpi;
     Height := linearFrom96DPI (sHeight s) dpi |}.

Definition shrink_example (x y : Pixel) : ImageView :=
  {| image := Some {| sWidth := 200; sHeight := 100 |};
     margin96dpi := 0;
     mode := ImageViewModeShrink;
     ClientBoundsPixels := {| rX := x; rY := y; rWidth := 100; rHeight := 100 |};
     DPI := 96 |}.

(** The float 0.5: mantissa 2^52, exponent -53. *)
Definition one_half : Float64.float64 := S754_finite false 4503599627370496 (-53).

End ImageView.

(** ** Go slices *)

Module Slice.

(** A slice is a window on a backing array: [arr] is the whole array
    from the slice's first element on, [len] the number of visible
    elements; the capacity is the length of [arr].  The nil slice has an
    empty array. *)
Record slice (A : Type) := mk { arr : list A; len : nat }.
Arguments mk {A} _ _.
Arguments arr {A} _.
Arguments len {A} _.

Section Ops.
Context {A : Type}.

Definition nil : slice A := mk [] 0.
Definition cap (s : slice A) : nat := length (arr s).

(** The visible elements. *)
Definition elems (s : slice A) : list A := take (len s) (arr s).

(** [make([]A, n, c)]: c zero values, n of them visible. *)
Definition make (zero : A) (n c : nat) : slice A := mk (replicate c zero) n.

(** [copy(dst, src)]: the first min(len dst, len src) elements. *)
Definition copy (dst src : slice A) : slice A :=
  let k := Nat.min (len dst) (len src) in
  mk (take k (arr src) ++ drop k (arr dst)) (len dst).

(** [s[:n]]; panics when n exceeds the capacity. *)
Definition reslice (s : slice A) (n : nat) : option (slice A) :=
  if decide (n <= cap s)%nat then Some (mk (arr s) n) else None.

(** [s[i]]. *)
Definition get (s : slice A) (i : Z) : option A :=
  if decide (0 <= i < Z.of_nat (len s)) then arr s !! Z.to_nat i else None.

(** [s[i] = x]. *)
Definition set (s : slice A) (i : Z) (x : A) : option (slice A) :=
  if decide (0 <= i < Z.of_nat (len s))
  then Some (mk (<[Z.to_nat i := x]> (arr s)) (len s))
  else None.

(** Invariant of every slice value: the window fits the array. *)
Definition wf (s : slice A) : Prop := (len s <= cap s)%nat.

End Ops.

End Slice.

(** ** GridLayout: the mutable grid model *)

Module GridLayout.
Import Slice.

(** A [Widget] interface value: the [*WidgetBase] it wraps (its address)
    and its window handle. *)
Record Widget := { AsWidgetBase : positive; Handle : Z }.

(** The container: the handles of its children. *)
Record Container := { Children : list Z }.

Definition containsHandle (c : Container) (h : Z) : bool :=
  bool_decide (h ∈ Children c).

Record RectangleGrid := { gX : Z; gY : Z; gWidth : Z; gHeight : Z }.

Record gridLayoutCell := {
  row : Z;
  column : Z;
  widgetBase : option positive
}.

Definition zeroCell : gridLayoutCell :=
  {| row := 0; column := 0; widgetBase := None |}.

(** [cell] is a pointer into [cells]: the indices of the row and of the
    cell in the row. *)
Record gridLayoutWidgetInfo := {
  cell : option (nat * nat);
  spanHorz : Z;
  spanVert : Z;
  minSize : SizePixels
}.

Definition zeroInfo : gridLayoutWidgetInfo :=
  {| cell := None; spanHorz := 0; spanVert := 0;
     minSize := {| Width := 0; Height := 0 |} |}.

(** [layoutRequests] counts the calls of [container.RequestLayout()]. *)
Record GridLayout := {
  container : option Container;
  margins96dpi : Margins;
  spacing96dpi : Z;
  rowStretchFactors : slice Z;
  columnStretchFactors : slice Z;
  widgetBase2Info : gmap positive gridLayoutWidgetInfo;
  cells : slice (slice gridLayoutCell);
  layoutRequests : nat
}.

Definition NewGridLayout : GridLayout :=
  {| container := None;
     margins96dpi := {| HNear := 9; VNear := 9; HFar := 9; VFar := 9 |};
     spacing96dpi := 6;
     rowStretchFactors := nil;
     columnStretchFactors := nil;
     widgetBase2Info := ∅;
     cells := nil;
     layoutRequests := 0 |}.

(** [for i := oldLen; i < len(stretchFactors); i++ { stretchFactors[i] = 1 }] *)
Definition fillOnes (stretchFactors : slice Z) (oldLen : nat) : slice Z :=
  foldl (fun s i => mk (<[i := 1]> (arr s)) (len s)) stretchFactors
        (seq oldLen (len stretchFactors - oldLen)).

Definition sufficientStretchFactors (stretchFactors : slice Z) (required : Z)
    : slice Z :=
  let oldLen := len stretchFactors in
  if Z.of_nat oldLen <? required then
    let grown :=
      if Z.of_nat (cap stretchFactors) <? required then
        copy (make 0 (Z.to_nat required)
                (Z.to_nat (maxi required (Z.of_nat (len stretchFactors) * 2))))
             stretchFactors
      else mk (arr stretchFactors) (Z.to_nat required) in
    fillOnes grown oldLen
  else stretchFactors.

(** The outer slice of [cells] follows the row stretch factors. *)
Definition growRows (rsf : slice Z) (cs : slice (slice gridLayoutCell))
    : option (slice (slice gridLayoutCell)) :=
  if (len cs <? len rsf)%nat then
    if (cap cs <? cap rsf)%nat
    then Some (copy (make nil (len rsf) (cap rsf)) cs)
    else reslice cs (len rsf)
  else Some cs.

(** Every row follows the column stretch factors. *)
Definition growRow (csf : slice Z) (r : slice gridLayoutCell)
    : option (slice gridLayoutCell) :=
  if (len r <? len csf)%nat then
    if (cap r <? cap csf)%nat
    then Some (copy (make zeroCell (len csf) (len csf)) r)
    else reslice r (len csf)
  else Some r.

Definition growColumns (csf : slice Z) (cs : slice (slice gridLayoutCell))
    : option (slice (slice gridLayoutCell)) :=
  rows ← mapM (growRow csf) (elems cs);
  Some (mk (rows ++ drop (len cs) (arr cs)) (len cs)).

(** [*p] for a pointer into [cells]. *)
Definition derefCell (cs : slice (slice gridLayoutCell)) (p : nat * nat)
    : option gridLayoutCell :=
  r ← arr cs !! p.1; arr r !! p.2.

(** [&cells[i][j]]: both indices are checked. *)
Definition cellAddr (cs : slice (slice gridLayoutCell)) (i j : Z)
    : option (nat * nat) :=
  r ← get cs i; _ ← get r j; Some (Z.to_nat i, Z.to_nat j).

(** [info.cell = &l.cells[info.cell.row][info.cell.column]] *)
Definition refreshCell (cs : slice (slice gridLayoutCell))
    (info : gridLayoutWidgetInfo) : option gridLayoutWidgetInfo :=
  p ← cell info;
  c ← derefCell cs p;
  q ← cellAddr cs (row c) (column c);
  Some {| cell := Some q; spanHorz := spanHorz info;
          spanVert := spanVert info; minSize := minSize info |}.

Definition ensureSufficientSize (l : GridLayout) (rows columns : Z)
    : option GridLayout :=
  let rsf := sufficientStretchFactors (rowStretchFactors l) rows in
  let csf := sufficientStretchFactors (columnStretchFactors l) columns in
  cs1 ← growRows rsf (cells l);
  cs2 ← growColumns csf cs1;
  if bool_decide (map_Forall (fun _ info => is_Some (refreshCell cs2 info))
                             (widgetBase2Info l))
  then Some {| container := container l;
               margins96dpi := margins96dpi l;
               spacing96dpi := spacing96dpi l;
               rowStretchFactors := rsf;
               columnStretchFactors := csf;
               widgetBase2Info := omap (refreshCell cs2) (widgetBase2Info l);
               cells := cs2;
               layoutRequests := layoutRequests l |}
  else None.

Definition RowStretchFactor (l : GridLayout) (row : Z) : Z :=
  if row <? 0 then -1
  else if row >=? Z.of_nat (len (rowStretchFactors l)) then 1
  else default 1 (get (rowStretchFactors l) row).

Definition ColumnStretchFactor (l : GridLayout) (column : Z) : Z :=
  if column <? 0 then -1
  else if column >=? Z.of_nat (len (columnStretchFactors l)) then 1
  else default 1 (get (columnStretchFactors l) column).

Definition withRowStretchFactors (l : GridLayout) (sf : slice Z) : GridLayout :=
  {| container := container l; margins96dpi := margins96dpi l;
     spacing96dpi := spacing96dpi l; rowStretchFactors := sf;
     columnStretchFactors := columnStretchFactors l;
     widgetBase2Info := widgetBase2Info l; cells := cells l;
     layoutRequests := layoutRequests l |}.

Definition withColumnStretchFactors (l : GridLayout) (sf : slice Z) : GridLayout :=
  {| container := container l; margins96dpi := margins96dpi l;
     spacing96dpi := spacing96dpi l; rowStretchFactors := rowStretchFactors l;
     columnStretchFactors := sf;
     widgetBase2Info := widgetBase2Info l; cells := cells l;
     layoutRequests := layoutRequests l |}.

Definition withCells (l : GridLayout) (cs : slice (slice gridLayoutCell))
    : GridLayout :=
  {| container := container l; margins96dpi := margins96dpi l;
     spacing96dpi := spacing96dpi l; rowStretchFactors := rowStretchFactors l;
     columnStretchFactors := columnStretchFactors l;
     widgetBase2Info := widgetBase2Info l; cells := cs;
     layoutRequests := layoutRequests l |}.

Definition withInfos (l : GridLayout)
    (m : gmap positive gridLayoutWidgetInfo) : GridLayout :=
  {| container := container l; margins96dpi := margins96dpi l;
     spacing96dpi := spacing96dpi l; rowStretchFactors := rowStretchFactors l;
     columnStretchFactors := columnStretchFactors l;
     widgetBase2Info := m; cells := cells l;
     layoutRequests := layoutRequests l |}.

Definition RequestLayout (l : GridLayout) : GridLayout :=
  {| container := container l; margins96dpi := margins96dpi l;
     spacing96dpi := spacing96dpi l; rowStretchFactors := rowStretchFactors l;
     columnStretchFactors := columnStretchFactors l;
     widgetBase2Info := widgetBase2Info l; cells := cells l;
     layoutRequests := S (layoutRequests l) |}.

(** A method that returns an [error] and may change the layout: [None]
    is a panic, otherwise the error (if any) and the layout afterwards. *)
Definition outcome : Type := option (option string * GridLayout).

Definition fail (msg : string) (l : GridLayout) : outcome := Some (Some msg, l).
Definition succeed (l : GridLayout) : outcome := Some (None, l).

Definition SetRowStretchFactor (l : GridLayout) (row factor : Z) : outcome :=
  if row <? 0 then fail "row must be >= 0" l
  else if negb (factor =? RowStretchFactor l row) then
    match container l with
    | None => fail "container required" l
    | Some _ =>
        if factor <? 1 then fail "factor must be >= 1" l
        else
          l1 ← ensureSufficientSize l (row + 1)
                 (Z.of_nat (len (columnStretchFactors l)));
          sf ← set (rowStretchFactors l1) row factor;
          succeed (RequestLayout (withRowStretchFactors l1 sf))
    end
  else succeed l.

Definition SetColumnStretchFactor (l : GridLayout) (column factor : Z) : outcome :=
  if column <? 0 then fail "column must be >= 0" l
  else if negb (factor =? ColumnStretchFactor l column) then
    match container l with
    | None => fail "container required" l
    | Some _ =>
        if factor <? 1 then fail "factor must be >= 1" l
        else
          l1 ← ensureSufficientSize l
                 (Z.of_nat (len (rowStretchFactors l))) (column + 1);
          sf ← set (columnStretchFactors l1) column factor;
          succeed (RequestLayout (withColumnStretchFactors l1 sf))
    end
  else succeed l.

(** The integers lo, lo+1, ..., hi-1 of a [for] loop. *)
Definition zrange (lo hi : Z) : list Z :=
  (fun k => lo + Z.of_nat k) <$> seq 0 (Z.to_nat (hi - lo)).

Definition rangeFromGridLayoutWidgetInfo (cs : slice (slice gridLayoutCell))
    (info : gridLayoutWidgetInfo) : option RectangleGrid :=
  p ← cell info;
  c ← derefCell cs p;
  Some {| gX := column c; gY := row c;
          gWidth := spanHorz info; gHeight := spanVert info |}.

(** [l.cells[row][col].widgetBase = wb] *)
Definition setCellWidget (wb : option positive)
    (cs : slice (slice gridLayoutCell)) (row col : Z)
    : option (slice (slice gridLayoutCell)) :=
  r ← get cs row;
  c ← get r col;
  r' ← set r col {| row := GridLayout.row c; column := column c; widgetBase := wb |};
  set cs row r'.

Definition setWidgetOnCells (cs : slice (slice gridLayoutCell))
    (widget : option Widget) (r : RectangleGrid)
    : option (slice (slice gridLayoutCell)) :=
  let wb := AsWidgetBase <$> widget in
  foldl (fun acc row =>
           foldl (fun acc col => cs' ← acc; setCellWidget wb cs' row col)
                 acc (zrange (gX r) (gX r + gWidth r)))
        (Some cs) (zrange (gY r) (gY r + gHeight r)).

Definition Range (l : GridLayout) (widget : option Widget)
    : option (option RectangleGrid) :=
  match widget with
  | None => Some None
  | Some w =>
      match widgetBase2Info l !! AsWidgetBase w, container l with
      | Some info, Some c =>
          if containsHandle c (Handle w)
          then r ← rangeFromGridLayoutWidgetInfo (cells l) info; Some (Some r)
          else Some None
      | _, _ => Some None
      end
  end.

(** [cell := &l.cells[y][x]; cell.row = y; cell.column = x] *)
Definition setCellRowColumn (cs : slice (slice gridLayoutCell)) (y x : Z)
    : option (slice (slice gridLayoutCell)) :=
  r ← get cs y;
  c ← get r x;
  r' ← set r x {| row := y; column := x; widgetBase := widgetBase c |};
  set cs y r'.

(** The cells of a widget that already has a range are cleared first. *)
Definition clearPreviousRange (l : GridLayout) (wb : positive)
    : option GridLayout :=
  match widgetBase2Info l !! wb with
  | None => Some l
  | Some info =>
      old ← rangeFromGridLayoutWidgetInfo (cells l) info;
      cs ← setWidgetOnCells (cells l) None old;
      Some (withCells l cs)
  end.

Definition SetRange (l : GridLayout) (widget : option Widget) (r : RectangleGrid)
    : outcome :=
  match widget with
  | None => fail "widget required" l
  | Some w =>
      match container l with
      | None => fail "container required" l
      | Some c =>
          if negb (containsHandle c (Handle w))
          then fail "widget must be child of container" l
          else if (gX r <? 0) || (gY r <? 0)
          then fail "range.X and range.Y must be >= 0" l
          else if (gWidth r <? 1) || (gHeight r <? 1)
          then fail "range.Width and range.Height must be >= 1" l
          else
            let wb := AsWidgetBase w in
            l1 ← clearPreviousRange l wb;
            l2 ← ensureSufficientSize l1 (gY r + gHeight r) (gX r + gWidth r);
            p ← cellAddr (cells l2) (gY r) (gX r);
            cs3 ← setCellRowColumn (cells l2) (gY r) (gX r);
            (* [info] is the object the map holds for [wb], or a new one;
               either way the map holds it once its fields are set *)
            let info := default zeroInfo (widgetBase2Info l2 !! wb) in
            let info' := {| cell := Some p; spanHorz := gWidth r;
                            spanVert := gHeight r; minSize := minSize info |} in
            let l3 := withInfos (withCells l2 cs3)
                                (<[wb := info']> (widgetBase2Info l2)) in
            cs4 ← setWidgetOnCells (cells l3) (Some w) r;
            succeed (withCells l3 cs4)
      end
  end.

(** [l.cells[i][j]], and the widget of that cell. *)
Definition cellAt (l : GridLayout) (i j : Z) : option gridLayoutCell :=
  r ← get (cells l) i; get r j.

Definition widgetAt (l : GridLayout) (i j : Z) : option positive :=
  c ← cellAt l i j; widgetBase c.

(** The visible stretch factors. *)
Definition rowFactors (l : GridLayout) : list Z := elems (rowStretchFactors l).
Definition columnFactors (l : GridLayout) : list Z := elems (columnStretchFactors l).

(** [cs[i][j]] for the cells [cs]. *)
Definition cellIn (cs : slice (slice gridLayoutCell)) (i j : Z)
    : option gridLayoutCell :=
  r ← get cs i; get r j.

(** The cell (row i, column j) lies in the range. *)
Definition inRange (r : RectangleGrid) (i j : Z) : bool :=
  (gY r <=? i) && (i <? gY r + gHeight r) && (gX r <=? j) && (j <? gX r + gWidth r).

Definition zeroRange : RectangleGrid :=
  {| gX := 0; gY := 0; gWidth := 0; gHeight := 0 |}.

(** The range [SetRange] clears first: the one the widget has. *)
Definition previousRange (l : GridLayout) (wb : positive) : RectangleGrid :=
  match widgetBase2Info l !! wb with
  | Some info => default zeroRange (rangeFromGridLayoutWidgetInfo (cells l) info)
  | None => zeroRange
  end.

(** The conditions under which [SetRange] refuses its arguments. *)
Definition invalidRange (l : GridLayout) (widget : option Widget)
    (r : RectangleGrid) : Prop :=
  widget = None
  \/ container l = None
  \/ (exists w c, widget = Some w /\ container l = Some c
                  /\ (Handle w ∉ Children c))
  \/ gX r < 0 \/ gY r < 0 \/ gWidth r < 1 \/ gHeight r < 1.

(** *** The state the methods keep *)

(** The slices of the cells fit their arrays. *)
Definition gridOk (cs : slice (slice gridLayoutCell)) : Prop :=
  Slice.wf cs /\ Forall Slice.wf (arr cs).

(** The range of a widget whose cell pointer is [p]. *)
Definition infoRange (p : nat * nat) (info : gridLayoutWidgetInfo) : RectangleGrid :=
  {| gX := Z.of_nat p.2; gY := Z.of_nat p.1;
     gWidth := spanHorz info; gHeight := spanVert info |}.

(** The cell pointer of a registered widget points to a visible cell
    that records its own position, and the range of the widget lies in
    the grid. *)
Definition infoOk (cs : slice (slice gridLayoutCell)) (info : gridLayoutWidgetInfo)
    : Prop :=
  exists p c, cell info = Some p
    /\ cellIn cs (Z.of_nat p.1) (Z.of_nat p.2) = Some c
    /\ row c = Z.of_nat p.1 /\ column c = Z.of_nat p.2
    /\ forall i j, inRange (infoRange p info) i j = true -> is_Some (cellIn cs i j).

Record wf (l : GridLayout) : Prop := {
  wf_rsf : Slice.wf (rowStretchFactors l);
  wf_csf : Slice.wf (columnStretchFactors l);
  wf_cells : gridOk (cells l);
  wf_infos : map_Forall (fun _ => infoOk (cells l)) (widgetBase2Info l)
}.

(** No stretch factor is below 1. *)
Definition factorsOk (l : GridLayout) : Prop :=
  Slice.wf (rowStretchFactors l) /\ Slice.wf (columnStretchFactors l)
  /\ Forall (fun f => 1 <= f) (rowFactors l)
  /\ Forall (fun f => 1 <= f) (columnFactors l).

(** *** The shape of the grid *)

(** The lengths and capacities of the rows, visible or not. *)
Definition shape (cs : slice (slice gridLayoutCell)) : nat * list (nat * nat) :=
  (len cs, (fun r => (len r, cap r)) <$> arr cs).

(** The cells are a rectangle of [columns] columns: a visible row has
    [columns] cells and no capacity for more, and a row of the array that
    is not visible has no capacity at all (it is nil). *)
Definition rectOk (columns : nat) (cs : slice (slice gridLayoutCell)) : Prop :=
  forall i r, arr cs !! i = Some r ->
    ((i < len cs)%nat -> len r = columns /\ cap r = columns)
    /\ ((len cs <= i)%nat -> cap r = 0%nat).

(** The grid has a row for every row stretch factor and, in every row, a
    cell for every column stretch factor. *)
Definition rectangular (l : GridLayout) : Prop :=
  len (cells l) = len (rowStretchFactors l)
  /\ rectOk (len (columnStretchFactors l)) (cells l).

(** A cell shows a widget inside the range of the widget only, and a
    registered widget spans at least one row and one column. *)
Definition registered (l : GridLayout) : Prop :=
  (forall i j c wb, cellAt l i j = Some c -> widgetBase c = Some wb ->
     inRange (previousRange l wb) i j = true)
  /\ map_Forall (fun _ info => 1 <= spanHorz info /\ 1 <= spanVert info)
                (widgetBase2Info l).

(** *** The layouts a program can make *)

(** The container is assigned outside this file; the other fields change
    in the three methods below only. *)
Definition withContainer (l : GridLayout) (c : option Container) : GridLayout :=
  {| container := c; margins96dpi := margins96dpi l;
     spacing96dpi := spacing96dpi l; rowStretchFactors := rowStretchFactors l;
     columnStretchFactors := columnStretchFactors l;
     widgetBase2Info := widgetBase2Info l; cells := cells l;
     layoutRequests := layoutRequests l |}.

Inductive reachable : GridLayout -> Prop :=
| reachable_new : reachable NewGridLayout
| reachable_container l c : reachable l -> reachable (withContainer l c)
| reachable_SetRange l widget r e l' :
    reachable l -> SetRange l widget r = Some (e, l') -> reachable l'
| reachable_SetRowStretchFactor l row factor e l' :
    reachable l -> SetRowStretchFactor l row factor = Some (e, l') -> reachable l'
| reachable_SetColumnStretchFactor l column factor e l' :
    reachable l -> SetColumnStretchFactor l column factor = Some (e, l') ->
    reachable l'.

(** *** Two states of the cells *)

(** Every visible row is still there, possibly longer. *)
Definition extends (cs cs' : slice (slice gridLayoutCell)) : Prop :=
  forall i r, elems cs !! i = Some r ->
    exists r', elems cs' !! i = Some r' /\ elems r `prefix_of` elems r'.

(** Every cell that is there stays as it is, at its place. *)
Definition keeps (cs cs' : slice (slice gridLayoutCell)) : Prop :=
  forall i j c, cellIn cs i j = Some c -> cellIn cs' i j = Some c.

(** [cs'] is [cs] with [f] applied to the cells of the region [P]. *)
Definition updated (P : Z -> Z -> bool) (f : gridLayoutCell -> gridLayoutCell)
    (cs cs' : slice (slice gridLayoutCell)) : Prop :=
  gridOk cs' /\ len cs' = len cs
  /\ forall i j, cellIn cs' i j = (fun c => if P i j then f c else c) <$> cellIn cs i j.

(** The two changes the methods make to a cell. *)
Definition withWidget (wb : option positive) (c : gridLayoutCell) : gridLayoutCell :=
  {| row := row c; column := column c; widgetBase := wb |}.

Definition withPosition (y x : Z) (c : gridLayoutCell) : gridLayoutCell :=
  {| row := y; column := x; widgetBase := widgetBase c |}.

Definition exampleWidget (n : positive) : Widget :=
  {| AsWidgetBase := n; Handle := Zpos n |}.

Definition exampleContainer : Container := {| Children := [1; 2; 3] |}.

Definition exampleLayout : GridLayout :=
  {| container := Some exampleContainer;
     margins96dpi := {| HNear := 9; VNear := 9; HFar := 9; VFar := 9 |};
     spacing96dpi := 6;
     rowStretchFactors := nil;
     columnStretchFactors := nil;
     widgetBase2Info := ∅;
     cells := nil;
     layoutRequests := 0 |}.

Definition theLayout (o : outcome) : GridLayout :=
  match o with Some (_, l) => l | None => NewGridLayout end.

(** Widget 1 on the cells (0,1) and (0,2), widget 2 on the cell (2,0). *)
Definition exampleGrid : GridLayout :=
  theLayout
    (SetRange
       (theLayout
          (SetRange exampleLayout (Some (exampleWidget 1))
                    {| gX := 1; gY := 0; gWidth := 2; gHeight := 1 |}))
       (Some (exampleWidget 2))
       {| gX := 0; gY := 2; gWidth := 1; gHeight := 1 |}).

End GridLayout.

(** ** gridLayoutItem: the layout engine on a snapshot of the grid *)

Module GridItem.

(** Modelled from the spec: the layout flags are bit flags, shrinkable,
    growable and greedy per axis; their declaration is not in the source
    files at hand. *)
Definition ShrinkableHorz : Z := 1.
Definition ShrinkableVert : Z := 2.
Definition GrowableHorz : Z := 4.
Definition GrowableVert : Z := 8.
Definition GreedyHorz : Z := 16.
Definition GreedyVert : Z := 32.

Inductive Orientation := Horizontal | Vertical.

(** A [LayoutItem] interface value, by what the engine observes of it:
    - [itemPtr]: the address of the item, its identity as a map key;
    - [shouldLayout]: the result of [shouldLayoutItem(item)];
    - [LayoutFlags], [MaxSize] ([item.Geometry().MaxSize]);
    - [IdealSize]: [Some] when the item is an [IdealSizer];
    - [HeightForWidth]: [Some] when the item is a [HeightForWidther]
      whose [HasHeightForWidth()] holds;
    - [MinSizeEffective]: the result of [li.MinSizeEffectiveForChild(item)];
    - [isSpacer]: the item is a [*spacerLayoutItem]. *)
Record LayoutItem := {
  itemPtr : positive;
  shouldLayout : bool;
  LayoutFlags : Z;
  MaxSize : SizePixels;
  IdealSize : option SizePixels;
  HeightForWidth : option (Pixel -> Pixel);
  MinSizeEffective : SizePixels;
  isSpacer : bool
}.

Record gridLayoutItemCell := {
  row : Z;
  column : Z;
  item : option LayoutItem
}.

(** [cell] points into [cells]. *)
Record gridLayoutItemInfo := {
  cell : option (nat * nat);
  spanHorz : Z;
  spanVert : Z;
  minSize : SizePixels
}.

(** [item2Info] is keyed by the item; [None] is the nil interface value.
    [margins], [spacing], [dpi] ([ctx.dpi]) and [ClientSize]
    ([geometry.ClientSize]) are the fields of the embedded base structs
    the engine reads. *)
Record gridLayoutItem := {
  children : list LayoutItem;
  size2MinSize : gmap SizePixels SizePixels;
  rowStretchFactors : list Z;
  columnStretchFactors : list Z;
  item2Info : gmap (option positive) gridLayoutItemInfo;
  cells : list (list gridLayoutItemCell);
  margins : Margins;
  spacing : Z;
  dpi : Z;
  ClientSize : SizePixels
}.

Definition zeroSize : SizePixels := {| Width := 0; Height := 0 |}.
Definition margins9 : Margins := {| HNear := 9; VNear := 9; HFar := 9; VFar := 9 |}.
Definition margins0 : Margins := {| HNear := 0; VNear := 0; HFar := 0; VFar := 0 |}.

Record gridLayoutSectionInfo := {
  index : nat;
  secMinSize : Pixel;
  secMaxSize : Pixel;
  stretch : Z;
  hasGreedyNonSpacer : bool;
  hasGreedySpacer : bool
}.

(** [gridLayoutSectionInfoList.Less], on the two elements compared. *)
Definition Less (a b : gridLayoutSectionInfo) : bool :=
  if eqb (hasGreedyNonSpacer a) (hasGreedyNonSpacer b) then
    if eqb (hasGreedySpacer a) (hasGreedySpacer b) then
      let minDiff := secMinSize a - secMinSize b in
      if minDiff =? 0
      then Z.quot (secMaxSize a) (stretch a) <? Z.quot (secMaxSize b) (stretch b)
      else minDiff >? 0
    else hasGreedySpacer a
  else hasGreedyNonSpacer a.

(** [sort.Stable] of the Go library: the elements in ascending order of
    [Less], equal elements in their original order.  The model inserts
    each element in front of the sorted rest, before the first element
    that is not less than it. *)
Fixpoint insertSection (x : gridLayoutSectionInfo)
    (l : list gridLayoutSectionInfo) : list gridLayoutSectionInfo :=
  match l with
  | [] => [x]
  | y :: l' => if Less y x then y :: insertSection x l' else x :: l
  end.

Fixpoint sortStable (l : list gridLayoutSectionInfo)
    : list gridLayoutSectionInfo :=
  match l with
  | [] => []
  | x :: l' => insertSection x (sortStable l')
  end.


(** The order in which a stable sort leaves two sections: the first is
    less, or neither is less and the first came first. *)
Definition before (a b : gridLayoutSectionInfo) : Prop :=
  Less a b = true \/ (Less b a = false /\ (index a < index b)%nat).

(** The tier of a section: 0 with a greedy non-spacer item, 1 with a
    greedy spacer item only, 2 otherwise; the index into
    [stretchFactorsTotal], [offsets] and [counts]. *)
Definition tier (s : gridLayoutSectionInfo) : nat :=
  if hasGreedyNonSpacer s then 0%nat
  else if hasGreedySpacer s then 1%nat else 2%nat.

(** [Pixel(excessSpace * float64(stretch) / float64(stretchFactorsRemaining))] *)
Definition excessShare (excessSpace stretch stretchFactorsRemaining : Z)
    : option Pixel :=
  Float64.to_int
    (Float64.div
       (Float64.mul (Float64.of_int excessSpace) (Float64.of_int stretch))
       (Float64.of_int stretchFactorsRemaining)).

(** The state of the distribution loop. *)
Record distState := {
  sizes : list Pixel;
  space : Pixel;
  minSizesRemaining : Pixel;
  spacingRemaining : Pixel;
  stretchFactorsRemaining : Z
}.

(** The size a section gets in the state [st]. *)
Definition sectionSize (st : distState) (stretch mn mx : Z) : option Pixel :=
  if mn <? mx then
    let excessSpace := space st - minSizesRemaining st - spacingRemaining st in
    d ← excessShare excessSpace stretch (stretchFactorsRemaining st);
    let size := mn + d in
    Some (if size <? mn then mn else if size >? mx then mx else size)
  else Some mn.

(** The body of the inner loop for the section [info]. *)
Definition assign (spacingPixels : Pixel) (stretchFactors : list Z)
    (st : distState) (info : gridLayoutSectionInfo) : option distState :=
  let k := index info in
  stretch ← stretchFactors !! k;
  size ← sectionSize st stretch (secMinSize info) (secMaxSize info);
  if decide (k < length (sizes st))%nat then
    Some {| sizes := <[k := size]> (sizes st);
            space := space st - (size + spacingPixels);
            minSizesRemaining := minSizesRemaining st - secMinSize info;
            spacingRemaining := spacingRemaining st - spacingPixels;
            stretchFactorsRemaining := stretchFactorsRemaining st - stretch |}
  else None.

(** What the scan of one section accumulates: [minSizes[i]],
    [maxSizes[i]] and the two flags of [sortedSections[i]]. *)
Record sectionScan := {
  scanMin : Pixel;
  scanMax : Pixel;
  scanGreedyNonSpacer : bool;
  scanGreedySpacer : bool
}.

Definition emptyScan : sectionScan :=
  {| scanMin := 0; scanMax := 0;
     scanGreedyNonSpacer := false; scanGreedySpacer := false |}.

(** [li.cells[r][c]] *)
Definition cellAt (li : gridLayoutItem) (r c : nat) : option gridLayoutItemCell :=
  rw ← cells li !! r; rw !! c.

(** [widths[i]] for an [int] i. *)
Definition pixelAt (l : list Pixel) (i : Z) : option Pixel :=
  if decide (0 <= i) then l !! Z.to_nat i else None.

(** The integers lo, lo+1, ..., hi-1 of a [for] loop. *)
Definition zrange (lo hi : Z) : list Z :=
  (fun k => lo + Z.of_nat k) <$> seq 0 (Z.to_nat (hi - lo)).

(** The cell pointer of an info points into the cells, and the columns
    the item spans are columns of the grid. *)
Definition infoInGrid (li : gridLayoutItem) (info : gridLayoutItemInfo) : Prop :=
  exists p c, cell info = Some p /\ cellAt li p.1 p.2 = Some c
    /\ 0 <= column c
    /\ column c + spanHorz info <= Z.of_nat (length (columnStretchFactors li)).

(** The snapshot is a grid: a row of cells for every row stretch factor,
    a cell in every row for every column stretch factor, and an info in
    the grid for every item that is laid out. *)
Record consistent (li : gridLayoutItem) : Prop := {
  rows_fit : length (cells li) = length (rowStretchFactors li);
  columns_fit :
    Forall (fun r => length r = length (columnStretchFactors li)) (cells li);
  items_known :
    forall r c cl it,
      cellAt li r c = Some cl -> item cl = Some it -> shouldLayout it = true ->
      exists info, item2Info li !! Some (itemPtr it) = Some info
                   /\ infoInGrid li info
}.

Section Engine.
(** The DPI conversions are not part of the layout code. *)
Variable IntFrom96DPI : Z -> Z -> Z.
Variable MarginsFrom96DPI : Margins -> Z -> Margins.

Definition spannedWidth (li : gridLayoutItem) (info : gridLayoutItemInfo)
    (widths : list Pixel) : option Pixel :=
  let spacingPixels := IntFrom96DPI (spacing li) (dpi li) in
  p ← cell info;
  c ← cellAt li p.1 p.2;
  foldl (fun acc i =>
           width ← acc;
           w ← pixelAt widths i;
           Some (if w >? 0
                 then (if i >? column c then width + w + spacingPixels
                       else width + w)
                 else width))
        (Some 0) (zrange (column c) (column c + spanHorz info)).

(** [pref]: the ideal size of an item without height-for-width. *)
Definition prefSize (it : LayoutItem) : SizePixels :=
  match HeightForWidth it with
  | Some _ => zeroSize
  | None => default zeroSize (IdealSize it)
  end.

(** The body of the inner loop of the first pass, for an item that is
    laid out. *)
Definition visitItem (li : gridLayoutItem) (o : Orientation)
    (widths : list Pixel) (acc : sectionScan) (it : LayoutItem)
    : option sectionScan :=
  info ← item2Info li !! Some (itemPtr it);
  let flags := LayoutFlags it in
  let max := MaxSize it in
  let pref := prefSize it in
  match o with
  | Horizontal =>
      let mn := if spanHorz info =? 1
                then maxPixel (scanMin acc) (Width (MinSizeEffective it))
                else scanMin acc in
      let mx := if Width max >? 0 then maxPixel (scanMax acc) (Width max)
                else if (Width pref >? 0) && (Z.land flags GrowableHorz =? 0)
                then maxPixel (scanMax acc) (Width pref)
                else 32768 in
      let greedy := (spanHorz info =? 1) && (Z.land flags GreedyHorz >? 0) in
      Some {| scanMin := mn; scanMax := mx;
              scanGreedyNonSpacer :=
                scanGreedyNonSpacer acc || (greedy && negb (isSpacer it));
              scanGreedySpacer :=
                scanGreedySpacer acc || (greedy && isSpacer it) |}
  | Vertical =>
      mn ← (if spanVert info =? 1 then
              match HeightForWidth it with
              | Some hfw =>
                  w ← spannedWidth li info widths;
                  Some (maxPixel (scanMin acc) (hfw w))
              | None =>
                  Some (maxPixel (scanMin acc) (Height (MinSizeEffective it)))
              end
            else Some (scanMin acc));
      let mx := if Height max >? 0 then maxPixel (scanMax acc) (Height max)
                else if bool_decide (is_Some (HeightForWidth it))
                        && (Z.land flags GrowableVert =? 0)
                then mn
                else if (Height pref >? 0) && (Z.land flags GrowableVert =? 0)
                then maxPixel (scanMax acc) (Height pref)
                else 32768 in
      let greedy := (spanVert info =? 1) && (Z.land flags GreedyVert >? 0) in
      Some {| scanMin := mn; scanMax := mx;
              scanGreedyNonSpacer :=
                scanGreedyNonSpacer acc || (greedy && negb (isSpacer it));
              scanGreedySpacer :=
                scanGreedySpacer acc || (greedy && isSpacer it) |}
  end.

(** The j-th cell of section i: [li.cells[j][i]] for a column,
    [li.cells[i][j]] for a row. *)
Definition sectionCell (li : gridLayoutItem) (o : Orientation) (i j : nat)
    : option gridLayoutItemCell :=
  match o with
  | Horizontal => cellAt li j i
  | Vertical => cellAt li i j
  end.

(** One cell of section i: nil items and items that are not laid out are
    skipped. *)
Definition visitCell (li : gridLayoutItem) (o : Orientation)
    (widths : list Pixel) (i : nat) (acc : option sectionScan) (j : nat)
    : option sectionScan :=
  a ← acc;
  c ← sectionCell li o i j;
  match item c with
  | None => Some a
  | Some it =>
      if shouldLayout it then visitItem li o widths a it else Some a
  end.

Definition otherAxisCount (li : gridLayoutItem) (o : Orientation) : nat :=
  match o with
  | Horizontal => length (rowStretchFactors li)
  | Vertical => length (columnStretchFactors li)
  end.

Definition scanSection (li : gridLayoutItem) (o : Orientation)
    (widths : list Pixel) (i : nat) : option sectionScan :=
  foldl (visitCell li o widths i) (Some emptyScan)
        (seq 0 (otherAxisCount li o)).

Definition axisStretchFactors (li : gridLayoutItem) (o : Orientation) : list Z :=
  match o with
  | Horizontal => columnStretchFactors li
  | Vertical => rowStretchFactors li
  end.

(** [sortedSections] before the sort: one entry per section, in index
    order. *)
Definition sectionInfos (li : gridLayoutItem) (o : Orientation)
    (widths : list Pixel) : option (list gridLayoutSectionInfo) :=
  mapM (fun '(i, sf) =>
          a ← scanSection li o widths i;
          Some {| index := i; secMinSize := scanMin a; secMaxSize := scanMax a;
                  stretch := maxi 1 sf;
                  hasGreedyNonSpacer := scanGreedyNonSpacer a;
                  hasGreedySpacer := scanGreedySpacer a |})
       (imap pair (axisStretchFactors li o)).

(** [stretchFactorsTotal[t]]: the stretch factors, as they are in the
    slice, of the sections of tier t. *)
Definition stretchFactorsTotal (stretchFactors : list Z)
    (infos : list gridLayoutSectionInfo) (t : nat) : Z :=
  foldr (fun s acc =>
           if decide (tier s = t)
           then default 0 (stretchFactors !! index s) + acc else acc)
        0 infos.

(** [sectionCountWithGreedyNonSpacer], [sectionCountWithGreedySpacer]. *)
Definition tierCount (infos : list gridLayoutSectionInfo) (t : nat) : nat :=
  length (filter (fun s => tier s = t) infos).

Definition sumPixels (l : list Pixel) : Pixel := foldr Z.add 0 l.

(** [spacingRemaining] before the distribution: a spacing for every
    section with a positive maximum size, less one. *)
Definition initialSpacing (spacingPixels : Pixel) (maxSizes : list Pixel) : Pixel :=
  let s := foldl (fun acc max => if max >? 0 then acc + spacingPixels else acc)
                 0 maxSizes in
  if s >? 0 then s - spacingPixels else s.

Definition startTier (total : Z) (st : distState) : distState :=
  {| sizes := sizes st; space := space st;
     minSizesRemaining := minSizesRemaining st;
     spacingRemaining := spacingRemaining st;
     stretchFactorsRemaining := total |}.

(** The sections the inner loop reads, in order:
    [sortedSections[offset+j]] for j = 0, ..., count-1. *)
Definition tierVisits (sortedSections : list gridLayoutSectionInfo)
    (offset count : nat) : list (option gridLayoutSectionInfo) :=
  (fun j => sortedSections !! (offset + j)%nat) <$> seq 0 count.

(** The inner loop: [for j := 0; j < count; j++] on
    [sortedSections[offset+j]]. *)
Definition runTier (spacingPixels : Pixel) (stretchFactors : list Z)
    (sortedSections : list gridLayoutSectionInfo) (offset count : nat)
    (total : Z) (st : distState) : option distState :=
  foldl (fun acc visit =>
           s ← acc;
           info ← visit;
           assign spacingPixels stretchFactors s info)
        (Some (startTier total st)) (tierVisits sortedSections offset count).

(** As the specification states the distribution, on the sections in
    the order in which they are served: a section with a minimum below
    its maximum gets its minimum plus the excess space (the space left,
    less the minimum sizes and the spacing still to come) times its
    stretch factor over the stretch factors still to come in its tier,
    cut to an integer and kept between minimum and maximum; any other
    section gets its minimum. *)
Definition clamp (mn mx x : Pixel) : Pixel := Z.max mn (Z.min mx x).


(** The state the distribution starts from. *)
Definition initialState (li : gridLayoutItem) (o : Orientation) (space : Pixel)
    (infos : list gridLayoutSectionInfo) : distState :=
  let marginsPixels := MarginsFrom96DPI (margins li) (dpi li) in
  let spacingPixels := IntFrom96DPI (spacing li) (dpi li) in
  {| sizes := replicate (length (axisStretchFactors li o)) 0;
     space := match o with
              | Horizontal => space - (HNear marginsPixels + HFar marginsPixels)
              | Vertical => space - (VNear marginsPixels + VFar marginsPixels)
              end;
     minSizesRemaining := sumPixels (secMinSize <$> infos);
     spacingRemaining := initialSpacing spacingPixels (secMaxSize <$> infos);
     stretchFactorsRemaining := 0 |}.

(** The sizes written by a list of assignments [sizes[k] = size]. *)
Definition insertAll (l : list Pixel) (asg : list (nat * Pixel)) : list Pixel :=
  foldl (fun l kv => <[kv.1 := kv.2]> l) l asg.

(** The excess space in a state of the distribution. *)
Definition excess (st : distState) : Pixel :=
  space st - minSizesRemaining st - spacingRemaining st.

(** The three tiers, one after the other. *)
Definition distribute (spacingPixels : Pixel) (stretchFactors : list Z)
    (infos : list gridLayoutSectionInfo) (st : distState) : option distState :=
  let sortedSections := sortStable infos in
  let c0 := tierCount infos 0 in
  let c1 := tierCount infos 1 in
  let total := stretchFactorsTotal stretchFactors infos in
  st1 ← runTier spacingPixels stretchFactors sortedSections 0 c0 (total 0%nat) st;
  st2 ← runTier spacingPixels stretchFactors sortedSections c0 c1 (total 1%nat) st1;
  runTier spacingPixels stretchFactors sortedSections (c0 + c1)
          (length stretchFactors - c0 - c1) (total 2%nat) st2.

Definition sectionSizesForSpace (li : gridLayoutItem) (o : Orientation)
    (space : Pixel) (widths : list Pixel) : option (list Pixel) :=
  infos ← sectionInfos li o widths;
  st ← distribute (IntFrom96DPI (spacing li) (dpi li)) (axisStretchFactors li o)
                  infos (initialState li o space infos);
  Some (sizes st).

(** The first loop of [MinSizeForSize]: the largest minimum width of the
    single-span items of every column. *)
Definition minWidthCell (li : gridLayoutItem) (row : nat)
    (acc : option (list Pixel)) (col : nat) : option (list Pixel) :=
  ws ← acc;
  c ← cellAt li row col;
  match item c with
  | None => Some ws
  | Some it =>
      if shouldLayout it then
        info ← item2Info li !! Some (itemPtr it);
        if spanHorz info =? 1
        then w ← ws !! col;
             Some (<[col := maxPixel w (Width (MinSizeEffective it))]> ws)
        else Some ws
      else Some ws
  end.

Definition minWidths (li : gridLayoutItem) : option (list Pixel) :=
  row0 ← cells li !! 0%nat;
  let n := length row0 in
  foldl (fun acc row => foldl (minWidthCell li row) acc (seq 0 n))
        (Some (replicate n 0)) (seq 0 (length (cells li))).

(** The tallest single-span item of a row, for the column widths. *)
Definition rowHeightCell (li : gridLayoutItem) (widths : list Pixel) (row : nat)
    (acc : option Pixel) (col : nat) : option Pixel :=
  maxHeight ← acc;
  c ← cellAt li row col;
  match item c with
  | None => Some maxHeight
  | Some it =>
      if shouldLayout it then
        info ← item2Info li !! Some (itemPtr it);
        if spanVert info =? 1 then
          match HeightForWidth it with
          | Some hfw =>
              w ← spannedWidth li info widths;
              Some (maxPixel maxHeight (hfw w))
          | None => Some (maxPixel maxHeight (Height (MinSizeEffective it)))
          end
        else Some maxHeight
      else Some maxHeight
  end.

Definition rowHeights (li : gridLayoutItem) (widths heights : list Pixel)
    : option (list Pixel) :=
  mapM (fun row => foldl (rowHeightCell li widths row) (Some 0)
                         (seq 0 (length widths)))
       (seq 0 (length heights)).

(** The two closing loops of [MinSizeForSize]: from the margins, add
    every positive section size, and a spacing before it when its index
    is positive. *)
Definition addSections (spacingPixels : Pixel) (start : Pixel) (l : list Pixel)
    : Pixel :=
  foldl (fun acc '(i, w) =>
           if w >? 0
           then (if (0 <? i)%nat then acc + spacingPixels else acc) + w
           else acc)
        start (imap pair l).

(** As the specification states the total: the positive sizes, one
    spacing between each two of them, and the margins. *)
Definition positiveSizes (l : list Pixel) : list Pixel :=
  filter (fun w => 0 < w) l.

Definition specTotal (spacingPixels marginsTotal : Pixel) (l : list Pixel) : Pixel :=
  marginsTotal + sumPixels (positiveSizes l)
  + spacingPixels * Z.of_nat (length (positiveSizes l) - 1).

(** [MinSizeForSize] past the cache: the computation of the size. *)
Definition computeMinSize (li : gridLayoutItem) (size : SizePixels)
    : option SizePixels :=
  ws ← minWidths li;
  widths ← sectionSizesForSpace li Horizontal (Width size) [];
  heights0 ← sectionSizesForSpace li Vertical (Height size) widths;
  heights ← rowHeights li widths heights0;
  let marginsPixels := MarginsFrom96DPI (margins li) (dpi li) in
  let spacingPixels := IntFrom96DPI (spacing li) (dpi li) in
  Some {| Width := addSections spacingPixels
                     (HNear marginsPixels + HFar marginsPixels) ws;
          Height := addSections spacingPixels
                      (VNear marginsPixels + VFar marginsPixels) heights |}.

Definition withCache (li : gridLayoutItem) (m : gmap SizePixels SizePixels)
    : gridLayoutItem :=
  {| children := children li; size2MinSize := m;
     rowStretchFactors := rowStretchFactors li;
     columnStretchFactors := columnStretchFactors li;
     item2Info := item2Info li; cells := cells li;
     margins := margins li; spacing := spacing li; dpi := dpi li;
     ClientSize := ClientSize li |}.

(** [MinSizeForSize]: the result and the item afterwards (its cache). *)
Definition MinSizeForSize (li : gridLayoutItem) (size : SizePixels)
    : option (SizePixels * gridLayoutItem) :=
  if decide (length (cells li) = 0%nat) then Some (zeroSize, li)
  else
    match size2MinSize li !! size with
    | Some min => Some (min, li)
    | None =>
        r ← computeMinSize li size;
        if (Width r >? 0) && (Height r >? 0)
        then Some (r, withCache li (<[size := r]> (size2MinSize li)))
        else Some (r, li)
    end.

(** The span of an item along the axis. *)
Definition axisSpan (o : Orientation) (info : gridLayoutItemInfo) : Z :=
  match o with
  | Horizontal => spanHorz info
  | Vertical => spanVert info
  end.

(** What a single-span item asks for along the axis: its effective
    minimum width; its effective minimum height, or its height for the
    width it spans when it has height-for-width. *)
Definition itemMinimum (li : gridLayoutItem) (o : Orientation)
    (widths : list Pixel) (it : LayoutItem) (info : gridLayoutItemInfo)
    : option Pixel :=
  match o with
  | Horizontal => Some (Width (MinSizeEffective it))
  | Vertical =>
      match HeightForWidth it with
      | Some hfw => w ← spannedWidth li info widths; Some (hfw w)
      | None => Some (Height (MinSizeEffective it))
      end
  end.

(** The item [it], with the info [info], is laid out in the j-th cell
    of section i and spans that section only. *)
Definition singleSpanItemAt (li : gridLayoutItem) (o : Orientation)
    (i j : nat) (it : LayoutItem) (info : gridLayoutItemInfo) : Prop :=
  (j < otherAxisCount li o)%nat
  /\ exists c, sectionCell li o i j = Some c /\ item c = Some it
               /\ shouldLayout it = true
               /\ item2Info li !! Some (itemPtr it) = Some info
               /\ axisSpan o info = 1.



(** The margins of an axis, in pixels. *)
Definition axisMargins (li : gridLayoutItem) (o : Orientation) : Pixel :=
  let marginsPixels := MarginsFrom96DPI (margins li) (dpi li) in
  match o with
  | Horizontal => HNear marginsPixels + HFar marginsPixels
  | Vertical => VNear marginsPixels + VFar marginsPixels
  end.

(** The space a result of [sectionSizesForSpace] takes: the sizes, the
    spacing between the sections (as the distribution counts it: one for
    every section with a positive maximum size, less one) and the
    margins. *)
Definition usedSpace (li : gridLayoutItem) (o : Orientation)
    (widths sizes : list Pixel) : option Pixel :=
  infos ← sectionInfos li o widths;
  Some (sumPixels sizes
        + initialSpacing (IntFrom96DPI (spacing li) (dpi li)) (secMaxSize <$> infos)
        + axisMargins li o).

End Engine.

(** *** PerformLayout *)

(** The alignments by their names in the source. *)
Inductive Alignment2D :=
| AlignHVDefault
| AlignHNearVNear | AlignHCenterVNear | AlignHFarVNear
| AlignHNearVCenter | AlignHCenterVCenter | AlignHFarVCenter
| AlignHNearVFar | AlignHCenterVFar | AlignHFarVFar.

(** [x] and [y] before the alignment: the near margin and, for every
    section before the cell that has a size, the size and a spacing. *)
Definition sectionOffset (near spacingPixels : Pixel) (sizes : list Pixel) (n : Z)
    : option Pixel :=
  foldl (fun acc i =>
           x ← acc;
           w ← pixelAt sizes i;
           Some (if w >? 0 then x + (w + spacingPixels) else x))
        (Some near) (zrange 0 n).

(** [w] and [h]: the size of the cells the item spans, unless the item
    does not grow. *)
Definition itemSize (it : LayoutItem) (width height : Pixel) : Pixel * Pixel :=
  let lf := LayoutFlags it in
  if (Z.land lf GrowableHorz =? 0) || (Z.land lf GrowableVert =? 0) then
    let s := prefSize it in
    let max := MaxSize it in
    let sWidth := if (Width max >? 0) && (Width s >? Width max)
                  then Width max else Width s in
    let w := if Z.land lf GrowableHorz =? 0 then sWidth else width in
    let h := match HeightForWidth it with
             | Some hfw => hfw w
             | None =>
                 let sHeight := if (Height max >? 0) && (Height s >? Height max)
                                then Height max else Height s in
                 if Z.land lf GrowableVert =? 0 then sHeight else height
             end in
    (w, h)
  else (width, height).

Definition alignHorz (alignment : Alignment2D) (x width w : Pixel) : Pixel :=
  if w =? width then x
  else match alignment with
       | AlignHCenterVNear | AlignHCenterVCenter | AlignHCenterVFar =>
           x + Z.quot (width - w) 2
       | AlignHFarVNear | AlignHFarVCenter | AlignHFarVFar => x + (width - w)
       | _ => x
       end.

Definition alignVert (alignment : Alignment2D) (y height h : Pixel) : Pixel :=
  if h =? height then y
  else match alignment with
       | AlignHNearVCenter | AlignHCenterVCenter | AlignHFarVCenter =>
           y + Z.quot (height - h) 2
       | AlignHNearVFar | AlignHCenterVFar | AlignHFarVFar => y + (height - h)
       | _ => y
       end.

Section Placement.
Variable IntFrom96DPI : Z -> Z -> Z.
Variable MarginsFrom96DPI : Margins -> Z -> Margins.

Definition spannedHeight (li : gridLayoutItem) (info : gridLayoutItemInfo)
    (heights : list Pixel) : option Pixel :=
  let spacingPixels := IntFrom96DPI (spacing li) (dpi li) in
  p ← cell info;
  c ← cellAt li p.1 p.2;
  foldl (fun acc i =>
           height ← acc;
           h ← pixelAt heights i;
           Some (if h >? 0
                 then (if i >? row c then height + h + spacingPixels
                       else height + h)
                 else height))
        (Some 0) (zrange (row c) (row c + spanVert info)).

(** The body of the loop of [PerformLayout] for the item [it] with the
    info [info]: [Some None] when the item is not laid out.
    [itemAlignment] is [item.Geometry().Alignment] and [alignment] is
    [li.alignment]. *)
Definition layoutItem (li : gridLayoutItem) (alignment : Alignment2D)
    (widths heights : list Pixel) (it : LayoutItem) (itemAlignment : Alignment2D)
    (info : gridLayoutItemInfo) : option (option RectanglePixels) :=
  if negb (shouldLayout it) then Some None
  else
    let marginsPixels := MarginsFrom96DPI (margins li) (dpi li) in
    let spacingPixels := IntFrom96DPI (spacing li) (dpi li) in
    p ← cell info;
    c ← cellAt li p.1 p.2;
    x ← sectionOffset (HNear marginsPixels) spacingPixels widths (column c);
    y ← sectionOffset (VNear marginsPixels) spacingPixels heights (row c);
    width ← spannedWidth IntFrom96DPI li info widths;
    height ← spannedHeight li info heights;
    let '(w, h) := itemSize it width height in
    let a := match itemAlignment with
             | AlignHVDefault => alignment
             | _ => itemAlignment
             end in
    Some (Some {| rX := alignHorz a x width w; rY := alignVert a y height h;
                  rWidth := w; rHeight := h |}).


End Placement.

(** The size the sections from [first] on take, through [first + n - 1]:
    the loop of [spannedWidth] and [spannedHeight]. *)
Definition spanFold (spacingPixels first : Z) (sizes : list Z) (n : nat)
    : option Z :=
  foldl (fun acc i =>
           width ← acc;
           w ← pixelAt sizes i;
           Some (if w >? 0
                 then (if i >? first then width + w + spacingPixels
                       else width + w)
                 else width))
        (Some 0) ((fun k => first + Z.of_nat k) <$> seq 0 n).

(** *** LayoutFlags *)

Section Flags.
(** [greedyLocallyOnly it] is the field [greedyLocallyOnly] of [it] when
    [it] is a [*spacerLayoutItem]. *)
Variable greedyLocallyOnly : LayoutItem -> bool.

(** [wf] at the end of the body of the loop: the flags of the item
    without the greedy flag of a direction in which the item has a
    maximum size. *)
Definition itemFlags (it : LayoutItem) : Z :=
  let wf := LayoutFlags it in
  let wf := if negb (Z.land wf GreedyHorz =? 0) && (Width (MaxSize it) >? 0)
            then Z.ldiff wf GreedyHorz else wf in
  let wf := if negb (Z.land wf GreedyVert =? 0) && (Height (MaxSize it) >? 0)
            then Z.ldiff wf GreedyVert else wf in
  wf.

(** The items the loop does not skip. *)
Definition countsForFlags (it : LayoutItem) : bool :=
  negb ((isSpacer it && greedyLocallyOnly it) || negb (shouldLayout it)).

(** The method [LayoutFlags] of [gridLayoutItem]. *)
Definition gridLayoutFlags (li : gridLayoutItem) : Z :=
  if (length (children li) =? 0)%nat then
    Z.lor (Z.lor (Z.lor ShrinkableHorz ShrinkableVert) GrowableHorz) GrowableVert
  else
    foldl (fun flags it =>
             if countsForFlags it then Z.lor flags (itemFlags it) else flags)
          0 (children li).

End Flags.

(** *** Properties of the results *)

(** The size is the minimum of the section or, for a section whose
    minimum is below its maximum, between the two. *)
Definition inBounds (s : gridLayoutSectionInfo) (v : Z) : Prop :=
  secMinSize s <= v
  /\ (secMinSize s < secMaxSize s -> v <= secMaxSize s)
  /\ (secMaxSize s <= secMinSize s -> v = secMinSize s).

(** No item that is laid out has a height that depends on its width. *)
Definition noHeightForWidth (li : gridLayoutItem) : Prop :=
  forall r c cl it,
    cellAt li r c = Some cl -> item cl = Some it -> shouldLayout it = true ->
    HeightForWidth it = None.

(** The spacing the closing loops of [MinSizeForSize] add in front of
    the first section that has a size, when that is not section 0. *)
Definition firstSectionExtra (spacingPixels : Z) (l : list Z) : Z :=
  match l with
  | w :: rest =>
      if decide (w <= 0 /\ positiveSizes rest <> []) then spacingPixels else 0
  | [] => 0
  end.


Section Snapshot.
(** The construction of the layout item of a widget is not part of the
    layout code.  A layout context is its DPI. *)
Variable createLayoutItemForWidgetWithContext : positive -> Z -> LayoutItem.

(** The item made for a widget is made once and shared by the cells of
    the widget; its address is named after the widget. *)
Definition newItem (wb : positive) (ctx : Z) : LayoutItem :=
  let it := createLayoutItemForWidgetWithContext wb ctx in
  {| itemPtr := wb; shouldLayout := shouldLayout it;
     LayoutFlags := LayoutFlags it; MaxSize := MaxSize it;
     IdealSize := IdealSize it; HeightForWidth := HeightForWidth it;
     MinSizeEffective := MinSizeEffective it; isSpacer := isSpacer it |}.

Definition snapshotCell (ctx : Z) (row col : nat)
    (src : GridLayout.gridLayoutCell) : gridLayoutItemCell :=
  {| row := Z.of_nat row; column := Z.of_nat col;
     item := (fun wb => newItem wb ctx) <$> GridLayout.widgetBase src |}.

Definition snapshotCells (ctx : Z) (l : GridLayout.GridLayout)
    : list (list gridLayoutItemCell) :=
  imap (fun row srcCols => imap (snapshotCell ctx row) (Slice.elems srcCols))
       (Slice.elems (GridLayout.cells l)).

(** The widgets in the order in which the cells first show them. *)
Fixpoint firstSeen (seen : gset positive) (l : list positive) : list positive :=
  match l with
  | [] => []
  | wb :: l' =>
      if decide (wb ∈ seen) then firstSeen seen l'
      else wb :: firstSeen ({[wb]} ∪ seen) l'
  end.

Definition cellWidgets (l : GridLayout.GridLayout) : list positive :=
  omap GridLayout.widgetBase
       (concat (Slice.elems <$> Slice.elems (GridLayout.cells l))).

(** The entry of [item2Info] for a registered widget: the key is the
    item of the widget, the nil interface value when no cell shows the
    widget. *)
Definition snapshotInfo (l : GridLayout.GridLayout)
    (dst : list (list gridLayoutItemCell))
    (e : positive * GridLayout.gridLayoutWidgetInfo)
    : option (option positive * gridLayoutItemInfo) :=
  let '(wb, info) := e in
  let key := if decide (wb ∈ cellWidgets l) then Some wb else None in
  c ← match GridLayout.cell info with
      | None => Some None
      | Some p =>
          src ← GridLayout.derefCell (GridLayout.cells l) p;
          let r := GridLayout.row src in
          let k := GridLayout.column src in
          if decide (0 <= r /\ 0 <= k) then
            rw ← dst !! Z.to_nat r;
            _ ← rw !! Z.to_nat k;
            Some (Some (Z.to_nat r, Z.to_nat k))
          else None
      end;
  Some (key, {| cell := c; spanHorz := GridLayout.spanHorz info;
                spanVert := GridLayout.spanVert info;
                minSize := GridLayout.minSize info |}).

(** [CreateLayoutItem]: the snapshot of the grid model.  Go ranges over
    [widgetBase2Info] in no fixed order; the order only decides which
    info the nil key keeps. *)
Definition CreateLayoutItem (l : GridLayout.GridLayout) (ctx : Z)
    : option gridLayoutItem :=
  let dst := snapshotCells ctx l in
  infos ← mapM (snapshotInfo l dst) (map_to_list (GridLayout.widgetBase2Info l));
  Some {| children := (fun wb => newItem wb ctx) <$> firstSeen ∅ (cellWidgets l);
          size2MinSize := ∅;
          rowStretchFactors := Slice.elems (GridLayout.rowStretchFactors l);
          columnStretchFactors := Slice.elems (GridLayout.columnStretchFactors l);
          item2Info := list_to_map infos;
          cells := dst;
          margins := margins0;
          spacing := 0;
          dpi := 0;
          ClientSize := zeroSize |}.

End Snapshot.

(** *** Example grids *)

(** A DPI conversion that is linear in the DPI, for the examples. *)
Definition linearFrom96DPI (v dpi : Z) : Z := Z.quot (v * dpi) 96.
Definition linearMarginsFrom96DPI (m : Margins) (dpi : Z) : Margins :=
  {| HNear := linearFrom96DPI (HNear m) dpi;
     VNear := linearFrom96DPI (VNear m) dpi;
     HFar := linearFrom96DPI (HFar m) dpi;
     VFar := linearFrom96DPI (VFar m) dpi |}.

(** The grid model after [SetRange] for the widgets and ranges of the
    list, in the container of the examples. *)
Definition rangeAt (x y w h : Z) : GridLayout.RectangleGrid :=
  {| GridLayout.gX := x; GridLayout.gY := y;
     GridLayout.gWidth := w; GridLayout.gHeight := h |}.

Definition gridOf (ranges : list (positive * GridLayout.RectangleGrid))
    : GridLayout.GridLayout :=
  foldl (fun l '(n, r) =>
           GridLayout.theLayout
             (GridLayout.SetRange l (Some (GridLayout.exampleWidget n)) r))
        GridLayout.exampleLayout ranges.

(** The fields of the embedded base structs are set where the container
    is laid out, not in the layout code. *)
Definition placed (m : Margins) (s d : Z) (size : SizePixels)
    (li : gridLayoutItem) : gridLayoutItem :=
  {| children := children li; size2MinSize := size2MinSize li;
     rowStretchFactors := rowStretchFactors li;
     columnStretchFactors := columnStretchFactors li;
     item2Info := item2Info li; cells := cells li;
     margins := m; spacing := s; dpi := d; ClientSize := size |}.

(** A growable item with the minimum size (w, h), no maximum size and no
    ideal size. *)
Definition plainItem (p : positive) (w h : Pixel) : LayoutItem :=
  {| itemPtr := p; shouldLayout := true;
     LayoutFlags := Z.lor (Z.lor ShrinkableHorz ShrinkableVert)
                          (Z.lor GrowableHorz GrowableVert);
     MaxSize := zeroSize; IdealSize := None; HeightForWidth := None;
     MinSizeEffective := {| Width := w; Height := h |};
     isSpacer := false |}.

Definition infoAt (r c : nat) (sh sv : Z) : gridLayoutItemInfo :=
  {| cell := Some (r, c); spanHorz := sh; spanVert := sv; minSize := zeroSize |}.

Definition cellWith (r c : nat) (it : option LayoutItem) : gridLayoutItemCell :=
  {| row := Z.of_nat r; column := Z.of_nat c; item := it |}.

(** One row, two columns of stretch factor 1, an item of minimum width
    50 in each; margins 9 and spacing 6 at 96 dpi. *)
Definition twoColumns : gridLayoutItem :=
  {| children := [plainItem 1 50 20; plainItem 2 50 20];
     size2MinSize := ∅;
     rowStretchFactors := [1];
     columnStretchFactors := [1; 1];
     item2Info := <[Some 1%positive := infoAt 0 0 1 1]>
                    (<[Some 2%positive := infoAt 0 1 1 1]> ∅);
     cells := [[cellWith 0 0 (Some (plainItem 1 50 20));
                cellWith 0 1 (Some (plainItem 2 50 20))]];
     margins := margins9;
     spacing := 6;
     dpi := 96;
     ClientSize := {| Width := 220; Height := 100 |} |}.

(** One row, two columns: the first is empty, the second holds an item
    of minimum size 50x20. *)
Definition emptyFirstColumn : gridLayoutItem :=
  {| children := [plainItem 1 50 20];
     size2MinSize := ∅;
     rowStretchFactors := [1];
     columnStretchFactors := [1; 1];
     item2Info := <[Some 1%positive := infoAt 0 1 1 1]> ∅;
     cells := [[cellWith 0 0 None; cellWith 0 1 (Some (plainItem 1 50 20))]];
     margins := margins9;
     spacing := 6;
     dpi := 96;
     ClientSize := {| Width := 220; Height := 100 |} |}.

(** One row, two columns, and one item of minimum width 100 that spans
    both columns. *)
Definition spannedOnly : gridLayoutItem :=
  {| children := [plainItem 1 100 20];
     size2MinSize := ∅;
     rowStretchFactors := [1];
     columnStretchFactors := [1; 1];
     item2Info := <[Some 1%positive := infoAt 0 0 2 1]> ∅;
     cells := [[cellWith 0 0 (Some (plainItem 1 100 20));
                cellWith 0 1 (Some (plainItem 1 100 20))]];
     margins := margins9;
     spacing := 6;
     dpi := 96;
     ClientSize := {| Width := 220; Height := 100 |} |}.

(** A greedy item that is not a spacer, and a greedy horizontal spacer
    as [NewHSpacer] makes it. *)
Definition greedyItem (p : positive) (w h : Pixel) : LayoutItem :=
  {| itemPtr := p; shouldLayout := true;
     LayoutFlags := Z.lor (Z.lor (Z.lor ShrinkableHorz ShrinkableVert)
                                 (Z.lor GrowableHorz GrowableVert))
                          (Z.lor GreedyHorz GreedyVert);
     MaxSize := zeroSize; IdealSize := None; HeightForWidth := None;
     MinSizeEffective := {| Width := w; Height := h |};
     isSpacer := false |}.

Definition hSpacer (p : positive) : LayoutItem :=
  {| itemPtr := p; shouldLayout := true;
     LayoutFlags := Z.lor (Z.lor ShrinkableHorz ShrinkableVert)
                          (Z.lor GrowableHorz GreedyHorz);
     MaxSize := zeroSize; IdealSize := Some zeroSize; HeightForWidth := None;
     MinSizeEffective := zeroSize;
     isSpacer := true |}.

(** Two rows, two columns.  Column 0 holds a greedy item of minimum
    width 100; column 1 holds a greedy item of minimum width 50 and,
    below it, a greedy spacer. *)
Definition greedyMix : gridLayoutItem :=
  {| children := [greedyItem 1 100 20; greedyItem 2 50 20; hSpacer 3];
     size2MinSize := ∅;
     rowStretchFactors := [1; 1];
     columnStretchFactors := [1; 1];
     item2Info := <[Some 1%positive := infoAt 0 0 1 1]>
                    (<[Some 2%positive := infoAt 0 1 1 1]>
                       (<[Some 3%positive := infoAt 1 1 1 1]> ∅));
     cells := [[cellWith 0 0 (Some (greedyItem 1 100 20));
                cellWith 0 1 (Some (greedyItem 2 50 20))];
               [cellWith 1 0 None;
                cellWith 1 1 (Some (hSpacer 3))]];
     margins := margins9;
     spacing := 6;
     dpi := 96;
     ClientSize := {| Width := 400; Height := 100 |} |}.

(** One cell with an item of minimum size zero, no margins. *)
Definition zeroSizeGrid : gridLayoutItem :=
  {| children := [plainItem 1 0 0];
     size2MinSize := ∅;
     rowStretchFactors := [1];
     columnStretchFactors := [1];
     item2Info := <[Some 1%positive := infoAt 0 0 1 1]> ∅;
     cells := [[cellWith 0 0 (Some (plainItem 1 0 0))]];
     margins := margins0;
     spacing := 6;
     dpi := 96;
     ClientSize := {| Width := 220; Height := 100 |} |}.

(** An item that does not grow, centred in its cell. *)
Definition fixedItem (p : positive) (w h : Pixel) : LayoutItem :=
  {| itemPtr := p; shouldLayout := true; LayoutFlags := 0;
     MaxSize := zeroSize; IdealSize := Some {| Width := w; Height := h |};
     HeightForWidth := None;
     MinSizeEffective := {| Width := w; Height := h |};
     isSpacer := false |}.

End GridItem.

(** * Properties *)

(** ** float64: integers below 2^53 *)

Section Float64Facts.
Import Float64 GridItem.

Lemma digits2_size (p : positive) : digits2_pos p = Pos.size p.
Proof. induction p; cbn; congruence. Qed.

Lemma Zdigits2_bounds (p : positive) :
  2 ^ (Zdigits2 (Zpos p) - 1) <= Zpos p < 2 ^ Zdigits2 (Zpos p).
Proof.
  cbn [Zdigits2]. rewrite digits2_size.
  pose proof (Pos.size_gt p) as Hgt. pose proof (Pos.size_le p) as Hle.
  apply Pos2Z.pos_lt_pos in Hgt. apply Pos2Z.pos_le_pos in Hle.
  rewrite Pos2Z.inj_pow in Hgt, Hle.
  split; [|exact Hgt].
  replace (Zpos (Pos.size p)) with (Zpos (Pos.size p) - 1 + 1) in Hle by lia.
  rewrite Z.pow_add_r in Hle by lia. change (2 ^ 1) with 2 in Hle.
  change (Zpos p~0) with (2 * Zpos p) in Hle. lia.
Qed.

Lemma Zdigits2_unique (p : positive) (d : Z) :
  2 ^ (d - 1) <= Zpos p < 2 ^ d -> Zdigits2 (Zpos p) = d.
Proof.
  intros [Hlo Hhi]. pose proof (Zdigits2_bounds p) as [Hlo' Hhi'].
  assert (0 < Zdigits2 (Zpos p)) by (cbn; lia).
  assert (0 < d).
  { destruct (Z_lt_le_dec 0 d); [done|]. 
    assert (2 ^ d <= 2 ^ 0) by (destruct (Z.eq_dec d 0) as [->|]; [done|rewrite Z.pow_neg_r by lia; done]).
    change (2 ^ 0) with 1 in *. lia. }
  destruct (Z.lt_trichotomy (Zdigits2 (Zpos p)) d) as [Hlt|[Heq|Hgt]]; [|done|].
  - assert (2 ^ Zdigits2 (Zpos p) <= 2 ^ (d - 1)) by (apply Z.pow_le_mono_r; lia). lia.
  - assert (2 ^ d <= 2 ^ (Zdigits2 (Zpos p) - 1)) by (apply Z.pow_le_mono_r; lia). lia.
Qed.

Lemma iter_pos_nat {A} (f : A -> A) (p : positive) (x : A) :
  SpecFloat.iter_pos f p x = Nat.iter (Pos.to_nat p) f x.
Proof.
  revert x. induction p as [p IH|p IH|]; intros x; cbn [SpecFloat.iter_pos].
  - rewrite !IH. rewrite Pos2Nat.inj_xI.
    replace (S (2 * Pos.to_nat p)) with (Pos.to_nat p + (Pos.to_nat p + 1))%nat by lia.
    rewrite !Nat.iter_add. done.
  - rewrite !IH. rewrite Pos2Nat.inj_xO.
    replace (2 * Pos.to_nat p)%nat with (Pos.to_nat p + Pos.to_nat p)%nat by lia.
    rewrite Nat.iter_add. done.
  - done.
Qed.

Lemma shr_1_even (z : Z) :
  0 <= z ->
  shr_1 (Build_shr_record (2 * z) false false) = Build_shr_record z false false.
Proof. intros Hz. destruct z as [|p|p]; [done|done|lia]. Qed.

Lemma shr_exact (k : nat) (z : Z) :
  0 <= z ->
  Nat.iter k shr_1 (Build_shr_record (z * 2 ^ Z.of_nat k) false false)
  = Build_shr_record z false false.
Proof.
  intros Hz. induction k as [|k IH].
  - cbn. by rewrite Z.mul_1_r.
  - rewrite Nat.iter_succ_r.
    replace (z * 2 ^ Z.of_nat (S k)) with (2 * (z * 2 ^ Z.of_nat k))
      by (rewrite Nat2Z.inj_succ, Z.pow_succ_r by lia; lia).
    rewrite shr_1_even by (apply Z.mul_nonneg_nonneg; [done|apply Z.pow_nonneg; lia]).
    exact IH.
Qed.

Lemma fexp_normal (e : Z) : -1021 <= e -> fexp prec emax e = e - 53.
Proof. unfold fexp, SpecFloat.emin, prec, emax. lia. Qed.

(** Rounding a mantissa that ends in k zero bits, and has 53 bits
    without them, drops the zero bits. *)
Lemma round_aux_shift (s : bool) (M m : positive) (e : Z) (k : nat) :
  Zpos M = Zpos m * 2 ^ Z.of_nat k -> normal m ->
  -1074 <= e + Z.of_nat k <= 971 ->
  binary_round_aux prec emax s (Zpos M) e loc_Exact
  = S754_finite s m (e + Z.of_nat k).
Proof.
  intros HM [Hlo Hhi] He.
  assert (Zdigits2 (Zpos M) = 53 + Z.of_nat k) as HdM.
  { apply Zdigits2_unique. rewrite HM.
    replace (53 + Z.of_nat k - 1) with (52 + Z.of_nat k) by lia.
    rewrite !Z.pow_add_r by lia.
    assert (0 < 2 ^ Z.of_nat k) by (apply Z.pow_pos_nonneg; lia). nia. }
  assert (Zdigits2 (Zpos m) = 53) as Hdm by (apply Zdigits2_unique; done).
  assert (shr_fexp prec emax (Zpos M) e loc_Exact
          = (Build_shr_record (Zpos m) false false, e + Z.of_nat k)) as Hs1.
  { unfold shr_fexp. rewrite HdM. rewrite fexp_normal by lia.
    replace (53 + Z.of_nat k + e - 53 - e) with (Z.of_nat k) by lia.
    destruct k as [|k]; cbn [Z.of_nat] in *; unfold shr.
    - cbn [shr_record_of_loc]. f_equal; [|lia].
      f_equal. rewrite HM. cbn. lia.
    - change (Z.of_nat (S k)) with (Zpos (Pos.of_succ_nat k)). cbn match.
      rewrite iter_pos_nat, SuccNat2Pos.id_succ.
      cbn [shr_record_of_loc]. rewrite HM.
      change (Zpos (Pos.of_succ_nat k)) with (Z.of_nat (S k)).
      rewrite shr_exact by lia. done. }
  assert (shr_fexp prec emax (Zpos m) (e + Z.of_nat k) loc_Exact
          = (Build_shr_record (Zpos m) false false, e + Z.of_nat k)) as Hs2.
  { unfold shr_fexp. rewrite Hdm. rewrite fexp_normal by lia.
    replace (53 + (e + Z.of_nat k) - 53 - (e + Z.of_nat k)) with 0 by lia.
    done. }
  unfold binary_round_aux. rewrite Hs1. cbn [shr_m loc_of_shr_record round_nearest_even].
  rewrite Hs2. cbn [shr_m].
  unfold emax, prec. destruct (Z.leb_spec (e + Z.of_nat k) (1024 - 53)); [done|lia].
Qed.

Lemma Zpos_iter_xO (p d : positive) : Zpos (Pos.iter xO p d) = Zpos p * 2 ^ Zpos d.
Proof.
  rewrite (Pos.iter_swap_gen _ _ Zpos xO (Z.mul 2)) by done.
  change (Pos.iter (Z.mul 2) (Zpos p) d) with (Z.shiftl (Zpos p) (Zpos d)).
  apply Z.shiftl_mul_pow2. lia.
Qed.

(** [float64(n)] is n for a positive n below 2^53: the mantissa is n
    shifted to 53 bits. *)
Lemma of_int_pos (s : bool) (p : positive) :
  Zpos p < 2 ^ 53 ->
  exists (m : positive) (k : Z),
    binary_round prec emax s p 0 = S754_finite s m (- k)
    /\ normal m /\ 0 <= k <= 52 /\ Zpos m = Zpos p * 2 ^ k.
Proof.
  intros Hp. unfold binary_round.
  pose proof (Zdigits2_bounds p) as [Hlo Hhi].
  set (d := Zdigits2 (Zpos p)) in *.
  assert (1 <= d <= 53) as Hd.
  { split; [subst d; cbn; lia|].
    destruct (Z_le_gt_dec d 53); [done|].
    assert (2 ^ 53 <= 2 ^ (d - 1)) by (apply Z.pow_le_mono_r; lia). lia. }
  change (Zpos (digits2_pos p)) with d.
  rewrite Z.add_0_r. unfold fexp, SpecFloat.emin, prec, emax.
  replace (Z.max (d - 53) (3 - 1024 - 53)) with (d - 53) by lia.
  unfold shl_align. rewrite Z.sub_0_r.
  destruct (d - 53) as [|q|q] eqn:Hq; [|lia|].
  - exists p, 0. change (- 0) with 0.
    assert (normal p) by (unfold normal; replace 52 with (d - 1) by lia; replace 53 with d by lia; done).
    split; [|split; [done|split; [lia|lia]]].
    cbn match. apply (round_aux_shift s p p 0 0%nat); [cbn; lia|done|cbn; lia].
  - exists (Pos.iter xO p q), (Zpos q).
    assert (Zpos q = 53 - d) as Hq' by lia.
    assert (normal (Pos.iter xO p q)) as Hn.
    { unfold normal. rewrite Zpos_iter_xO, Hq'.
      assert (2 ^ 52 = 2 ^ (d - 1) * 2 ^ (53 - d)) as ->
        by (rewrite <- Z.pow_add_r by lia; f_equal; lia).
      assert (2 ^ 53 = 2 ^ d * 2 ^ (53 - d)) as ->
        by (rewrite <- Z.pow_add_r by lia; f_equal; lia).
      assert (0 < 2 ^ (53 - d)) by (apply Z.pow_pos_nonneg; lia). nia. }
    split; [|split; [done|split; [lia|apply Zpos_iter_xO]]].
    cbn match.
    replace (- Zpos q) with (Zneg q + Z.of_nat 0) by (cbn; lia).
    apply (round_aux_shift s _ (Pos.iter xO p q) _ 0%nat); [cbn; lia|done|cbn; lia].
Qed.

(** The product of two floats that hold integers is exact when it is
    below 2^53. *)
Lemma mul_exact (s1 s2 : bool) (m1 m2 n1 n2 : positive) (k1 k2 : Z) :
  Zpos m1 = Zpos n1 * 2 ^ k1 -> Zpos m2 = Zpos n2 * 2 ^ k2 ->
  normal m1 -> normal m2 -> 0 <= k1 <= 52 -> 0 <= k2 <= 52 ->
  Zpos n1 * Zpos n2 < 2 ^ 53 ->
  exists (m3 : positive) (k3 : Z),
    SFmul prec emax (S754_finite s1 m1 (- k1)) (S754_finite s2 m2 (- k2))
    = S754_finite (xorb s1 s2) m3 (- k3)
    /\ normal m3 /\ 0 <= k3 <= 52 /\ Zpos m3 = Zpos n1 * Zpos n2 * 2 ^ k3.
Proof.
  intros H1 H2 [L1 U1] [L2 U2] Hk1 Hk2 Hn.
  destruct (of_int_pos (xorb s1 s2) (n1 * n2)) as (m3 & k3 & _ & Hn3 & Hk3 & H3);
    [by rewrite Pos2Z.inj_mul|].
  rewrite Pos2Z.inj_mul in H3.
  exists m3, k3. split; [|done]. cbn [SFmul].
  assert (0 < 2 ^ k1) by (apply Z.pow_pos_nonneg; lia).
  assert (0 < 2 ^ k2) by (apply Z.pow_pos_nonneg; lia).
  assert (0 < 2 ^ k3) by (apply Z.pow_pos_nonneg; lia).
  destruct Hn3 as [L3 U3].
  assert (k3 <= k1 + k2) as Hk.
  { destruct (Z_le_gt_dec k3 (k1 + k2)); [done|]. exfalso.
    assert (Zpos m3 = Zpos m1 * Zpos m2 * 2 ^ (k3 - k1 - k2)) as E.
    { rewrite H3, H1, H2.
      replace k3 with (k1 + (k2 + (k3 - k1 - k2))) at 1 by lia.
      rewrite !Z.pow_add_r by lia. ring. }
    assert (1 <= 2 ^ (k3 - k1 - k2)) by (apply Z.lt_pred_le, Z.pow_pos_nonneg; lia).
    assert (2 ^ 52 * 2 ^ 52 <= Zpos m1 * Zpos m2) by (apply Z.mul_le_mono_nonneg; lia).
    change (2 ^ 52 * 2 ^ 52) with (2 ^ 104) in *.
    assert (2 ^ 104 <= Zpos m3) by nia.
    assert (2 ^ 53 < 2 ^ 104) by done. lia. }
  replace (- k3) with ((- k1 + - k2) + Z.of_nat (Z.to_nat (k1 + k2 - k3))) by lia.
  apply round_aux_shift; [|unfold normal; lia|lia].
  rewrite Pos2Z.inj_mul, H1, H2, H3, Z2Nat.id by lia.
  assert (2 ^ k1 * 2 ^ k2 = 2 ^ k3 * 2 ^ (k1 + k2 - k3)) as E
    by (rewrite <- !Z.pow_add_r by lia; f_equal; lia).
  transitivity (Zpos n1 * Zpos n2 * (2 ^ k1 * 2 ^ k2)); [ring|].
  rewrite E. ring.
Qed.

Lemma loc_of_record_of_loc (m : Z) (l : location) :
  loc_of_shr_record (shr_record_of_loc m l) = l.
Proof. by destruct l as [|[]]. Qed.

Lemma shr_fexp_53 (q : positive) (e : Z) (l : location) :
  normal q -> -1074 <= e ->
  shr_fexp prec emax (Zpos q) e l = (shr_record_of_loc (Zpos q) l, e).
Proof.
  intros Hq He. unfold shr_fexp.
  rewrite (Zdigits2_unique q 53) by done.
  rewrite fexp_normal by lia.
  replace (53 + e - 53 - e) with 0 by lia. done.
Qed.

Lemma shr_fexp_54 (q : positive) (e : Z) (l : location) :
  2 ^ 53 <= Zpos q < 2 ^ 54 -> -1075 <= e ->
  shr_fexp prec emax (Zpos q) e l = (shr_1 (shr_record_of_loc (Zpos q) l), e + 1).
Proof.
  intros Hq He. unfold shr_fexp.
  rewrite (Zdigits2_unique q 54) by done.
  rewrite fexp_normal by lia.
  replace (54 + e - 53 - e) with 1 by lia. done.
Qed.

(** The last step of a rounding: a mantissa of 53 bits stays, 2^53
    becomes 2^52 with the next exponent. *)
Lemma round_finish (sx : bool) (z : Z) (e : Z) :
  2 ^ 52 <= z <= 2 ^ 53 -> -1074 <= e <= 970 ->
  exists (mr : positive) (er : Z),
    (let '(mrs, e'') := shr_fexp prec emax z e loc_Exact in
     match shr_m mrs with
     | Z0 => S754_zero sx
     | Zpos m => if e'' <=? emax - prec then S754_finite sx m e''
                 else S754_infinity sx
     | Zneg _ => S754_nan
     end) = S754_finite sx mr er
    /\ ((er = e /\ Zpos mr = z) \/ (er = e + 1 /\ 2 * Zpos mr = z)).
Proof.
  intros Hz He. destruct z as [|q|q]; [lia| |lia].
  destruct (Z_lt_le_dec (Zpos q) (2 ^ 53)) as [Hlt|Hge].
  - rewrite shr_fexp_53 by (unfold normal; lia). cbn [shr_record_of_loc shr_m].
    exists q, e. split; [|by left].
    unfold emax, prec. destruct (Z.leb_spec e (1024 - 53)); [done|lia].
  - assert (Zpos q = 2 ^ 53) as Hq by lia.
    rewrite shr_fexp_54 by lia. cbn [shr_record_of_loc].
    injection Hq as ->. cbn [shr_1 shr_m].
    eexists _, (e + 1). split; [|right; split; [done|]; reflexivity].
    unfold emax, prec. destruct (Z.leb_spec (e + 1) (1024 - 53)); [done|lia].
Qed.

Lemma shr_m_record_of_loc (m : Z) (l : location) :
  shr_m (shr_record_of_loc m l) = m.
Proof. by destruct l as [|[]]. Qed.

(** Rounding up happens for a remainder of at least one half only. *)
Lemma round_up_loc (m : Z) (l : location) :
  round_nearest_even m l = m
  \/ (round_nearest_even m l = m + 1
      /\ (l = loc_Inexact Eq \/ l = loc_Inexact Gt)).
Proof.
  destruct l as [|[]]; cbn; auto. destruct (Z.even m); auto.
Qed.

(** Rounding a mantissa of 53 or 54 bits with a location: the mantissa m
    kept (of 53 bits), its exponent e, whether it is rounded up, and
    the float that results. *)
Lemma round_aux_loc (sx : bool) (q : positive) (e' : Z) (loc : location) :
  2 ^ 52 <= Zpos q < 2 ^ 54 -> -1074 <= e' <= 969 ->
  exists (mr : positive) (er m e up : Z),
    binary_round_aux prec emax sx (Zpos q) e' loc = S754_finite sx mr er
    /\ ((Zpos q < 2 ^ 53 /\ m = Zpos q /\ e = e'
         /\ (up = 1 -> loc = loc_Inexact Eq \/ loc = loc_Inexact Gt))
        \/ (2 ^ 53 <= Zpos q /\ m = Zpos q / 2 /\ e = e' + 1
            /\ (up = 1 -> Zpos q = 2 * m + 1)))
    /\ (up = 0 \/ up = 1)
    /\ 2 ^ 52 <= m < 2 ^ 53
    /\ ((er = e /\ Zpos mr = m + up) \/ (er = e + 1 /\ 2 * Zpos mr = m + up)).
Proof.
  intros Hq He. unfold binary_round_aux.
  destruct (Z_lt_le_dec (Zpos q) (2 ^ 53)) as [Hlt|Hge].
  - rewrite shr_fexp_53 by (unfold normal; lia).
    rewrite shr_m_record_of_loc, loc_of_record_of_loc.
    destruct (round_up_loc (Zpos q) loc) as [Hr|[Hr Hl]]; rewrite Hr.
    + destruct (round_finish sx (Zpos q) e') as (mr & er & -> & Hv); [lia|lia|].
      exists mr, er, (Zpos q), e', 0. split; [done|].
      split; [left; repeat split; lia|]. split; [by left|]. split; [lia|].
      rewrite Z.add_0_r. done.
    + destruct (round_finish sx (Zpos q + 1) e') as (mr & er & -> & Hv); [lia|lia|].
      exists mr, er, (Zpos q), e', 1. split; [done|].
      split; [left; repeat split; auto; lia|]. split; [by right|]. split; [lia|done].
  - rewrite shr_fexp_54 by lia.
    set (mrs := shr_1 (shr_record_of_loc (Zpos q) loc)).
    assert (shr_m mrs = Zpos q / 2
            /\ (shr_r mrs = true -> Zpos q = 2 * (Zpos q / 2) + 1)) as [Hm Hodd].
    { subst mrs. destruct q as [p|p|].
      - assert (Zpos p~1 / 2 = Zpos p) as ->
          by (symmetry; apply (Z.div_unique _ 2 (Zpos p) 1); lia).
        destruct loc as [|[]]; cbn [shr_record_of_loc shr_1 shr_m shr_r];
          split; intros; lia.
      - assert (Zpos p~0 / 2 = Zpos p) as ->
          by (symmetry; apply (Z.div_unique _ 2 (Zpos p) 0); lia).
        destruct loc as [|[]]; cbn [shr_record_of_loc shr_1 shr_m shr_r];
          split; intros; (done || lia).
      - lia. }
    assert (2 ^ 52 <= Zpos q / 2 < 2 ^ 53) as Hmb.
    { split; [apply Z.div_le_lower_bound; lia|apply Z.div_lt_upper_bound; lia]. }
    destruct (round_up_loc (shr_m mrs) (loc_of_shr_record mrs)) as [Hr|[Hr Hl]];
      rewrite Hr, Hm.
    + destruct (round_finish sx (Zpos q / 2) (e' + 1)) as (mr & er & -> & Hv); [lia|lia|].
      exists mr, er, (Zpos q / 2), (e' + 1), 0. split; [done|].
      split; [right; repeat split; lia|]. split; [by left|]. split; [lia|].
      rewrite Z.add_0_r. done.
    + destruct (round_finish sx (Zpos q / 2 + 1) (e' + 1)) as (mr & er & -> & Hv);
        [lia|lia|].
      exists mr, er, (Zpos q / 2), (e' + 1), 1. split; [done|].
      split; [|split; [by right|split; [lia|done]]].
      right. repeat split; [lia|]. intros _. apply Hodd.
      destruct mrs as [mm [] ss]; [done|]. by destruct ss, Hl.
Qed.

(** The location of a remainder r of a division by m2 is the middle or
    above only when 2 r is at least m2. *)
Lemma new_location_up (m2 r : Z) :
  0 <= r < m2 ->
  new_location m2 r = loc_Inexact Eq \/ new_location m2 r = loc_Inexact Gt ->
  m2 <= 2 * r.
Proof.
  intros Hr. unfold new_location, new_location_even, new_location_odd.
  destruct (Z.even m2); destruct (Z.eqb_spec r 0) as [->|Hne].
  - intros [|]; discriminate.
  - destruct (Z.compare_spec (2 * r) m2); intros [|]; try discriminate; lia.
  - intros [|]; discriminate.
  - destruct (Z.compare_spec (2 * r + 1) m2); intros [|]; try discriminate; lia.
Qed.

Lemma div_core (m1 m2 : positive) (k1 k2 : Z) :
  normal m1 -> normal m2 -> 0 <= k1 <= 52 -> 0 <= k2 <= 52 ->
  SFdiv_core_binary prec emax (Zpos m1) (- k1) (Zpos m2) (- k2)
  = ((Zpos m1 * 2 ^ 53) / Zpos m2, k2 - k1 - 53,
     new_location (Zpos m2) ((Zpos m1 * 2 ^ 53) mod Zpos m2)).
Proof.
  intros H1 H2 Hk1 Hk2. unfold SFdiv_core_binary.
  rewrite (Zdigits2_unique m1 53), (Zdigits2_unique m2 53) by done.
  replace (53 + - k1 - (53 + - k2)) with (k2 - k1) by lia.
  rewrite fexp_normal by lia.
  replace (Z.min (k2 - k1 - 53) (- k1 - - k2)) with (k2 - k1 - 53) by lia.
  replace (- k1 - - k2 - (k2 - k1 - 53)) with 53 by lia.
  rewrite Z.shiftl_mul_pow2 by lia.
  unfold Z.div, Z.modulo.
  destruct (Z.div_eucl (Zpos m1 * 2 ^ 53) (Zpos m2)) as [q r]. done.
Qed.

(** The integer part survives the rounding of a quotient of integers
    below 2^53: the quotient Q / G is a g / T, its floor m has 53 bits,
    and it is rounded up only from the middle on. *)
Lemma trunc_exact (a T g G Q m up : Z) :
  0 < a < 2 ^ 53 -> 0 < T -> 0 < g -> 0 < G ->
  Q * T = a * g * G -> m = Q / G -> 2 ^ 52 <= m ->
  (up = 0 \/ (up = 1 /\ (2 * m + 1) * G <= 2 * Q)) ->
  (m + up) / g = a / T.
Proof.
  intros Ha HT Hg HG HQ Hm Hm52 Hup.
  assert (m = (a * g) / T) as Hm'.
  { rewrite Hm. rewrite <- (Z.div_mul_cancel_r Q G T) by lia.
    rewrite HQ. rewrite (Z.mul_comm G T). apply Z.div_mul_cancel_r; lia. }
  assert (m / g = a / T) as H0.
  { rewrite Hm'. rewrite Z.div_div by lia. apply Z.div_mul_cancel_r; lia. }
  destruct Hup as [-> | [-> Hup]]; [by rewrite Z.add_0_r|].
  set (N := a / T) in *.
  symmetry. apply (Z.div_unique_pos _ _ _ (m mod g + 1)).
  2:{ pose proof (Z.div_mod m g ltac:(lia)). rewrite H0 in H. lia. }
  pose proof (Z.mod_pos_bound m g Hg) as Hmod.
  split; [lia|].
  destruct (Z_lt_le_dec (m mod g + 1) g) as [|Hge]; [done|exfalso].
  assert (m = g * N + (g - 1)) as Hmg.
  { pose proof (Z.div_mod m g ltac:(lia)) as E. rewrite H0 in E. lia. }
  pose proof (Z.div_mod a T ltac:(lia)) as Ea. fold N in Ea.
  pose proof (Z.mod_pos_bound a T HT) as Hrho.
  set (rho := a mod T) in *.
  assert (m * T <= a * g) as HmT.
  { rewrite Hm'. rewrite (Z.mul_comm _ T). apply Z.mul_div_le. lia. }
  assert ((2 * m + 1) * T <= 2 * (a * g)) as Hup'.
  { apply (Z.mul_le_mono_pos_r _ _ G); [lia|].
    replace ((2 * m + 1) * T * G) with ((2 * m + 1) * G * T) by ring.
    replace (2 * (a * g) * G) with (2 * (a * g * G)) by ring.
    rewrite <- HQ. nia. }
  assert (2 * g * (T - rho) <= T) as H1 by nia.
  assert (2 * g <= T) as H2 by nia.
  assert (2 ^ 52 * T <= m * T) as H3 by nia.
  assert (a * g < 2 ^ 53 * g) as H4 by nia.
  change (2 ^ 53) with (2 * 2 ^ 52) in H4.
  nia.
Qed.

(** [to_int] of a finite float. *)
Lemma to_int_finite (s : bool) (m : positive) (e : Z) :
  to_int (S754_finite s m e)
  = Some (if s then - Z.shiftl (Zpos m) e else Z.shiftl (Zpos m) e).
Proof. by destruct e. Qed.

(** The quotient of two floats that hold the integers a and T, cut to
    an integer, is the quotient of the integers. *)
Lemma div_to_int (s : bool) (m1 m2 a T : positive) (k1 k2 : Z) :
  Zpos m1 = Zpos a * 2 ^ k1 -> Zpos m2 = Zpos T * 2 ^ k2 ->
  normal m1 -> normal m2 -> 0 <= k1 <= 52 -> 0 <= k2 <= 52 ->
  to_int (SFdiv prec emax (S754_finite s m1 (- k1)) (S754_finite false m2 (- k2)))
  = Some (if s then - (Zpos a / Zpos T) else Zpos a / Zpos T).
Proof.
  intros H1 H2 Hn1 Hn2 Hk1 Hk2. cbn [SFdiv]. rewrite div_core by done.
  rewrite xorb_false_r.
  pose proof Hn1 as [L1 U1]. pose proof Hn2 as [L2 U2].
  set (Q := Zpos m1 * 2 ^ 53).
  assert (2 ^ 52 <= Q / Zpos m2 < 2 ^ 54) as Hq.
  { split.
    - apply Z.div_le_lower_bound; [lia|]. subst Q.
      change (2 ^ 53) with (2 * 2 ^ 52). nia.
    - apply Z.div_lt_upper_bound; [lia|]. subst Q.
      change (2 ^ 54) with (2 * 2 ^ 53). nia. }
  pose proof (Z.div_mod Q (Zpos m2) ltac:(lia)) as Hdm.
  pose proof (Z.mod_pos_bound Q (Zpos m2) ltac:(lia)) as Hr.
  destruct (Q / Zpos m2) as [|q|q] eqn:Eq; [lia| |lia].
  destruct (round_aux_loc s q (k2 - k1 - 53)
              (new_location (Zpos m2) (Q mod Zpos m2)) Hq ltac:(lia))
    as (mr & er & m & e & up & -> & Hcase & Hup01 & Hm & Hres).
  rewrite to_int_finite.
  assert (a_lt : Zpos a < 2 ^ 53).
  { assert (1 <= 2 ^ k1) by (apply Z.lt_pred_le, Z.pow_pos_nonneg; lia). nia. }
  assert (exists g G, 0 < g /\ 0 < G /\ e <= 0 /\ g = 2 ^ (- e)
            /\ Q * Zpos T = Zpos a * g * G /\ m = Q / G
            /\ (up = 0 \/ (up = 1 /\ (2 * m + 1) * G <= 2 * Q)))
    as (g & G & Hg & HG & He & Eg & HQ & HmQ & Hup).
  { assert (0 < 2 ^ k1) by (apply Z.pow_pos_nonneg; lia).
    assert (0 < 2 ^ k2) by (apply Z.pow_pos_nonneg; lia).
    destruct Hcase as [(Hlt & -> & -> & Hloc)|(Hge & -> & -> & Hodd)].
    - exists (2 ^ (- (k2 - k1 - 53))), (Zpos m2).
      assert (0 < 2 ^ (- (k2 - k1 - 53))) by (apply Z.pow_pos_nonneg; lia).
      split; [done|]. split; [lia|]. split; [lia|]. split; [done|].
      split; [|split; [by rewrite Eq|]].
      + subst Q. rewrite H1, H2.
        replace (- (k2 - k1 - 53)) with (k1 + 53 - k2) by lia.
        assert (2 ^ k1 * 2 ^ 53 = 2 ^ (k1 + 53 - k2) * 2 ^ k2) as E
          by (rewrite <- !Z.pow_add_r by lia; f_equal; lia).
        transitivity (Zpos a * Zpos T * (2 ^ k1 * 2 ^ 53)); [ring|].
        rewrite E. ring.
      + destruct Hup01 as [-> | ->]; [by left|right]. split; [done|].
        pose proof (new_location_up _ _ Hr (Hloc eq_refl)). lia.
    - exists (2 ^ (- (k2 - k1 - 53 + 1))), (Zpos m2 * 2).
      assert (0 < 2 ^ (- (k2 - k1 - 53 + 1))) by (apply Z.pow_pos_nonneg; lia).
      split; [done|]. split; [lia|]. split; [lia|]. split; [done|].
      split; [|split].
      + subst Q. rewrite H1, H2.
        replace (- (k2 - k1 - 53 + 1)) with (k1 + 52 - k2) by lia.
        assert (2 ^ k1 * 2 ^ 53 = 2 ^ (k1 + 52 - k2) * (2 ^ k2 * 2)) as E.
        { replace (2 ^ k2 * 2) with (2 ^ (k2 + 1))
            by (rewrite Z.pow_add_r by lia; done).
          rewrite <- !Z.pow_add_r by lia. f_equal; lia. }
        transitivity (Zpos a * Zpos T * (2 ^ k1 * 2 ^ 53)); [ring|].
        rewrite E. ring.
      + rewrite <- Z.div_div by lia. by rewrite Eq.
      + destruct Hup01 as [-> | ->]; [by left|right]. split; [done|].
        specialize (Hodd eq_refl). nia. }
  f_equal.
  assert (Z.shiftl (Zpos mr) er = (m + up) / g) as ->.
  { subst g. destruct Hres as [[-> Hv] | [-> Hv]].
    - rewrite Z.shiftl_div_pow2 by lia. by rewrite Hv.
    - destruct (Z.eq_dec e 0) as [-> | Hne].
      + rewrite Z.shiftl_mul_pow2 by lia.
        change (2 ^ (0 + 1)) with 2. change (2 ^ (- 0)) with 1.
        rewrite Z.div_1_r. lia.
      + rewrite Z.shiftl_div_pow2 by lia. rewrite <- Hv.
        replace (- e) with (1 + - (e + 1)) by lia.
        rewrite Z.pow_add_r by lia. change (2 ^ 1) with 2.
        rewrite Z.div_mul_cancel_l; [done| |lia].
        apply Z.pow_nonzero; lia. }
  rewrite (trunc_exact (Zpos a) (Zpos T) g G Q m up); try done; lia.
Qed.

(** The share of the excess space is computed exactly when the product
    of the excess and the stretch factor is below 2^53 in absolute value:
    it is the quotient of the integers, cut towards zero. *)
Lemma excessShare_exact (excessSpace stretch remaining : Z) :
  Z.abs (excessSpace * stretch) < 2 ^ 53 ->
  0 < stretch < 2 ^ 53 -> 0 < remaining < 2 ^ 53 ->
  excessShare excessSpace stretch remaining
  = Some (Z.quot (excessSpace * stretch) remaining).
Proof.
  intros HE Hs HT. unfold excessShare, of_int, mul, div.
  destruct stretch as [|ps|ps]; [lia| |lia].
  destruct remaining as [|pT|pT]; [lia| |lia].
  cbn [binary_normalize].
  destruct (of_int_pos false ps) as (m2 & k2 & -> & Hn2 & Hk2 & H2); [lia|].
  destruct (of_int_pos false pT) as (m4 & k4 & -> & Hn4 & Hk4 & H4); [lia|].
  destruct excessSpace as [|pE|pE].
  - done.
  - cbn [binary_normalize].
    destruct (of_int_pos false pE) as (m1 & k1 & -> & Hn1 & Hk1 & H1); [nia|].
    destruct (mul_exact false false m1 m2 pE ps k1 k2)
      as (m3 & k3 & -> & Hn3 & Hk3 & H3); try done; try lia.
    rewrite <- Pos2Z.inj_mul in H3.
    rewrite (div_to_int _ m3 m4 (pE * ps) pT k3 k4) by done.
    cbn [xorb]. f_equal. rewrite <- Pos2Z.inj_mul.
    symmetry. apply Z.quot_div_nonneg; lia.
  - cbn [binary_normalize].
    destruct (of_int_pos true pE) as (m1 & k1 & -> & Hn1 & Hk1 & H1); [nia|].
    destruct (mul_exact true false m1 m2 pE ps k1 k2)
      as (m3 & k3 & -> & Hn3 & Hk3 & H3); try done; try lia.
    rewrite <- Pos2Z.inj_mul in H3.
    rewrite (div_to_int _ m3 m4 (pE * ps) pT k3 k4) by done.
    cbn [xorb]. f_equal.
    change (Zneg pE * Zpos ps) with (- Zpos (pE * ps)).
    rewrite Z.quot_opp_l by lia. f_equal.
    symmetry. apply Z.quot_div_nonneg; lia.
Qed.

Lemma shiftl_scaled (n k : Z) (m : positive) :
  0 <= k -> Zpos m = n * 2 ^ k -> Z.shiftl (Zpos m) (- k) = n.
Proof.
  intros Hk H. rewrite Z.shiftl_div_pow2 by lia. rewrite Z.opp_involutive, H.
  apply Z.div_mul. apply Z.pow_nonzero; lia.
Qed.

(** An integer below 2^53 times 1.0, cut to an integer, is the integer. *)
Lemma mul_one_to_int (n : Z) :
  Z.abs n < 2 ^ 53 -> to_int (mul (of_int n) one) = Some n.
Proof.
  intros Hn. unfold mul, one, of_int.
  change (binary_normalize prec emax 1 0 false)
    with (binary_round prec emax false 1 0).
  destruct (of_int_pos false 1) as (m1 & k1 & -> & Hn1 & Hk1 & H1); [done|].
  destruct n as [|p|p].
  - done.
  - change (binary_normalize prec emax (Z.pos p) 0 false)
      with (binary_round prec emax false p 0).
    destruct (of_int_pos false p) as (m & k & -> & Hm & Hk & H); [lia|].
    destruct (mul_exact false false m m1 p 1 k k1) as (m3 & k3 & -> & Hm3 & Hk3 & H3);
      try done; [lia|].
    rewrite to_int_finite. cbn [xorb]. f_equal.
    apply shiftl_scaled; [lia|]. rewrite H3. lia.
  - change (binary_normalize prec emax (Z.neg p) 0 false)
      with (binary_round prec emax true p 0).
    destruct (of_int_pos true p) as (m & k & -> & Hm & Hk & H); [lia|].
    destruct (mul_exact true false m m1 p 1 k k1) as (m3 & k3 & -> & Hm3 & Hk3 & H3);
      try done; [lia|].
    rewrite to_int_finite. cbn [xorb]. f_equal.
    rewrite (shiftl_scaled (Zpos p) k3 m3); [lia|lia|]. rewrite H3. lia.
Qed.

End Float64Facts.


(** ** ImageView *)

Section ImageViewFacts.
Import ImageView.

(** C9: in shrink mode, a 200x100 image in a 100x100 client area with
    margin 0 at 96 dpi is scaled by min(100/200, 100/100) = 0.5 and drawn
    stretched in the 100x50 rectangle at X = 0, Y = 25, which centres it
    in both directions. *)
Theorem drawImage_shrink_200x100
    (IntFrom96DPI : Z -> Z -> Z) (SizeFrom96DPI : Size -> Z -> SizePixels)
    (x y : Pixel) :
  IntFrom96DPI 0 96 = 0 ->
  SizeFrom96DPI {| sWidth := 200; sHeight := 100 |} 96
    = {| Width := 200; Height := 100 |} ->
  imageScale ImageViewModeShrink 100 100 {| Width := 200; Height := 100 |}
    = one_half
  /\ Float64.div (Float64.of_int 100) (Float64.of_int 200) = one_half
  /\ Float64.div (Float64.of_int 100) (Float64.of_int 100) = Float64.one
  /\ drawImage IntFrom96DPI SizeFrom96DPI (shrink_example x y)
     = Some [DrawImageStretchedPixels
               {| rX := 0; rY := 25; rWidth := 100; rHeight := 50 |}].
Proof.
  intros Hm Hs.
  split; [vm_compute; reflexivity|].
  split; [vm_compute; reflexivity|].
  split; [vm_compute; reflexivity|].
  unfold drawImage, shrink_example;
    cbn [image margin96dpi mode DPI ClientBoundsPixels rWidth rHeight].
  rewrite Hm, Hs. vm_compute. reflexivity.
Qed.

Lemma drawImage_shrink_200x100_witness :
  ImageView.linearFrom96DPI 0 96 = 0
  /\ drawImage ImageView.linearFrom96DPI linearSizeFrom96DPI (shrink_example 0 0)
     = Some [DrawImageStretchedPixels
               {| rX := 0; rY := 25; rWidth := 100; rHeight := 50 |}].
Proof.
  split; [reflexivity|].
  apply (drawImage_shrink_200x100 ImageView.linearFrom96DPI linearSizeFrom96DPI 0 0);
    reflexivity.
Defined.

Section ShrinkFacts.
Variable IntFrom96DPI : Z -> Z -> Z.
Variable SizeFrom96DPI : Size -> Z -> SizePixels.

(** X23: in shrink mode an image that fits between the margins (its
    size in pixels is at most the client size less the margins) is drawn
    at its own size, not scaled, and centred: the rectangle lies between
    the margins. *)
Theorem drawImage_shrink_fits (iv : ImageView) (img : Size) :
  image iv = Some img -> mode iv = ImageViewModeShrink ->
  let margin := IntFrom96DPI (margin96dpi iv) (DPI iv) in
  let cbW := rWidth (ClientBoundsPixels iv) - margin * 2 in
  let cbH := rHeight (ClientBoundsPixels iv) - margin * 2 in
  let s := SizeFrom96DPI img (DPI iv) in
  0 <= Width s <= cbW -> 0 <= Height s <= cbH ->
  Width s < 2 ^ 53 -> Height s < 2 ^ 53 ->
  exists b,
    drawImage IntFrom96DPI SizeFrom96DPI iv = Some [DrawImageStretchedPixels b]
    /\ rWidth b = Width s /\ rHeight b = Height s
    /\ rX b = margin + Z.quot (cbW - Width s) 2
    /\ rY b = margin + Z.quot (cbH - Height s) 2
    /\ margin <= rX b /\ rX b + rWidth b <= margin + cbW
    /\ margin <= rY b /\ rY b + rHeight b <= margin + cbH.
Proof.
  intros Himg Hmode margin cbW cbH s HW HH HW53 HH53.
  unfold drawImage. rewrite Himg, Hmode. cbn zeta.
  fold margin. fold cbW. fold cbH. fold s.
  unfold stretchedBounds, imageScale. cbn [orb].
  destruct (Z.gtb_spec (Width s) cbW) as [|_]; [lia|].
  destruct (Z.gtb_spec (Height s) cbH) as [|_]; [lia|]. cbn [orb].
  rewrite !mul_one_to_int by lia. cbn [mbind option_bind].
  eexists. split; [reflexivity|]. cbn [rX rY rWidth rHeight].
  repeat (split; [reflexivity|]).
  pose proof (Z.quot_pos (cbW - Width s) 2).
  pose proof (Z.quot_pos (cbH - Height s) 2).
  assert (Z.quot (cbW - Width s) 2 <= cbW - Width s)
    by (apply Z.quot_le_upper_bound; lia).
  assert (Z.quot (cbH - Height s) 2 <= cbH - Height s)
    by (apply Z.quot_le_upper_bound; lia).
  lia.
Qed.

End ShrinkFacts.

Lemma drawImage_shrink_fits_witness :
  exists b,
    drawImage linearFrom96DPI linearSizeFrom96DPI
      {| image := Some {| sWidth := 40; sHeight := 20 |};
         margin96dpi := 5; mode := ImageViewModeShrink;
         ClientBoundsPixels := {| rX := 0; rY := 0; rWidth := 110; rHeight := 60 |};
         DPI := 96 |}
    = Some [DrawImageStretchedPixels b]
    /\ b = {| rX := 35; rY := 20; rWidth := 40; rHeight := 20 |}.
Proof.
  destruct (drawImage_shrink_fits linearFrom96DPI linearSizeFrom96DPI
              {| image := Some {| sWidth := 40; sHeight := 20 |};
                 margin96dpi := 5; mode := ImageViewModeShrink;
                 ClientBoundsPixels :=
                   {| rX := 0; rY := 0; rWidth := 110; rHeight := 60 |};
                 DPI := 96 |}
              {| sWidth := 40; sHeight := 20 |} eq_refl eq_refl)
    as (b & Hd & Hw & Hh & Hx & Hy & _); try (vm_compute; done).
  exists b. split; [exact Hd|].
  destruct b as [x y w h]. cbn in Hw, Hh, Hx, Hy. subst. reflexivity.
Defined.

End ImageViewFacts.

(** ** GridLayout *)

Section GridLayoutFacts.
Import Slice GridLayout.

(** C10: for a negative index both stretch-factor getters return -1,
    which is neither the default 1 nor a valid stretch factor (these are
    at least 1). *)
Theorem StretchFactor_negative_index (l : GridLayout) (i : Z) :
  i < 0 ->
  RowStretchFactor l i = -1 /\ ColumnStretchFactor l i = -1 /\ -1 < 1.
Proof.
  intros Hi. unfold RowStretchFactor, ColumnStretchFactor.
  assert ((i <? 0) = true) as -> by lia. repeat split; lia.
Qed.

Lemma StretchFactor_negative_index_witness :
  RowStretchFactor exampleLayout (-3) = -1
  /\ ColumnStretchFactor exampleLayout (-3) = -1 /\ -1 < 1.
Proof. apply (StretchFactor_negative_index exampleLayout (-3)). lia. Defined.

(** C6: [SetRange] returns an error when the widget is nil, the
    container is nil, the widget is not a child of the container, X or Y
    is negative, or Width or Height is below 1; the layout it leaves is
    the layout it was given. *)
Theorem SetRange_invalid_unchanged (l : GridLayout) (widget : option Widget)
    (r : RectangleGrid) :
  invalidRange l widget r ->
  exists msg, SetRange l widget r = Some (Some msg, l).
Proof.
  unfold invalidRange, SetRange, fail, containsHandle.
  intros H.
  destruct widget as [w|]; [|eauto].
  destruct (container l) as [c|] eqn:Hc; [|eauto].
  destruct (bool_decide (Handle w ∈ Children c)) eqn:Hin; cbn [negb]; [|eauto].
  apply bool_decide_eq_true in Hin.
  destruct (gX r <? 0) eqn:HX; [cbn; eauto|].
  destruct (gY r <? 0) eqn:HY; [cbn; eauto|].
  destruct (gWidth r <? 1) eqn:HW; [cbn; eauto|].
  destruct (gHeight r <? 1) eqn:HH; [cbn; eauto|].
  exfalso.
  destruct H as [H|[H|[(w' & c' & Hw & Hc' & Hn)|H]]]; try discriminate.
  - simplify_eq. contradiction.
  - lia.
Qed.

Lemma SetRange_invalid_unchanged_witness :
  exists msg,
    SetRange exampleLayout (Some (exampleWidget 7))
             {| gX := 0; gY := 0; gWidth := 1; gHeight := 1 |}
    = Some (Some msg, exampleLayout).
Proof.
  apply SetRange_invalid_unchanged. unfold invalidRange.
  right. right. left. exists (exampleWidget 7), exampleContainer.
  repeat split. cbn. intros H.
  repeat (apply elem_of_cons in H as [H|H]; [discriminate|]).
  by apply elem_of_nil in H.
Defined.

(** X8: [SetRange] returns an error for such arguments only, and then
    leaves the layout as it was. *)
Lemma SetRange_error_invalid (l l' : GridLayout) (widget : option Widget)
    (r : RectangleGrid) (msg : string) :
  SetRange l widget r = Some (Some msg, l') ->
  invalidRange l widget r /\ l' = l.
Proof.
  unfold invalidRange, SetRange, fail, succeed, containsHandle.
  destruct widget as [w|]; [|intros; simplify_eq; auto].
  destruct (container l) as [c|] eqn:Hc; [|intros; simplify_eq; auto].
  destruct (bool_decide (Handle w ∈ Children c)) eqn:Hin; cbn [negb].
  2:{ apply bool_decide_eq_false in Hin. intros; simplify_eq.
      split; [|done]. right; right; left. eauto. }
  destruct (gX r <? 0) eqn:HX; [cbn; intros; simplify_eq; split; [lia|done]|].
  destruct (gY r <? 0) eqn:HY; [cbn; intros; simplify_eq; split; [lia|done]|].
  destruct (gWidth r <? 1) eqn:HW; [cbn; intros; simplify_eq; split; [lia|done]|].
  destruct (gHeight r <? 1) eqn:HH; [cbn; intros; simplify_eq; split; [lia|done]|].
  cbn. intros H.
  repeat (match type of H with
          | (mbind _ ?x) = _ => destruct x; cbn in H; [|discriminate]
          | (?x ≫= _) = _ => destruct x; cbn in H; [|discriminate]
          end).
  discriminate.
Qed.

Local Open Scope string_scope.
Lemma SetRange_error_invalid_witness :
  invalidRange exampleLayout (Some (exampleWidget 1))
               {| gX := 0; gY := 0; gWidth := 0; gHeight := 1 |}.
Proof.
  apply (SetRange_error_invalid exampleLayout exampleLayout (Some (exampleWidget 1))
           {| gX := 0; gY := 0; gWidth := 0; gHeight := 1 |}
           "range.Width and range.Height must be >= 1").
  reflexivity.
Defined.
Local Close Scope string_scope.


(** *** Growing the grid *)

Lemma fillOnes_fold (n : nat) : forall (a : nat) (s : slice Z),
  (a + n <= length (arr s))%nat ->
  foldl (fun s i => mk (<[i := 1]> (arr s)) (len s)) s (seq a n)
  = mk (take a (arr s) ++ replicate n 1 ++ drop (a + n) (arr s)) (len s).
Proof.
  induction n as [|n IH]; intros a s Hle.
  - cbn. rewrite Nat.add_0_r, take_drop. by destruct s.
  - cbn [seq foldl]. rewrite IH by (cbn; rewrite length_insert; lia).
    cbn [arr len]. f_equal.
    destruct (lookup_lt_is_Some_2 (arr s) a) as [x Hx]; [lia|].
    rewrite (take_S_r _ _ 1) by (rewrite list_lookup_insert_eq; [done|lia]).
    rewrite take_insert_ge by lia.
    rewrite drop_insert_lt by lia.
    rewrite <- app_assoc. replace (a + S n)%nat with (S a + n)%nat by lia. done.
Qed.

Lemma sufficientStretchFactors_spec (sf : slice Z) (required : Z) :
  Slice.wf sf ->
  let sf' := sufficientStretchFactors sf required in
  Slice.wf sf'
  /\ len sf' = Nat.max (len sf) (Z.to_nat required)
  /\ elems sf' = elems sf ++ replicate (len sf' - len sf) 1.
Proof.
  unfold sufficientStretchFactors, Slice.wf, elems, cap. intros Hwf.
  destruct (Z.ltb_spec (Z.of_nat (len sf)) required) as [Hlt|Hge]; cbn zeta.
  2:{ split; [done|]. split; [lia|]. by rewrite Nat.sub_diag, app_nil_r. }
  unfold fillOnes.
  match goal with |- context [foldl _ ?g _] => set (grown := g) end.
  assert (len grown = Z.to_nat required /\ (len grown <= length (arr grown))%nat
          /\ take (len sf) (arr grown) = take (len sf) (arr sf)) as (Hlen & Hcap & Htake).
  { subst grown. destruct (Z.ltb_spec (Z.of_nat (length (arr sf))) required) as [Hc|Hc].
    - unfold copy, make; cbn [arr len].
      assert (Z.to_nat required <= Z.to_nat (maxi required (Z.of_nat (len sf) * 2)))%nat
        by (unfold maxi; destruct (Z.gtb_spec required (Z.of_nat (len sf) * 2)); lia).
      rewrite Nat.min_r by lia.
      split; [done|]. split.
      + rewrite length_app, length_take, length_drop, length_replicate. lia.
      + rewrite take_app_le by (rewrite length_take; lia).
        rewrite take_take. f_equal. lia.
    - cbn [arr len]. split; [done|]. split; [lia|done]. }
  rewrite fillOnes_fold by lia.
  cbn [arr len]. rewrite Hlen.
  split; [|split].
  - rewrite !length_app, length_take, length_replicate, length_drop. lia.
  - lia.
  - rewrite Htake. rewrite take_app_ge by (rewrite length_take; lia).
    rewrite length_take. rewrite Nat.min_l by lia.
    rewrite take_app_ge by (rewrite length_replicate; lia).
    rewrite length_replicate.
    replace (Z.to_nat required - len sf - (Z.to_nat required - len sf))%nat with 0%nat by lia.
    rewrite take_0, app_nil_r. done.
Qed.

Lemma elems_lookup_Some {A} (s : slice A) (i : nat) (x : A) :
  elems s !! i = Some x <-> arr s !! i = Some x /\ (i < len s)%nat.
Proof. unfold elems. apply lookup_take_Some. Qed.

Lemma get_elems {A} (s : slice A) (i : Z) :
  get s i = if decide (0 <= i) then elems s !! Z.to_nat i else None.
Proof.
  unfold get, elems. destruct (decide (0 <= i)).
  - destruct (decide (0 <= i < Z.of_nat (len s))).
    + by rewrite lookup_take_lt by lia.
    + by rewrite lookup_take_ge by lia.
  - destruct (decide (0 <= i < Z.of_nat (len s))); [lia|done].
Qed.

Lemma get_Some_elems {A} (s : slice A) (i : Z) (x : A) :
  get s i = Some x <-> 0 <= i /\ elems s !! Z.to_nat i = Some x.
Proof.
  rewrite get_elems. destruct (decide (0 <= i)); [tauto|].
  split; [done|]. intros [? _]. lia.
Qed.

Lemma length_elems {A} (s : slice A) : Slice.wf s -> length (elems s) = len s.
Proof. unfold Slice.wf, cap, elems. intros. rewrite length_take. lia. Qed.

Lemma extends_trans cs1 cs2 cs3 : extends cs1 cs2 -> extends cs2 cs3 -> extends cs1 cs3.
Proof.
  intros H12 H23 i r Hr. destruct (H12 i r Hr) as (r2 & Hr2 & Hp2).
  destruct (H23 i r2 Hr2) as (r3 & Hr3 & Hp3). exists r3. split; [done|].
  by etrans.
Qed.

Lemma growRows_spec (rsf : slice Z) (cs : slice (slice gridLayoutCell)) :
  Slice.wf rsf -> Slice.wf cs -> Forall Slice.wf (arr cs) ->
  exists cs', growRows rsf cs = Some cs'
    /\ Slice.wf cs' /\ Forall Slice.wf (arr cs')
    /\ len cs' = Nat.max (len cs) (len rsf)
    /\ extends cs cs'.
Proof.
  unfold growRows, Slice.wf, cap. intros Hr Hc Hrows.
  destruct (Nat.ltb_spec (len cs) (len rsf)) as [Hlt|Hge].
  2:{ exists cs. repeat split; try done; try lia. intros i r ?. eauto. }
  destruct (Nat.ltb_spec (length (arr cs)) (length (arr rsf))) as [Hcap|Hcap].
  - eexists. split; [done|]. unfold copy, make; cbn [arr len].
    rewrite Nat.min_r by lia.
    split; [|split; [|split]].
    + rewrite length_app, length_take, length_drop, length_replicate. lia.
    + apply Forall_app. split.
      * by apply Forall_take.
      * apply Forall_drop, Forall_replicate. unfold nil. cbn. lia.
    + lia.
    + intros i r Hi. exists r. split; [|done].
      apply elems_lookup_Some in Hi as [Hi Hlen].
      apply elems_lookup_Some. cbn [arr len]. split; [|lia].
      rewrite lookup_app_l by (rewrite length_take; lia).
      by rewrite lookup_take_lt.
  - unfold reslice, cap. rewrite decide_True by lia.
    eexists. split; [done|]. cbn [arr len].
    repeat split; try done; try lia.
    intros i r Hi. exists r. split; [|done].
    apply elems_lookup_Some in Hi as [Hi Hlen].
    apply elems_lookup_Some. cbn [arr len]. split; [done|lia].
Qed.

Lemma growRow_spec (csf : slice Z) (r : slice gridLayoutCell) :
  Slice.wf csf -> Slice.wf r ->
  exists r', growRow csf r = Some r'
    /\ Slice.wf r' /\ len r' = Nat.max (len r) (len csf)
    /\ elems r `prefix_of` elems r'.
Proof.
  unfold growRow, Slice.wf, cap. intros Hc Hr.
  destruct (Nat.ltb_spec (len r) (len csf)) as [Hlt|Hge].
  2:{ exists r. repeat split; try done; lia. }
  destruct (Nat.ltb_spec (length (arr r)) (length (arr csf))) as [Hcap|Hcap].
  - eexists. split; [done|]. unfold copy, make, elems; cbn [arr len].
    rewrite Nat.min_r by lia.
    split; [|split].
    + rewrite length_app, length_take, length_drop, length_replicate. lia.
    + lia.
    + rewrite take_app_ge by (rewrite length_take; lia).
      by apply prefix_app_r.
  - unfold reslice, cap. rewrite decide_True by lia.
    eexists. split; [done|]. unfold elems; cbn [arr len].
    split; [lia|]. split; [lia|].
    replace (len csf) with (len r + (len csf - len r))%nat by lia.
    rewrite <- take_take_drop. by apply prefix_app_r.
Qed.

Lemma mapM_growRow (csf : slice Z) (rows : list (slice gridLayoutCell)) :
  Slice.wf csf -> Forall Slice.wf rows ->
  exists rows', mapM (growRow csf) rows = Some rows'
    /\ Forall2 (fun r r' => Slice.wf r' /\ len r' = Nat.max (len r) (len csf)
                            /\ elems r `prefix_of` elems r') rows rows'.
Proof.
  intros Hc. induction 1 as [|r rows Hr Hrows IH].
  - exists []. split; [done|constructor].
  - destruct IH as (rows' & Hm & HF).
    destruct (growRow_spec csf r Hc Hr) as (r' & Hg & Hs).
    exists (r' :: rows'). split.
    + apply mapM_Some. constructor; [done|]. by apply mapM_Some.
    + by constructor.
Qed.

Lemma growColumns_spec (csf : slice Z) (cs : slice (slice gridLayoutCell)) :
  Slice.wf csf -> Slice.wf cs -> Forall Slice.wf (arr cs) ->
  exists cs', growColumns csf cs = Some cs'
    /\ Slice.wf cs' /\ Forall Slice.wf (arr cs')
    /\ len cs' = len cs
    /\ extends cs cs'
    /\ Forall (fun r' => (len csf <= len r')%nat) (elems cs').
Proof.
  intros Hc Hcs Hrows. unfold growColumns.
  destruct (mapM_growRow csf (elems cs) Hc) as (rows' & Hm & HF).
  { unfold elems. by apply Forall_take. }
  rewrite Hm. cbn. eexists. split; [done|].
  pose proof (Forall2_length _ _ _ HF) as Hlen.
  rewrite length_elems in Hlen by done.
  unfold Slice.wf, cap in *. cbn [arr len].
  split; [|split; [|split; [|split]]].
  - rewrite length_app, length_drop. lia.
  - apply Forall_app. split; [|by apply Forall_drop].
    eapply Forall2_Forall_r; [exact HF|]. apply Forall_true.
    by intros ? ? (? & _).
  - done.
  - intros i r Hi.
    destruct (Forall2_lookup_l _ _ _ _ _ HF Hi) as (r' & Hr' & _ & _ & Hp).
    exists r'. split; [|done]. apply elems_lookup_Some. cbn [arr len].
    apply lookup_lt_Some in Hr' as Hlt. split; [|lia].
    by rewrite lookup_app_l.
  - unfold elems; cbn [arr len]. rewrite take_app_ge by lia.
    replace (len cs - length rows')%nat with 0%nat by lia.
    rewrite take_0, app_nil_r.
    eapply Forall2_Forall_r; [exact HF|]. apply Forall_true.
    intros r r' (_ & -> & _). lia.
Qed.

Lemma extends_cell cs cs' (i j : nat) r c :
  extends cs cs' -> elems cs !! i = Some r -> elems r !! j = Some c ->
  exists r', elems cs' !! i = Some r' /\ elems r' !! j = Some c.
Proof.
  intros He Hr Hc. destruct (He i r Hr) as (r' & Hr' & Hp).
  exists r'. split; [done|]. by eapply prefix_lookup_Some.
Qed.

Lemma refreshCell_id cs (info : gridLayoutWidgetInfo) p r c :
  cell info = Some p -> elems cs !! p.1 = Some r -> elems r !! p.2 = Some c ->
  row c = Z.of_nat p.1 -> column c = Z.of_nat p.2 ->
  refreshCell cs info = Some info.
Proof.
  intros Hp Hr Hc Hrow Hcol. unfold refreshCell, derefCell, cellAddr.
  rewrite Hp. cbn.
  apply elems_lookup_Some in Hr as Hr'. destruct Hr' as [Hr' ?].
  apply elems_lookup_Some in Hc as Hc'. destruct Hc' as [Hc' ?].
  rewrite Hr'. cbn. rewrite Hc'. cbn.
  rewrite Hrow, Hcol.
  rewrite (proj2 (get_Some_elems cs (Z.of_nat p.1) r)) by (rewrite Nat2Z.id; split; [lia|done]).
  cbn.
  rewrite (proj2 (get_Some_elems r (Z.of_nat p.2) c)) by (rewrite Nat2Z.id; split; [lia|done]).
  cbn. rewrite !Nat2Z.id. destruct info, p; cbn in *. by subst.
Qed.

Lemma omap_Some_id `{Countable K} {A} (f : A -> option A) (m : gmap K A) :
  map_Forall (fun _ x => f x = Some x) m -> omap f m = m.
Proof.
  intros Hall. apply map_eq. intros k. rewrite lookup_omap.
  destruct (m !! k) as [x|] eqn:Hk; [|done]. cbn. by apply (Hall k).
Qed.

(** *** Changing cells *)

Lemma get_Some_bounds {A} (s : slice A) (i : Z) (x : A) :
  get s i = Some x -> 0 <= i < Z.of_nat (len s) /\ arr s !! Z.to_nat i = Some x.
Proof. unfold get. by destruct (decide _). Qed.

Lemma get_is_Some {A} (s : slice A) (i : Z) :
  Slice.wf s -> 0 <= i < Z.of_nat (len s) -> is_Some (get s i).
Proof.
  unfold Slice.wf, cap, get. intros Hwf Hi. rewrite decide_True by done.
  apply lookup_lt_is_Some. lia.
Qed.

Lemma set_spec {A} (s : slice A) (i : Z) (x : A) :
  Slice.wf s -> 0 <= i < Z.of_nat (len s) ->
  exists s', set s i x = Some s' /\ Slice.wf s' /\ len s' = len s
    /\ arr s' = <[Z.to_nat i := x]> (arr s)
    /\ forall k, get s' k = if decide (k = i) then Some x else get s k.
Proof.
  unfold Slice.wf, cap, set. intros Hwf Hi. rewrite decide_True by done.
  eexists. split; [done|]. cbn [arr len]. rewrite length_insert.
  split; [done|]. split; [done|]. split; [done|].
  intros k. unfold get; cbn [arr len].
  destruct (decide (0 <= k < Z.of_nat (len s))) as [Hk|Hk].
  - destruct (decide (k = i)) as [->|Hne].
    + rewrite list_lookup_insert_eq; [done|lia].
    + rewrite list_lookup_insert_ne; [done|lia].
  - destruct (decide (k = i)); [lia|done].
Qed.

Lemma setCell_spec (g : gridLayoutCell -> gridLayoutCell)
    (cs : slice (slice gridLayoutCell)) (i j : Z) :
  gridOk cs -> is_Some (cellIn cs i j) ->
  exists cs',
    (r ← get cs i; c ← get r j; r' ← set r j (g c); set cs i r') = Some cs'
    /\ updated (fun i' j' => (i' =? i) && (j' =? j)) g cs cs'.
Proof.
  intros [Hwf Hrows] [c Hc]. unfold cellIn in Hc.
  destruct (get cs i) as [r|] eqn:Hr; [|done]. cbn in Hc |- *. rewrite Hc. cbn.
  apply get_Some_bounds in Hr as Hr'. destruct Hr' as [Hi Hri].
  apply get_Some_bounds in Hc as Hc'. destruct Hc' as [Hj Hcj].
  assert (Slice.wf r) as Hwr.
  { rewrite Forall_forall in Hrows. apply Hrows. by eapply list_elem_of_lookup_2. }
  destruct (set_spec r j (g c) Hwr Hj) as (r' & -> & Hwr' & Hlen' & _ & Hget'). cbn.
  destruct (set_spec cs i r' Hwf Hi) as (cs' & -> & Hwf' & Hlen & Harr & Hget).
  exists cs'. split; [done|]. split; [|split; [done|]].
  - split; [done|]. rewrite Harr. by apply Forall_insert.
  - intros i' j'. unfold cellIn. rewrite Hget.
    destruct (decide (i' = i)) as [->|Hne].
    + rewrite Z.eqb_refl, Hr. cbn. rewrite Hget'.
      destruct (decide (j' = j)) as [->|Hnj].
      * by rewrite Z.eqb_refl, Hc.
      * rewrite (proj2 (Z.eqb_neq j' j)) by done. by destruct (get r j').
    + rewrite (proj2 (Z.eqb_neq i' i)) by done. cbn.
      destruct (get cs i') as [r0|]; [|done]. cbn. by destruct (get r0 j').
Qed.

Lemma updated_refl f cs : gridOk cs -> updated (fun _ _ => false) f cs cs.
Proof.
  intros Hok. split; [done|]. split; [done|]. intros i j. by destruct (cellIn cs i j).
Qed.

Lemma updated_trans P Q f a b c :
  (forall x, f (f x) = f x) ->
  updated P f a b -> updated Q f b c ->
  updated (fun i j => P i j || Q i j) f a c.
Proof.
  intros Hf (_ & Hl1 & H1) (Hok & Hl2 & H2). split; [done|]. split; [congruence|].
  intros i j. rewrite H2, H1. destruct (cellIn a i j) as [x|]; [|done]. cbn.
  destruct (P i j), (Q i j); cbn; by rewrite ?Hf.
Qed.

Lemma updated_ext P Q f a b :
  (forall i j, P i j = Q i j) -> updated P f a b -> updated Q f a b.
Proof.
  intros HPQ (Hok & Hl & H). split; [done|]. split; [done|].
  intros i j. by rewrite H, HPQ.
Qed.

Lemma updated_is_Some P f a b i j :
  updated P f a b -> is_Some (cellIn a i j) -> is_Some (cellIn b i j).
Proof. intros (_ & _ & H) [x Hx]. rewrite H, Hx. by eexists. Qed.

Lemma updated_outside P f a b i j :
  updated P f a b -> P i j = false -> cellIn b i j = cellIn a i j.
Proof. intros (_ & _ & H) HP. rewrite H, HP. by destruct (cellIn a i j). Qed.

Lemma updated_gridOk P f a b : updated P f a b -> gridOk b.
Proof. by intros (? & _). Qed.

Lemma withWidget_idemp wb c : withWidget wb (withWidget wb c) = withWidget wb c.
Proof. done. Qed.

(** One row of [setWidgetOnCells]. *)
Lemma setWidgetOnRow_spec wb (i : Z) (js : list Z) : forall cs,
  gridOk cs -> (forall j, j ∈ js -> is_Some (cellIn cs i j)) ->
  exists cs',
    foldl (fun acc col => cs' ← acc; setCellWidget wb cs' i col) (Some cs) js
    = Some cs'
    /\ updated (fun i' j' => (i' =? i) && bool_decide (j' ∈ js))
               (withWidget wb) cs cs'.
Proof.
  induction js as [|j js IH]; intros cs Hok Hin.
  - exists cs. split; [done|].
    eapply updated_ext; [|by apply updated_refl].
    intros i' j'. rewrite bool_decide_eq_false_2 by apply not_elem_of_nil.
    by rewrite andb_false_r.
  - cbn [foldl mbind option_bind].
    destruct (setCell_spec (withWidget wb) cs i j Hok) as (cs1 & Hs & Hu1).
    { apply Hin. left. }
    change (setCellWidget wb cs i j = Some cs1) in Hs. rewrite Hs.
    destruct (IH cs1) as (cs2 & Hf & Hu2).
    { by eapply updated_gridOk. }
    { intros j' Hj'. eapply updated_is_Some; [done|]. apply Hin. by right. }
    exists cs2. split; [done|].
    eapply updated_ext; [|exact (updated_trans _ _ _ _ _ _ (withWidget_idemp wb) Hu1 Hu2)].
    intros i' j'. cbn beta.
    destruct (Z.eqb_spec i' i) as [->|]; cbn; [|done].
    destruct (Z.eqb_spec j' j) as [->|Hne]; cbn.
    + by rewrite bool_decide_eq_true_2 by left.
    + apply bool_decide_ext. rewrite elem_of_cons. tauto.
Qed.

Lemma setWidgetOnRows_spec wb (js : list Z) (rows : list Z) : forall cs,
  gridOk cs ->
  (forall i j, i ∈ rows -> j ∈ js -> is_Some (cellIn cs i j)) ->
  exists cs',
    foldl (fun acc row =>
             foldl (fun acc col => cs' ← acc; setCellWidget wb cs' row col) acc js)
          (Some cs) rows
    = Some cs'
    /\ updated (fun i' j' => bool_decide (i' ∈ rows) && bool_decide (j' ∈ js))
               (withWidget wb) cs cs'.
Proof.
  induction rows as [|i rows IH]; intros cs Hok Hin.
  - exists cs. split; [done|].
    eapply updated_ext; [|by apply updated_refl].
    intros i' j'. by rewrite bool_decide_eq_false_2 by apply not_elem_of_nil.
  - cbn [foldl].
    destruct (setWidgetOnRow_spec wb i js cs Hok) as (cs1 & Hs & Hu1).
    { intros j Hj. apply Hin; [left|done]. }
    rewrite Hs.
    destruct (IH cs1) as (cs2 & Hf & Hu2).
    { by eapply updated_gridOk. }
    { intros i' j' Hi' Hj'. eapply updated_is_Some; [done|]. apply Hin; [by right|done]. }
    exists cs2. split; [done|].
    eapply updated_ext; [|exact (updated_trans _ _ _ _ _ _ (withWidget_idemp wb) Hu1 Hu2)].
    intros i' j'. cbn beta.
    destruct (bool_decide (j' ∈ js)); [|by rewrite !andb_false_r].
    rewrite !andb_true_r.
    destruct (Z.eqb_spec i' i) as [->|Hne]; cbn.
    + by rewrite bool_decide_eq_true_2 by left.
    + apply bool_decide_ext. rewrite elem_of_cons. tauto.
Qed.

Lemma elem_of_zrange (lo hi k : Z) : k ∈ zrange lo hi <-> lo <= k < hi.
Proof.
  unfold zrange. rewrite list_elem_of_fmap. split.
  - intros (n & -> & Hn). apply elem_of_seq in Hn. lia.
  - intros Hk. exists (Z.to_nat (k - lo)). split; [lia|]. apply elem_of_seq. lia.
Qed.

Lemma setWidgetOnCells_spec cs (widget : option Widget) (r : RectangleGrid) :
  gridOk cs ->
  (forall i j, inRange r i j = true -> is_Some (cellIn cs i j)) ->
  exists cs', setWidgetOnCells cs widget r = Some cs'
    /\ updated (inRange r) (withWidget (AsWidgetBase <$> widget)) cs cs'.
Proof.
  intros Hok Hin. unfold setWidgetOnCells. cbn zeta.
  destruct (setWidgetOnRows_spec (AsWidgetBase <$> widget)
              (zrange (gX r) (gX r + gWidth r)) (zrange (gY r) (gY r + gHeight r))
              cs Hok) as (cs' & Hs & Hu).
  { intros i j Hi%elem_of_zrange Hj%elem_of_zrange. apply Hin.
    unfold inRange. repeat (apply andb_true_intro; split); lia. }
  exists cs'. split; [exact Hs|].
  eapply updated_ext; [|exact Hu].
  intros i j. cbn beta. unfold inRange.
  destruct (Z.leb_spec (gY r) i), (Z.ltb_spec i (gY r + gHeight r)),
    (Z.leb_spec (gX r) j), (Z.ltb_spec j (gX r + gWidth r)); cbn;
    repeat match goal with
    | |- context [bool_decide (?k ∈ zrange ?a ?b)] =>
        first [ rewrite (bool_decide_eq_true_2 (k ∈ zrange a b))
                  by (apply elem_of_zrange; lia)
              | rewrite (bool_decide_eq_false_2 (k ∈ zrange a b))
                  by (rewrite elem_of_zrange; lia) ]
    end; done.
Qed.

(** *** The state the methods keep *)

Lemma cellIn_elems cs (a b : nat) c :
  cellIn cs (Z.of_nat a) (Z.of_nat b) = Some c
  <-> exists r, elems cs !! a = Some r /\ elems r !! b = Some c.
Proof.
  unfold cellIn. split.
  - destruct (get cs (Z.of_nat a)) as [r|] eqn:Hr; [|done]. cbn. intros Hc.
    apply get_Some_elems in Hr as [_ Hr]. apply get_Some_elems in Hc as [_ Hc].
    rewrite Nat2Z.id in Hr, Hc. eauto.
  - intros (r & Hr & Hc).
    rewrite (proj2 (get_Some_elems cs (Z.of_nat a) r))
      by (rewrite Nat2Z.id; split; [lia|done]).
    cbn. apply get_Some_elems. rewrite Nat2Z.id. split; [lia|done].
Qed.

Lemma cellIn_nonneg cs i j c : cellIn cs i j = Some c -> 0 <= i /\ 0 <= j.
Proof.
  unfold cellIn. destruct (get cs i) as [r|] eqn:Hr; [|done]. cbn. intros Hc.
  apply get_Some_bounds in Hr. apply get_Some_bounds in Hc. lia.
Qed.

Lemma extends_keeps cs cs' : extends cs cs' -> keeps cs cs'.
Proof.
  intros Hext i j c Hc. destruct (cellIn_nonneg _ _ _ _ Hc) as [Hi Hj].
  rewrite <- (Z2Nat.id i), <- (Z2Nat.id j) in Hc |- * by done.
  apply cellIn_elems in Hc as (r & Hr & Hc). apply cellIn_elems.
  by eapply extends_cell.
Qed.

Lemma infoOk_keeps cs cs' info : keeps cs cs' -> infoOk cs info -> infoOk cs' info.
Proof.
  intros Hk (p & c & Hp & Hc & Hrow & Hcol & Hin).
  exists p, c. repeat split; try done; [by apply Hk|].
  intros i j Hij. destruct (Hin i j Hij) as [x Hx]. exists x. by apply Hk.
Qed.

Lemma infoOk_updated P f cs cs' info :
  updated P f cs cs' ->
  (forall i j c, P i j = true -> row c = i -> column c = j ->
     row (f c) = i /\ column (f c) = j) ->
  infoOk cs info -> infoOk cs' info.
Proof.
  intros Hu Hf (p & c & Hp & Hc & Hrow & Hcol & Hin).
  destruct Hu as (Hok & Hlen & Hupd).
  exists p, (if P (Z.of_nat p.1) (Z.of_nat p.2) then f c else c).
  split; [done|]. split; [by rewrite Hupd, Hc|].
  split; [|split].
  - destruct (P _ _) eqn:HP; [|done]. by apply (Hf _ _ c HP).
  - destruct (P _ _) eqn:HP; [|done]. by apply (Hf _ _ c HP).
  - intros i j Hij. rewrite Hupd. destruct (Hin i j Hij) as [x ->]. by eexists.
Qed.

Lemma infoOk_refresh cs info : infoOk cs info -> refreshCell cs info = Some info.
Proof.
  intros (p & c & Hp & Hc & Hrow & Hcol & _).
  apply cellIn_elems in Hc as (r & Hr & Hc). by eapply refreshCell_id.
Qed.

(** [ensureSufficientSize] on a consistent grid. *)
Lemma ensureSufficientSize_grows (l : GridLayout) (rows columns : Z) :
  wf l ->
  exists l', ensureSufficientSize l rows columns = Some l'
    /\ wf l'
    /\ length (rowFactors l') = Nat.max (length (rowFactors l)) (Z.to_nat rows)
    /\ length (columnFactors l')
       = Nat.max (length (columnFactors l)) (Z.to_nat columns)
    /\ (len (cells l) <= len (cells l'))%nat
    /\ rowFactors l'
       = rowFactors l
         ++ replicate (length (rowFactors l') - length (rowFactors l)) 1
    /\ columnFactors l'
       = columnFactors l
         ++ replicate (length (columnFactors l') - length (columnFactors l)) 1
    /\ (forall i j c, cellAt l i j = Some c -> cellAt l' i j = Some c)
    /\ widgetBase2Info l' = widgetBase2Info l
    /\ (forall i j, 0 <= i < rows -> 0 <= j < columns -> is_Some (cellAt l' i j))
    /\ container l' = container l
    /\ layoutRequests l' = layoutRequests l.
Proof.
  intros [Hrsf Hcsf [Hcells Hrows] Hinfos].
  unfold ensureSufficientSize.
  destruct (sufficientStretchFactors_spec (rowStretchFactors l) rows Hrsf)
    as (Hrsf' & Hrlen & Hrel).
  destruct (sufficientStretchFactors_spec (columnStretchFactors l) columns Hcsf)
    as (Hcsf' & Hclen & Hcel).
  cbn zeta in *.
  set (rsf := sufficientStretchFactors (rowStretchFactors l) rows) in *.
  set (csf := sufficientStretchFactors (columnStretchFactors l) columns) in *.
  destruct (growRows_spec rsf (cells l) Hrsf' Hcells Hrows)
    as (cs1 & Hg1 & Hwf1 & Hrows1 & Hlen1 & Hext1).
  destruct (growColumns_spec csf cs1 Hcsf' Hwf1 Hrows1)
    as (cs2 & Hg2 & Hwf2 & Hrows2 & Hlen2 & Hext2 & Hwide).
  rewrite Hg1. cbn. rewrite Hg2. cbn.
  pose proof (extends_keeps _ _ (extends_trans _ _ _ Hext1 Hext2)) as Hkeeps.
  assert (map_Forall (fun _ => infoOk cs2) (widgetBase2Info l)) as Hinfos2.
  { intros k info Hk. eapply infoOk_keeps; [done|]. by apply (Hinfos k). }
  assert (map_Forall (fun _ info => refreshCell cs2 info = Some info)
            (widgetBase2Info l)) as Hid.
  { intros k info Hk. apply infoOk_refresh. by apply (Hinfos2 k). }
  rewrite bool_decide_eq_true_2.
  2:{ intros k info Hk. rewrite (Hid k info Hk). eauto. }
  rewrite (omap_Some_id _ _ Hid).
  eexists. split; [done|].
  unfold rowFactors, columnFactors;
    cbn [rowStretchFactors columnStretchFactors cells widgetBase2Info container
         layoutRequests].
  rewrite !length_elems by done.
  split; [by constructor|].
  split; [done|]. split; [done|]. split; [lia|].
  split; [by rewrite Hrel|]. split; [by rewrite Hcel|].
  split; [exact Hkeeps|]. split; [done|]. split; [|done].
  intros i j Hi Hj. unfold cellAt; cbn [cells].
  destruct (get_is_Some cs2 i Hwf2) as [r Hr]; [lia|]. rewrite Hr. cbn.
  apply get_Some_bounds in Hr as Hr'. destruct Hr' as [Hib Hri].
  assert (Slice.wf r) as Hwr.
  { rewrite Forall_forall in Hrows2. apply Hrows2. by eapply list_elem_of_lookup_2. }
  apply get_is_Some; [done|].
  assert (len csf <= len r)%nat; [|lia].
  rewrite Forall_forall in Hwide. apply Hwide.
  apply (list_elem_of_lookup_2 _ (Z.to_nat i)). apply elems_lookup_Some. split; [done|lia].
Qed.

(** *** SetRange *)

Lemma cellIn_deref cs (p : nat * nat) c :
  cellIn cs (Z.of_nat p.1) (Z.of_nat p.2) = Some c -> derefCell cs p = Some c.
Proof.
  unfold cellIn, derefCell. destruct (get cs _) as [r|] eqn:Hr; [|done]. cbn.
  intros Hc. apply get_Some_bounds in Hr as [_ Hr]. apply get_Some_bounds in Hc as [_ Hc].
  rewrite Nat2Z.id in Hr, Hc. by rewrite Hr.
Qed.

Lemma infoOk_range cs info :
  infoOk cs info ->
  exists p, cell info = Some p
    /\ rangeFromGridLayoutWidgetInfo cs info = Some (infoRange p info)
    /\ forall i j, inRange (infoRange p info) i j = true -> is_Some (cellIn cs i j).
Proof.
  intros (p & c & Hp & Hc & Hrow & Hcol & Hin). exists p. split; [done|].
  split; [|done]. unfold rangeFromGridLayoutWidgetInfo. rewrite Hp. cbn.
  rewrite (cellIn_deref _ _ _ Hc). cbn. unfold infoRange. by rewrite Hrow, Hcol.
Qed.

Lemma inRange_spec r i j :
  inRange r i j = true
  <-> gY r <= i < gY r + gHeight r /\ gX r <= j < gX r + gWidth r.
Proof. unfold inRange. rewrite !andb_true_iff. lia. Qed.

Lemma inRange_zeroRange i j : inRange zeroRange i j = false.
Proof.
  destruct (inRange zeroRange i j) eqn:H; [|done].
  apply inRange_spec in H. cbn in H. lia.
Qed.

Lemma withWidget_position wb (P : Z -> Z -> bool) i j c :
  P i j = true -> row c = i -> column c = j ->
  row (withWidget wb c) = i /\ column (withWidget wb c) = j.
Proof. done. Qed.

Lemma clearPreviousRange_spec (l : GridLayout) (wb : positive) :
  wf l ->
  exists cs1, clearPreviousRange l wb = Some (withCells l cs1)
    /\ wf (withCells l cs1)
    /\ updated (inRange (previousRange l wb)) (withWidget None) (cells l) cs1.
Proof.
  intros Hwf. destruct Hwf as [Hrsf Hcsf Hok Hinfos].
  unfold clearPreviousRange, previousRange.
  destruct (widgetBase2Info l !! wb) as [info|] eqn:Hinfo.
  - destruct (infoOk_range _ _ (Hinfos _ _ Hinfo)) as (p & Hp & -> & Hin). cbn.
    destruct (setWidgetOnCells_spec (cells l) None _ Hok Hin) as (cs1 & -> & Hu).
    cbn. exists cs1. split; [done|]. split; [|done].
    constructor; cbn; try done.
    + by eapply updated_gridOk.
    + intros k info' Hk. eapply infoOk_updated; [exact Hu| |by apply (Hinfos k)].
      intros i j c. apply withWidget_position.
  - exists (cells l). split; [by destruct l|]. split; [by destruct l|].
    eapply updated_ext; [|by apply updated_refl].
    intros i j. by rewrite inRange_zeroRange.
Qed.

(** [SetRange] with valid arguments on a consistent grid. *)
Lemma SetRange_spec (l : GridLayout) (w : Widget) (r : RectangleGrid)
    (c0 : Container) :
  wf l -> container l = Some c0 -> Handle w ∈ Children c0 ->
  0 <= gX r -> 0 <= gY r -> 1 <= gWidth r -> 1 <= gHeight r ->
  let wb := AsWidgetBase w in
  exists l', SetRange l (Some w) r = Some (None, l')
    /\ wf l'
    /\ length (rowFactors l')
       = Nat.max (length (rowFactors l)) (Z.to_nat (gY r + gHeight r))
    /\ length (columnFactors l')
       = Nat.max (length (columnFactors l)) (Z.to_nat (gX r + gWidth r))
    /\ (len (cells l) <= len (cells l'))%nat
    /\ rowFactors l'
       = rowFactors l
         ++ replicate (length (rowFactors l') - length (rowFactors l)) 1
    /\ columnFactors l'
       = columnFactors l
         ++ replicate (length (columnFactors l') - length (columnFactors l)) 1
    /\ (forall i j c, cellAt l i j = Some c ->
          inRange r i j = false -> inRange (previousRange l wb) i j = false ->
          cellAt l' i j = Some c)
    /\ (forall i j, inRange r i j = true -> widgetAt l' i j = Some wb)
    /\ Range l' (Some w) = Some (Some r)
    /\ widgetBase2Info l'
       = <[wb := {| cell := Some (Z.to_nat (gY r), Z.to_nat (gX r));
                    spanHorz := gWidth r; spanVert := gHeight r;
                    minSize := minSize (default zeroInfo (widgetBase2Info l !! wb)) |}]>
           (widgetBase2Info l)
    /\ container l' = container l
    /\ layoutRequests l' = layoutRequests l
    /\ (forall i j c, cellAt l i j = Some c ->
          inRange r i j = false -> inRange (previousRange l wb) i j = true ->
          cellAt l' i j = Some (withWidget None c)).
Proof.
  intros Hwf Hc Hchild HX HY HW HH wb. unfold SetRange, containsHandle.
  rewrite Hc, bool_decide_eq_true_2 by done. cbn [negb].
  rewrite (proj2 (Z.ltb_ge (gX r) 0)), (proj2 (Z.ltb_ge (gY r) 0)),
    (proj2 (Z.ltb_ge (gWidth r) 1)), (proj2 (Z.ltb_ge (gHeight r) 1)) by done.
  cbn [orb]. cbn zeta. fold wb.
  destruct (clearPreviousRange_spec l wb Hwf) as (cs1 & -> & Hwf1 & Hu1). cbn.
  destruct (ensureSufficientSize_grows (withCells l cs1) (gY r + gHeight r)
              (gX r + gWidth r) Hwf1)
    as (l2 & -> & Hwf2 & Hnr & Hnc & Hlen & Hrf & Hcf & Hkeep & Hinfos & Hbounds & Hcont
        & Hreq).
  cbn.
  assert (forall i j, inRange r i j = true -> is_Some (cellIn (cells l2) i j)) as Hin2.
  { intros i j Hij%inRange_spec. apply (Hbounds i j); lia. }
  destruct (Hin2 (gY r) (gX r)) as [c2 Hc2]; [apply inRange_spec; lia|].
  assert (cellAddr (cells l2) (gY r) (gX r) = Some (Z.to_nat (gY r), Z.to_nat (gX r)))
    as ->.
  { unfold cellAddr. unfold cellIn in Hc2.
    destruct (get (cells l2) (gY r)); [|done]. cbn in Hc2 |- *. by rewrite Hc2. }
  cbn.
  destruct Hwf2 as [Hrsf2 Hcsf2 Hok2 Hinfos2].
  destruct (setCell_spec (withPosition (gY r) (gX r)) (cells l2) (gY r) (gX r) Hok2)
    as (cs3 & Hs3 & Hu3); [by eexists|].
  change (setCellRowColumn (cells l2) (gY r) (gX r) = Some cs3) in Hs3.
  rewrite Hs3. cbn.
  destruct (setWidgetOnCells_spec cs3 (Some w) r) as (cs4 & -> & Hu4).
  { by eapply updated_gridOk. }
  { intros i j Hij. eapply updated_is_Some; [exact Hu3|]. by apply Hin2. }
  cbn. eexists. split; [reflexivity|].
  assert (cellIn cs4 (gY r) (gX r)
          = Some (withWidget (Some wb) (withPosition (gY r) (gX r) c2))) as Hc4.
  { destruct Hu4 as (_ & _ & ->). destruct Hu3 as (_ & _ & ->).
    rewrite Hc2. cbn. rewrite !Z.eqb_refl. cbn.
    by rewrite (proj2 (inRange_spec r (gY r) (gX r))) by lia. }
  assert (forall i j, inRange r i j = true -> is_Some (cellIn cs4 i j)) as Hin4.
  { intros i j Hij. eapply updated_is_Some; [exact Hu4|].
    eapply updated_is_Some; [exact Hu3|]. by apply Hin2. }
  unfold rowFactors, columnFactors in *.
  cbn [rowStretchFactors columnStretchFactors cells widgetBase2Info withCells
       withInfos container layoutRequests] in *.
  split; [|split; [done|]; split; [done|]; split; [|split; [done|]; split; [done|]]].
  - constructor; cbn; try done.
    + by eapply updated_gridOk.
    + apply map_Forall_insert_2.
      * exists (Z.to_nat (gY r), Z.to_nat (gX r)). eexists. cbn [fst snd cell].
        rewrite !Z2Nat.id by done. split; [done|]. split; [exact Hc4|].
        split; [done|]. split; [done|].
        intros i j Hij. apply Hin4. revert Hij. rewrite !inRange_spec. cbn.
        rewrite !Z2Nat.id by done. done.
      * intros k info Hk. eapply infoOk_updated; [exact Hu4|apply withWidget_position|].
        eapply infoOk_updated; [exact Hu3| |by apply (Hinfos2 k)].
        intros i j c Hij. cbn. apply andb_true_iff in Hij as [->%Z.eqb_eq ->%Z.eqb_eq].
        done.
  - destruct Hu4 as (_ & -> & _). destruct Hu3 as (_ & -> & _).
    destruct Hu1 as (_ & Hl1 & _). lia.
  - split; [|split; [|split; [|split; [|split; [|split]]]]].
    + intros i j c Hcell Hout Hprev. unfold cellAt in *. cbn [cells].
      change (cellIn cs4 i j = Some c). change (cellIn (cells l) i j = Some c) in Hcell.
      rewrite (updated_outside _ _ _ _ _ _ Hu4 Hout).
      rewrite (updated_outside _ _ _ _ _ _ Hu3).
      2:{ apply andb_false_iff.
          destruct (Z.eqb_spec i (gY r)) as [->|]; [|by left].
          destruct (Z.eqb_spec j (gX r)) as [->|]; [|by right].
          rewrite (proj2 (inRange_spec r (gY r) (gX r))) in Hout by lia. done. }
      apply (Hkeep i j c). change (cellIn cs1 i j = Some c).
      by rewrite (updated_outside _ _ _ _ _ _ Hu1 Hprev).
    + intros i j Hij. unfold widgetAt, cellAt. cbn [cells].
      change (cellIn cs4 i j ≫= widgetBase = Some wb).
      destruct Hu4 as (_ & _ & ->). rewrite Hij.
      destruct (updated_is_Some _ _ _ _ i j Hu3 (Hin2 i j Hij)) as [x ->]. done.
    + unfold Range. cbn [widgetBase2Info container cells].
      rewrite lookup_insert_eq, Hcont. cbn [container]. rewrite Hc.
      unfold containsHandle. rewrite bool_decide_eq_true_2 by done.
      unfold rangeFromGridLayoutWidgetInfo. cbn [cell mbind option_bind].
      rewrite (cellIn_deref cs4 (Z.to_nat (gY r), Z.to_nat (gX r))
                 (withWidget (Some wb) (withPosition (gY r) (gX r) c2))).
      2:{ cbn [fst snd]. by rewrite !Z2Nat.id. }
      cbn. by destruct r.
    + by rewrite Hinfos.
    + by rewrite Hcont.
    + exact Hreq.
    + intros i j c Hcell Hout Hprev. unfold cellAt in *. cbn [cells].
      change (cellIn cs4 i j = Some (withWidget None c)).
      change (cellIn (cells l) i j = Some c) in Hcell.
      rewrite (updated_outside _ _ _ _ _ _ Hu4 Hout).
      rewrite (updated_outside _ _ _ _ _ _ Hu3).
      2:{ apply andb_false_iff.
          destruct (Z.eqb_spec i (gY r)) as [->|]; [|by left].
          destruct (Z.eqb_spec j (gX r)) as [->|]; [|by right].
          rewrite (proj2 (inRange_spec r (gY r) (gX r))) in Hout by lia. done. }
      apply (Hkeep i j). change (cellIn cs1 i j = Some (withWidget None c)).
      destruct Hu1 as (_ & _ & ->). by rewrite Hcell, Hprev.
Qed.

Lemma SetRange_grows (l : GridLayout) (w : Widget) (r : RectangleGrid)
    (c0 : Container) :
  wf l -> container l = Some c0 -> Handle w ∈ Children c0 ->
  0 <= gX r -> 0 <= gY r -> 1 <= gWidth r -> 1 <= gHeight r ->
  let wb := AsWidgetBase w in
  exists l', SetRange l (Some w) r = Some (None, l')
    /\ wf l'
    /\ length (rowFactors l')
       = Nat.max (length (rowFactors l)) (Z.to_nat (gY r + gHeight r))
    /\ length (columnFactors l')
       = Nat.max (length (columnFactors l)) (Z.to_nat (gX r + gWidth r))
    /\ (len (cells l) <= len (cells l'))%nat
    /\ rowFactors l'
       = rowFactors l
         ++ replicate (length (rowFactors l') - length (rowFactors l)) 1
    /\ columnFactors l'
       = columnFactors l
         ++ replicate (length (columnFactors l') - length (columnFactors l)) 1
    /\ (forall i j c, cellAt l i j = Some c ->
          inRange r i j = false -> inRange (previousRange l wb) i j = false ->
          cellAt l' i j = Some c)
    /\ (forall i j, inRange r i j = true -> widgetAt l' i j = Some wb)
    /\ Range l' (Some w) = Some (Some r).
Proof.
  intros Hwf Hc Hchild HX HY HW HH wb.
  destruct (SetRange_spec l w r c0 Hwf Hc Hchild HX HY HW HH)
    as (l' & H1 & H2 & H3 & H4 & H5 & H6 & H7 & H8 & H9 & H10 & _).
  exists l'. by repeat (split; [assumption|]).
Qed.


(** *** The stretch-factor setters *)

Lemma factor_lookup (sf : slice Z) (k : Z) :
  Slice.wf sf -> 0 <= k ->
  (if k >=? Z.of_nat (len sf) then 1 else default 1 (get sf k))
  = default 1 (elems sf !! Z.to_nat k).
Proof.
  intros Hwf Hk. rewrite get_elems, decide_True by done.
  destruct (Z.geb_spec k (Z.of_nat (len sf))) as [Hge|Hlt]; [|done].
  rewrite lookup_ge_None_2; [done|]. rewrite length_elems by done. lia.
Qed.

Lemma RowStretchFactor_lookup (l : GridLayout) (k : Z) :
  Slice.wf (rowStretchFactors l) ->
  RowStretchFactor l k
  = if k <? 0 then -1 else default 1 (rowFactors l !! Z.to_nat k).
Proof.
  intros Hwf. unfold RowStretchFactor, rowFactors.
  destruct (Z.ltb_spec k 0); [done|]. by apply factor_lookup.
Qed.

Lemma ColumnStretchFactor_lookup (l : GridLayout) (k : Z) :
  Slice.wf (columnStretchFactors l) ->
  ColumnStretchFactor l k
  = if k <? 0 then -1 else default 1 (columnFactors l !! Z.to_nat k).
Proof.
  intros Hwf. unfold ColumnStretchFactor, columnFactors.
  destruct (Z.ltb_spec k 0); [done|]. by apply factor_lookup.
Qed.

Lemma lookup_app_ones (fs : list Z) (n k : nat) :
  default 1 ((fs ++ replicate n 1) !! k) = default 1 (fs !! k).
Proof.
  destruct (decide (k < length fs)%nat) as [Hlt|Hge].
  - by rewrite lookup_app_l.
  - rewrite lookup_app_r, (lookup_ge_None_2 fs) by lia. cbn.
    destruct (replicate n 1 !! (k - length fs)%nat) as [x|] eqn:Hx; [|done].
    by apply lookup_replicate in Hx as [-> _].
Qed.

Lemma set_elems {A} (s s' : slice A) (i : Z) (x : A) :
  Slice.wf s -> set s i x = Some s' ->
  Slice.wf s' /\ 0 <= i < Z.of_nat (len s)
  /\ elems s' = <[Z.to_nat i := x]> (elems s).
Proof.
  unfold set, Slice.wf, cap, elems. intros Hwf.
  destruct (decide _) as [Hi|]; [|done]. intros [= <-]. cbn [arr len].
  rewrite length_insert. split; [done|]. split; [done|].
  by rewrite take_insert_lt by lia.
Qed.

(** What a setter does to the factors of its axis. *)
Lemma set_factor (fs : list Z) (n : nat) (i factor k : Z) :
  0 <= i -> (Z.to_nat i < length fs + n)%nat -> 0 <= k ->
  default 1 (<[Z.to_nat i := factor]> (fs ++ replicate n 1) !! Z.to_nat k)
  = if decide (k = i) then factor else default 1 (fs !! Z.to_nat k).
Proof.
  intros Hi Hlt Hk. destruct (decide (k = i)) as [->|Hne].
  - rewrite list_lookup_insert_eq; [done|]. rewrite length_app, length_replicate. lia.
  - rewrite list_lookup_insert_ne by lia. apply lookup_app_ones.
Qed.

Lemma SetRowStretchFactor_grows (l : GridLayout) (row factor : Z) (c0 : Container) :
  wf l -> container l = Some c0 -> 0 <= row -> 1 <= factor ->
  exists l', SetRowStretchFactor l row factor = Some (None, l')
    /\ wf l'
    /\ RowStretchFactor l' row = factor
    /\ (forall k, k <> row -> RowStretchFactor l' k = RowStretchFactor l k)
    /\ (length (rowFactors l) <= length (rowFactors l'))%nat
    /\ columnFactors l' = columnFactors l
    /\ (forall i j c, cellAt l i j = Some c -> cellAt l' i j = Some c)
    /\ widgetBase2Info l' = widgetBase2Info l.
Proof.
  intros Hwf Hc Hrow Hfactor. unfold SetRowStretchFactor, succeed.
  rewrite (proj2 (Z.ltb_ge row 0)) by done.
  destruct (Z.eqb_spec factor (RowStretchFactor l row)) as [Heq|Hne]; cbn [negb].
  { exists l. split; [done|]. split; [done|]. split; [done|]. split; [done|].
    split; [lia|]. done. }
  rewrite Hc, (proj2 (Z.ltb_ge factor 1)) by done.
  destruct (ensureSufficientSize_grows l (row + 1)
              (Z.of_nat (len (columnStretchFactors l))) Hwf)
    as (l1 & -> & Hwf1 & Hnr & Hnc & _ & Hrf & Hcf & Hkeep & Hinfos & _).
  cbn. destruct Hwf as [Hrsf Hcsf Hok Hi]. destruct Hwf1 as [Hrsf1 Hcsf1 Hok1 Hi1].
  destruct (set_spec (rowStretchFactors l1) row factor Hrsf1) as (sf & Hset & _).
  { rewrite <- (length_elems _ Hrsf1). fold (rowFactors l1). lia. }
  rewrite Hset. cbn.
  destruct (set_elems _ _ _ _ Hrsf1 Hset) as (Hwsf & Hb & Hel).
  eexists. split; [reflexivity|].
  assert (Slice.wf (rowStretchFactors
            (RequestLayout (withRowStretchFactors l1 sf)))) as Hwl' by done.
  assert (rowFactors (RequestLayout (withRowStretchFactors l1 sf))
          = <[Z.to_nat row := factor]>
              (rowFactors l
               ++ replicate (length (rowFactors l1) - length (rowFactors l)) 1))
    as Hfs.
  { unfold rowFactors at 1. cbn. rewrite Hel. fold (rowFactors l1). by rewrite <- Hrf. }
  assert (forall k, 0 <= k ->
            RowStretchFactor (RequestLayout (withRowStretchFactors l1 sf)) k
            = if decide (k = row) then factor
              else default 1 (rowFactors l !! Z.to_nat k)) as Hget.
  { intros k Hk. rewrite RowStretchFactor_lookup, Hfs by done.
    rewrite (proj2 (Z.ltb_ge k 0)) by done.
    apply set_factor; [done| |done]. rewrite Hnr. lia. }
  split; [by constructor|].
  split; [by rewrite Hget, decide_True by done|].
  split; [|split; [|split; [|split; [exact Hkeep|exact Hinfos]]]].
  - intros k Hk. destruct (Z.ltb_spec k 0) as [Hneg|Hpos].
    + unfold RowStretchFactor. by rewrite !(proj2 (Z.ltb_lt k 0)) by done.
    + rewrite Hget, decide_False by done.
      rewrite (RowStretchFactor_lookup l) by done.
      by rewrite (proj2 (Z.ltb_ge k 0)) by done.
  - rewrite Hfs, length_insert, length_app. lia.
  - change (columnFactors l1 = columnFactors l). rewrite Hcf, Hnc.
    rewrite Nat2Z.id, <- (length_elems _ Hcsf). fold (columnFactors l).
    by rewrite Nat.max_id, Nat.sub_diag, app_nil_r.
Qed.

Lemma SetColumnStretchFactor_grows (l : GridLayout) (column factor : Z)
    (c0 : Container) :
  wf l -> container l = Some c0 -> 0 <= column -> 1 <= factor ->
  exists l', SetColumnStretchFactor l column factor = Some (None, l')
    /\ wf l'
    /\ ColumnStretchFactor l' column = factor
    /\ (forall k, k <> column -> ColumnStretchFactor l' k = ColumnStretchFactor l k)
    /\ (length (columnFactors l) <= length (columnFactors l'))%nat
    /\ rowFactors l' = rowFactors l
    /\ (forall i j c, cellAt l i j = Some c -> cellAt l' i j = Some c)
    /\ widgetBase2Info l' = widgetBase2Info l.
Proof.
  intros Hwf Hc Hcolumn Hfactor. unfold SetColumnStretchFactor, succeed.
  rewrite (proj2 (Z.ltb_ge column 0)) by done.
  destruct (Z.eqb_spec factor (ColumnStretchFactor l column)) as [Heq|Hne]; cbn [negb].
  { exists l. split; [done|]. split; [done|]. split; [done|]. split; [done|].
    split; [lia|]. done. }
  rewrite Hc, (proj2 (Z.ltb_ge factor 1)) by done.
  destruct (ensureSufficientSize_grows l (Z.of_nat (len (rowStretchFactors l)))
              (column + 1) Hwf)
    as (l1 & -> & Hwf1 & Hnr & Hnc & _ & Hrf & Hcf & Hkeep & Hinfos & _).
  cbn. destruct Hwf as [Hrsf Hcsf Hok Hi]. destruct Hwf1 as [Hrsf1 Hcsf1 Hok1 Hi1].
  destruct (set_spec (columnStretchFactors l1) column factor Hcsf1) as (sf & Hset & _).
  { rewrite <- (length_elems _ Hcsf1). fold (columnFactors l1). lia. }
  rewrite Hset. cbn.
  destruct (set_elems _ _ _ _ Hcsf1 Hset) as (Hwsf & Hb & Hel).
  eexists. split; [reflexivity|].
  assert (Slice.wf (columnStretchFactors
            (RequestLayout (withColumnStretchFactors l1 sf)))) as Hwl' by done.
  assert (columnFactors (RequestLayout (withColumnStretchFactors l1 sf))
          = <[Z.to_nat column := factor]>
              (columnFactors l
               ++ replicate (length (columnFactors l1) - length (columnFactors l)) 1))
    as Hfs.
  { unfold columnFactors at 1. cbn. rewrite Hel. fold (columnFactors l1).
    by rewrite <- Hcf. }
  assert (forall k, 0 <= k ->
            ColumnStretchFactor (RequestLayout (withColumnStretchFactors l1 sf)) k
            = if decide (k = column) then factor
              else default 1 (columnFactors l !! Z.to_nat k)) as Hget.
  { intros k Hk. rewrite ColumnStretchFactor_lookup, Hfs by done.
    rewrite (proj2 (Z.ltb_ge k 0)) by done.
    apply set_factor; [done| |done]. rewrite Hnc. lia. }
  split; [by constructor|].
  split; [by rewrite Hget, decide_True by done|].
  split; [|split; [|split; [|split; [exact Hkeep|exact Hinfos]]]].
  - intros k Hk. destruct (Z.ltb_spec k 0) as [Hneg|Hpos].
    + unfold ColumnStretchFactor. by rewrite !(proj2 (Z.ltb_lt k 0)) by done.
    + rewrite Hget, decide_False by done.
      rewrite (ColumnStretchFactor_lookup l) by done.
      by rewrite (proj2 (Z.ltb_ge k 0)) by done.
  - rewrite Hfs, length_insert, length_app. lia.
  - change (rowFactors l1 = rowFactors l). rewrite Hrf, Hnr.
    rewrite Nat2Z.id, <- (length_elems _ Hrsf). fold (rowFactors l).
    by rewrite Nat.max_id, Nat.sub_diag, app_nil_r.
Qed.

(** *** No stretch factor below 1 *)

Lemma sufficientStretchFactors_ok (sf : slice Z) (required : Z) :
  Slice.wf sf -> Forall (fun f => 1 <= f) (elems sf) ->
  Slice.wf (sufficientStretchFactors sf required)
  /\ Forall (fun f => 1 <= f) (elems (sufficientStretchFactors sf required)).
Proof.
  intros Hwf Hok.
  destruct (sufficientStretchFactors_spec sf required Hwf) as (Hwf' & _ & ->).
  split; [done|]. apply Forall_app. split; [done|].
  apply Forall_replicate. lia.
Qed.

Lemma set_ok (sf sf' : slice Z) (i v : Z) :
  Slice.wf sf -> Forall (fun f => 1 <= f) (elems sf) -> 1 <= v ->
  set sf i v = Some sf' ->
  Slice.wf sf' /\ Forall (fun f => 1 <= f) (elems sf').
Proof.
  unfold set, Slice.wf, cap, elems. intros Hwf Hok Hv.
  destruct (decide (0 <= i < Z.of_nat (len sf))); [|done].
  intros [= <-]. cbn [arr len]. split; [by rewrite length_insert|].
  rewrite take_insert_lt by lia. by apply Forall_insert.
Qed.

Lemma ensureSufficientSize_factorsOk (l l' : GridLayout) (rows columns : Z) :
  factorsOk l -> ensureSufficientSize l rows columns = Some l' -> factorsOk l'.
Proof.
  intros (Hr & Hc & Hrf & Hcf). unfold ensureSufficientSize.
  destruct (growRows _ _) as [cs1|]; cbn; [|done].
  destruct (growColumns _ _) as [cs2|]; cbn; [|done].
  destruct (bool_decide _); [|done]. intros [= <-].
  unfold factorsOk, rowFactors, columnFactors. cbn.
  destruct (sufficientStretchFactors_ok _ rows Hr Hrf).
  destruct (sufficientStretchFactors_ok _ columns Hc Hcf). done.
Qed.

Lemma clearPreviousRange_factors (l l' : GridLayout) (wb : positive) :
  clearPreviousRange l wb = Some l' ->
  rowStretchFactors l' = rowStretchFactors l
  /\ columnStretchFactors l' = columnStretchFactors l.
Proof.
  unfold clearPreviousRange. destruct (widgetBase2Info l !! wb); [|by intros [= <-]].
  destruct (rangeFromGridLayoutWidgetInfo _ _); cbn; [|done].
  destruct (setWidgetOnCells _ _ _); cbn; [|done]. by intros [= <-].
Qed.

Theorem stretch_factors_at_least_1 :
  factorsOk NewGridLayout
  /\ (forall l l' e row factor,
        factorsOk l -> SetRowStretchFactor l row factor = Some (e, l') ->
        factorsOk l')
  /\ (forall l l' e column factor,
        factorsOk l -> SetColumnStretchFactor l column factor = Some (e, l') ->
        factorsOk l')
  /\ (forall l l' e widget r,
        factorsOk l -> SetRange l widget r = Some (e, l') -> factorsOk l').
Proof.
  split; [|split; [|split]].
  - unfold factorsOk, Slice.wf. cbn. repeat split; (lia || constructor).
  - intros l l' e row factor Hok. unfold SetRowStretchFactor, fail, succeed.
    destruct (row <? 0); [by intros [= _ <-]|].
    destruct (negb _); [|by intros [= _ <-]].
    destruct (container l); [|by intros [= _ <-]].
    destruct (Z.ltb_spec factor 1); [by intros [= _ <-]|].
    destruct (ensureSufficientSize _ _ _) as [l1|] eqn:He; cbn; [|done].
    apply ensureSufficientSize_factorsOk in He as (Hr & Hc & Hrf & Hcf); [|done].
    destruct (set _ _ _) as [sf|] eqn:Hs; cbn; [|done]. intros [= _ <-].
    destruct (set_ok _ _ _ _ Hr Hrf H Hs). done.
  - intros l l' e column factor Hok. unfold SetColumnStretchFactor, fail, succeed.
    destruct (column <? 0); [by intros [= _ <-]|].
    destruct (negb _); [|by intros [= _ <-]].
    destruct (container l); [|by intros [= _ <-]].
    destruct (Z.ltb_spec factor 1); [by intros [= _ <-]|].
    destruct (ensureSufficientSize _ _ _) as [l1|] eqn:He; cbn; [|done].
    apply ensureSufficientSize_factorsOk in He as (Hr & Hc & Hrf & Hcf); [|done].
    destruct (set _ _ _) as [sf|] eqn:Hs; cbn; [|done]. intros [= _ <-].
    destruct (set_ok _ _ _ _ Hc Hcf H Hs). done.
  - intros l l' e widget r Hok. unfold SetRange, fail, succeed.
    destruct widget as [w|]; [|by intros [= _ <-]].
    destruct (container l); [|by intros [= _ <-]].
    destruct (negb _); [by intros [= _ <-]|].
    destruct (_ || _); [by intros [= _ <-]|].
    destruct (_ || _); [by intros [= _ <-]|].
    destruct (clearPreviousRange _ _) as [l1|] eqn:H1; cbn; [|done].
    apply clearPreviousRange_factors in H1 as [E1 E2].
    destruct (ensureSufficientSize _ _ _) as [l2|] eqn:He; cbn; [|done].
    apply ensureSufficientSize_factorsOk in He.
    2:{ destruct Hok as (? & ? & ? & ?). unfold factorsOk, rowFactors, columnFactors.
        by rewrite E1, E2. }
    destruct (cellAddr _ _ _); cbn; [|done].
    destruct (setCellRowColumn _ _ _); cbn; [|done].
    destruct (setWidgetOnCells _ _ _); cbn; [|done].
    by intros [= _ <-].
Qed.

(** *** The methods never panic *)

Lemma SetRange_total (l : GridLayout) (widget : option Widget) (r : RectangleGrid) :
  wf l -> exists e l', SetRange l widget r = Some (e, l') /\ wf l'.
Proof.
  intros Hwf. unfold SetRange, fail.
  destruct widget as [w|]; [|by eauto].
  destruct (container l) as [c0|] eqn:Hc; [|by eauto].
  unfold containsHandle.
  destruct (decide (Handle w ∈ Children c0)) as [Hin|Hout].
  2:{ rewrite bool_decide_eq_false_2 by done. cbn. by eauto. }
  rewrite bool_decide_eq_true_2 by done. cbn [negb].
  destruct (Z.ltb_spec (gX r) 0); [by eauto|].
  destruct (Z.ltb_spec (gY r) 0); [by eauto|]. cbn [orb].
  destruct (Z.ltb_spec (gWidth r) 1); [by eauto|].
  destruct (Z.ltb_spec (gHeight r) 1); [by eauto|]. cbn [orb].
  destruct (SetRange_grows l w r c0) as (l' & Hs & Hwf' & _); try done.
  unfold SetRange, containsHandle in Hs.
  rewrite Hc, bool_decide_eq_true_2 in Hs by done. cbn [negb] in Hs.
  rewrite (proj2 (Z.ltb_ge (gX r) 0)), (proj2 (Z.ltb_ge (gY r) 0)),
    (proj2 (Z.ltb_ge (gWidth r) 1)), (proj2 (Z.ltb_ge (gHeight r) 1)) in Hs by done.
  cbn [orb] in Hs. rewrite Hs. by eauto.
Qed.

Lemma SetRowStretchFactor_total (l : GridLayout) (row factor : Z) :
  wf l -> exists e l', SetRowStretchFactor l row factor = Some (e, l') /\ wf l'.
Proof.
  intros Hwf.
  destruct (Z.ltb_spec row 0) as [Hneg|Hrow].
  { unfold SetRowStretchFactor, fail. rewrite (proj2 (Z.ltb_lt row 0)) by done. by eauto. }
  destruct (Z.eqb_spec factor (RowStretchFactor l row)) as [Heq|Hne].
  { unfold SetRowStretchFactor, succeed. rewrite (proj2 (Z.ltb_ge row 0)) by done.
    rewrite (proj2 (Z.eqb_eq _ _)) by done. cbn. by eauto. }
  destruct (container l) as [c0|] eqn:Hc.
  2:{ unfold SetRowStretchFactor, fail. rewrite (proj2 (Z.ltb_ge row 0)) by done.
      rewrite (proj2 (Z.eqb_neq _ _)), Hc by done. cbn. by eauto. }
  destruct (Z.ltb_spec factor 1) as [Hlow|Hfactor].
  { unfold SetRowStretchFactor, fail. rewrite (proj2 (Z.ltb_ge row 0)) by done.
    rewrite (proj2 (Z.eqb_neq _ _)), Hc by done. cbn.
    rewrite (proj2 (Z.ltb_lt factor 1)) by done. by eauto. }
  destruct (SetRowStretchFactor_grows l row factor c0) as (l' & -> & Hwf' & _); try done.
  by eauto.
Qed.

Lemma SetColumnStretchFactor_total (l : GridLayout) (column factor : Z) :
  wf l -> exists e l', SetColumnStretchFactor l column factor = Some (e, l') /\ wf l'.
Proof.
  intros Hwf.
  destruct (Z.ltb_spec column 0) as [Hneg|Hcolumn].
  { unfold SetColumnStretchFactor, fail.
    rewrite (proj2 (Z.ltb_lt column 0)) by done. by eauto. }
  destruct (Z.eqb_spec factor (ColumnStretchFactor l column)) as [Heq|Hne].
  { unfold SetColumnStretchFactor, succeed.
    rewrite (proj2 (Z.ltb_ge column 0)) by done.
    rewrite (proj2 (Z.eqb_eq _ _)) by done. cbn. by eauto. }
  destruct (container l) as [c0|] eqn:Hc.
  2:{ unfold SetColumnStretchFactor, fail.
      rewrite (proj2 (Z.ltb_ge column 0)) by done.
      rewrite (proj2 (Z.eqb_neq _ _)), Hc by done. cbn. by eauto. }
  destruct (Z.ltb_spec factor 1) as [Hlow|Hfactor].
  { unfold SetColumnStretchFactor, fail.
    rewrite (proj2 (Z.ltb_ge column 0)) by done.
    rewrite (proj2 (Z.eqb_neq _ _)), Hc by done. cbn.
    rewrite (proj2 (Z.ltb_lt factor 1)) by done. by eauto. }
  destruct (SetColumnStretchFactor_grows l column factor c0)
    as (l' & -> & Hwf' & _); try done.
  by eauto.
Qed.

(** A new layout is consistent, and the three methods that change the
    grid return, with or without an error, a consistent layout. *)
Theorem methods_keep_wf :
  wf NewGridLayout
  /\ forall l, wf l ->
       (forall widget r, exists e l', SetRange l widget r = Some (e, l') /\ wf l')
       /\ (forall row factor,
             exists e l', SetRowStretchFactor l row factor = Some (e, l') /\ wf l')
       /\ (forall column factor,
             exists e l', SetColumnStretchFactor l column factor = Some (e, l') /\ wf l').
Proof.
  split.
  - constructor.
    + unfold Slice.wf. cbn. lia.
    + unfold Slice.wf. cbn. lia.
    + split; [unfold Slice.wf; cbn; lia|constructor].
    + apply map_Forall_empty.
  - intros l Hwf. split; [|split].
    + intros. by apply SetRange_total.
    + intros. by apply SetRowStretchFactor_total.
    + intros. by apply SetColumnStretchFactor_total.
Qed.

(** *** Growth *)




(** *** Layouts made by the methods *)

Lemma reachable_wf (l : GridLayout) : reachable l -> wf l /\ factorsOk l.
Proof.
  induction 1 as [|l c _ [IHw IHf]|l widget r e l' _ [IHw IHf] Hs
                  |l row factor e l' _ [IHw IHf] Hs
                  |l column factor e l' _ [IHw IHf] Hs].
  - split; [apply methods_keep_wf|apply stretch_factors_at_least_1].
  - split; [by destruct IHw|exact IHf].
  - split.
    + destruct (SetRange_total l widget r IHw) as (e' & l'' & Hs' & Hwf).
      rewrite Hs in Hs'. by injection Hs' as _ <-.
    + eapply (proj2 (proj2 (proj2 stretch_factors_at_least_1))); [exact IHf|exact Hs].
  - split.
    + destruct (SetRowStretchFactor_total l row factor IHw) as (e' & l'' & Hs' & Hwf).
      rewrite Hs in Hs'. by injection Hs' as _ <-.
    + eapply (proj1 (proj2 stretch_factors_at_least_1)); [exact IHf|exact Hs].
  - split.
    + destruct (SetColumnStretchFactor_total l column factor IHw)
        as (e' & l'' & Hs' & Hwf).
      rewrite Hs in Hs'. by injection Hs' as _ <-.
    + eapply (proj1 (proj2 (proj2 stretch_factors_at_least_1))); [exact IHf|exact Hs].
Qed.



Lemma exampleGrid_reachable : reachable exampleGrid.
Proof.
  assert (reachable exampleLayout) as H0
    by apply (reachable_container NewGridLayout (Some exampleContainer)), reachable_new.
  apply (reachable_SetRange
           (theLayout (SetRange exampleLayout (Some (exampleWidget 1))
                         {| gX := 1; gY := 0; gWidth := 2; gHeight := 1 |}))
           (Some (exampleWidget 2))
           {| gX := 0; gY := 2; gWidth := 1; gHeight := 1 |} None);
    [|vm_compute; reflexivity].
  apply (reachable_SetRange exampleLayout (Some (exampleWidget 1))
           {| gX := 1; gY := 0; gWidth := 2; gHeight := 1 |} None);
    [exact H0|vm_compute; reflexivity].
Qed.

Lemma exampleWidget_child (n : positive) :
  (n <= 3)%positive -> Handle (exampleWidget n) ∈ Children exampleContainer.
Proof.
  intros Hn. cbn.
  assert (n = 1 \/ n = 2 \/ n = 3)%positive as [-> | [-> | ->]] by lia;
    apply (bool_decide_unpack _); vm_compute; exact I.
Qed.


(** X2: on such a layout the stretch-factor getters return at least 1
    for every index that is not negative. *)
Theorem StretchFactor_at_least_1 (l : GridLayout) (i : Z) :
  reachable l -> 0 <= i ->
  1 <= RowStretchFactor l i /\ 1 <= ColumnStretchFactor l i.
Proof.
  intros [_ (Hr & Hc & Hrf & Hcf)]%reachable_wf Hi.
  rewrite RowStretchFactor_lookup, ColumnStretchFactor_lookup by done.
  rewrite (proj2 (Z.ltb_ge i 0)) by done. split.
  - destruct (rowFactors l !! Z.to_nat i) as [f|] eqn:Hf; [|cbn; lia].
    apply (Forall_lookup_1 _ _ _ _ Hrf Hf).
  - destruct (columnFactors l !! Z.to_nat i) as [f|] eqn:Hf; [|cbn; lia].
    apply (Forall_lookup_1 _ _ _ _ Hcf Hf).
Qed.

Lemma StretchFactor_at_least_1_witness :
  1 <= RowStretchFactor exampleGrid 7 /\ 1 <= ColumnStretchFactor exampleGrid 7.
Proof. apply (StretchFactor_at_least_1 exampleGrid 7 exampleGrid_reachable). lia. Defined.












(** X7: a stretch-factor setter returns an error when the index is
    negative or, for a factor other than the one the getter returns,
    when the container is nil or the factor is below 1 (tested in this
    order), and in no other case; the layout is then as it was. *)
Theorem SetStretchFactor_error (l l' : GridLayout) (index factor : Z) (msg : string) :
  (SetRowStretchFactor l index factor = Some (Some msg, l')
   <-> l' = l
       /\ ((index < 0 /\ msg = "row must be >= 0"%string)
           \/ (0 <= index /\ factor <> RowStretchFactor l index
               /\ ((container l = None /\ msg = "container required"%string)
                   \/ (container l <> None /\ factor < 1
                       /\ msg = "factor must be >= 1"%string)))))
  /\ (SetColumnStretchFactor l index factor = Some (Some msg, l')
      <-> l' = l
          /\ ((index < 0 /\ msg = "column must be >= 0"%string)
              \/ (0 <= index /\ factor <> ColumnStretchFactor l index
                  /\ ((container l = None /\ msg = "container required"%string)
                      \/ (container l <> None /\ factor < 1
                          /\ msg = "factor must be >= 1"%string))))).
Proof.
  split.
  - unfold SetRowStretchFactor, fail, succeed.
    destruct (Z.ltb_spec index 0) as [Hneg|Hpos].
    { split; [intros [= <- <-]; split; [done|left; done]|].
      intros [-> [[_ ->]|[? _]]]; [done|lia]. }
    destruct (Z.eqb_spec factor (RowStretchFactor l index)) as [Heq|Hne]; cbn [negb].
    { split; [done|]. intros [_ [[? _]|(_ & ? & _)]]; [lia|done]. }
    destruct (container l) as [c|].
    2:{ split; [intros [= <- <-]; split; [done|]; right; repeat split; try done;
                by left|].
        intros [-> [[? _]|(_ & _ & [[_ ->]|[? _]])]]; [lia|done|done]. }
    destruct (Z.ltb_spec factor 1) as [Hlow|Hok].
    { split; [intros [= <- <-]; split; [done|]; right; repeat split; try done;
              by right|].
      intros [-> [[? _]|(_ & _ & [[? _]|(_ & _ & ->)])]]; [lia|done|done]. }
    split.
    + destruct (ensureSufficientSize _ _ _) as [l1|]; cbn; [|done].
      by destruct (set _ _ _).
    + intros [_ [[? _]|(_ & _ & [[? _]|(_ & ? & _)])]]; [lia|done|lia].
  - unfold SetColumnStretchFactor, fail, succeed.
    destruct (Z.ltb_spec index 0) as [Hneg|Hpos].
    { split; [intros [= <- <-]; split; [done|left; done]|].
      intros [-> [[_ ->]|[? _]]]; [done|lia]. }
    destruct (Z.eqb_spec factor (ColumnStretchFactor l index)) as [Heq|Hne]; cbn [negb].
    { split; [done|]. intros [_ [[? _]|(_ & ? & _)]]; [lia|done]. }
    destruct (container l) as [c|].
    2:{ split; [intros [= <- <-]; split; [done|]; right; repeat split; try done;
                by left|].
        intros [-> [[? _]|(_ & _ & [[_ ->]|[? _]])]]; [lia|done|done]. }
    destruct (Z.ltb_spec factor 1) as [Hlow|Hok].
    { split; [intros [= <- <-]; split; [done|]; right; repeat split; try done;
              by right|].
      intros [-> [[? _]|(_ & _ & [[? _]|(_ & _ & ->)])]]; [lia|done|done]. }
    split.
    + destruct (ensureSufficientSize _ _ _) as [l1|]; cbn; [|done].
      by destruct (set _ _ _).
    + intros [_ [[? _]|(_ & _ & [[? _]|(_ & ? & _)])]]; [lia|done|lia].
Qed.

(** *** The shape of the grid *)

Lemma rectOk_shape (n : nat) cs cs' : shape cs' = shape cs -> rectOk n cs -> rectOk n cs'.
Proof.
  unfold shape. intros [= Hlen Harr] Hok i r' Hr'.
  assert (((fun r => (len r, cap r)) <$> arr cs) !! i = Some (len r', cap r')) as H.
  { by rewrite <- Harr, list_lookup_fmap, Hr'. }
  rewrite list_lookup_fmap in H. destruct (arr cs !! i) as [r|] eqn:Hr; [|done].
  injection H as H1 H2. destruct (Hok i r Hr) as [Hv Hh]. rewrite Hlen. lia.
Qed.

Lemma shape_len cs cs' : shape cs' = shape cs -> len cs' = len cs.
Proof. unfold shape. by intros [= -> _]. Qed.

Lemma setCell_shape (g : gridLayoutCell -> gridLayoutCell)
    (cs cs' : slice (slice gridLayoutCell)) (i j : Z) :
  (r ← get cs i; c ← get r j; r' ← set r j (g c); set cs i r') = Some cs' ->
  shape cs' = shape cs.
Proof.
  destruct (get cs i) as [r|] eqn:Hr; [|done]. cbn [mbind option_bind].
  destruct (get r j) as [c|] eqn:Hc; [|done]. cbn [mbind option_bind].
  apply get_Some_bounds in Hr as [Hi Hr]. apply get_Some_bounds in Hc as [Hj Hc].
  unfold set. rewrite !decide_True by done. cbn [mbind option_bind].
  rewrite decide_True by done. intros [= <-]. unfold shape. cbn [arr len].
  f_equal. rewrite list_fmap_insert. cbn [arr len]. unfold cap. cbn [arr].
  rewrite length_insert. apply list_insert_id.
  by rewrite list_lookup_fmap, Hr.
Qed.

Lemma foldl_None {A B} (f : option A -> B -> option A) (l : list B) :
  (forall b, f None b = None) -> foldl f None l = None.
Proof. intros Hf. induction l as [|b l IH]; [done|]. cbn. by rewrite Hf. Qed.

Lemma setWidgetOnRow_shape wb (i : Z) (js : list Z) : forall cs cs',
  foldl (fun acc col => cs' ← acc; setCellWidget wb cs' i col) (Some cs) js
  = Some cs' ->
  shape cs' = shape cs.
Proof.
  induction js as [|j js IH]; intros cs cs'; cbn [foldl].
  - by intros [= <-].
  - cbn [mbind option_bind].
    destruct (setCellWidget wb cs i j) as [cs1|] eqn:H1.
    + intros H. rewrite (IH _ _ H). by apply (setCell_shape (withWidget wb) cs cs1 i j).
    + by rewrite foldl_None.
Qed.

Lemma setWidgetOnCells_shape cs cs' (widget : option Widget) (r : RectangleGrid) :
  setWidgetOnCells cs widget r = Some cs' -> shape cs' = shape cs.
Proof.
  unfold setWidgetOnCells. cbn zeta.
  generalize (zrange (gY r) (gY r + gHeight r)). intros rows. revert cs.
  induction rows as [|i rows IH]; intros cs; cbn [foldl].
  - by intros [= <-].
  - destruct (foldl (fun acc col => cs' ← acc; setCellWidget (AsWidgetBase <$> widget) cs' i col)
                (Some cs) (zrange (gX r) (gX r + gWidth r))) as [cs1|] eqn:H1.
    + intros H. rewrite (IH _ H). by eapply setWidgetOnRow_shape.
    + rewrite foldl_None; [done|]. intros b. by apply foldl_None.
Qed.

Lemma setCellRowColumn_shape cs cs' (y x : Z) :
  setCellRowColumn cs y x = Some cs' -> shape cs' = shape cs.
Proof. apply (setCell_shape (withPosition y x)). Qed.

Lemma growRows_rows (rsf : slice Z) cs cs1 :
  Slice.wf rsf -> Slice.wf cs ->
  growRows rsf cs = Some cs1 ->
  len cs1 = Nat.max (len cs) (len rsf)
  /\ forall i r, arr cs1 !! i = Some r ->
       ((i < len cs)%nat -> arr cs !! i = Some r)
       /\ ((len cs <= i)%nat -> arr cs !! i = Some r \/ r = nil).
Proof.
  unfold growRows, Slice.wf, cap. intros Hr Hc.
  destruct (Nat.ltb_spec (len cs) (len rsf)) as [Hlt|Hge].
  2:{ intros [= <-]. split; [lia|]. intros i r Hi. split; [done|by left]. }
  destruct (Nat.ltb_spec (length (arr cs)) (length (arr rsf))) as [Hcap|Hcap].
  - intros [= <-]. unfold copy, make; cbn [arr len].
    rewrite Nat.min_r by lia. split; [lia|]. intros i r Hi. split.
    + intros Hlt'. rewrite lookup_app_l in Hi by (rewrite length_take; lia).
      by rewrite lookup_take_lt in Hi.
    + intros Hge. rewrite lookup_app_r in Hi by (rewrite length_take; lia).
      rewrite lookup_drop in Hi. apply lookup_replicate in Hi as [-> _]. by right.
  - unfold reslice, cap. rewrite decide_True by lia. intros [= <-]. cbn [arr len].
    split; [lia|]. intros i r Hi. split; [done|by left].
Qed.

Lemma growRow_cells (csf : slice Z) r r' :
  Slice.wf csf -> cap r = len r -> (len r <= len csf)%nat ->
  growRow csf r = Some r' ->
  len r' = len csf /\ cap r' = len csf
  /\ forall j c, arr r' !! j = Some c -> arr r !! j = Some c \/ c = zeroCell.
Proof.
  unfold growRow, Slice.wf, cap. intros Hc Hcap Hle.
  destruct (Nat.ltb_spec (len r) (len csf)) as [Hlt|Hge].
  2:{ intros [= <-]. split; [lia|]. split; [lia|]. intros j c Hj. by left. }
  destruct (Nat.ltb_spec (length (arr r)) (length (arr csf))) as [_|Hge]; [|lia].
  intros [= <-]. unfold copy, make; cbn [arr len]. rewrite Nat.min_r by lia.
  split; [done|]. split.
  - rewrite length_app, length_take, length_drop, length_replicate. lia.
  - intros j c Hj. destruct (decide (j < len r)%nat) as [Hjl|Hjl].
    + left. rewrite lookup_app_l in Hj by (rewrite length_take; lia).
      by rewrite lookup_take_lt in Hj.
    + right. rewrite lookup_app_r in Hj by (rewrite length_take; lia).
      rewrite lookup_drop in Hj. by apply lookup_replicate in Hj as [-> _].
Qed.

Lemma cellIn_lookup cs (i j : Z) c :
  cellIn cs i j = Some c
  <-> exists r, 0 <= i < Z.of_nat (len cs) /\ arr cs !! Z.to_nat i = Some r
        /\ 0 <= j < Z.of_nat (len r) /\ arr r !! Z.to_nat j = Some c.
Proof.
  unfold cellIn. split.
  - destruct (get cs i) as [r|] eqn:Hr; [|done]. cbn. intros Hc.
    apply get_Some_bounds in Hr as [Hi Hr]. apply get_Some_bounds in Hc as [Hj Hc].
    by exists r.
  - intros (r & Hi & Hr & Hj & Hc). unfold get. rewrite decide_True by done.
    rewrite Hr. cbn. by rewrite decide_True.
Qed.

Lemma growColumns_rect (csf : slice Z) cs cs2 :
  Slice.wf csf -> Slice.wf cs ->
  (forall i r, arr cs !! i = Some r ->
     ((i < len cs)%nat -> cap r = len r /\ (len r <= len csf)%nat)
     /\ ((len cs <= i)%nat -> cap r = 0%nat)) ->
  growColumns csf cs = Some cs2 ->
  len cs2 = len cs /\ rectOk (len csf) cs2
  /\ forall i j c, cellIn cs2 i j = Some c -> cellIn cs i j = Some c \/ c = zeroCell.
Proof.
  intros Hcsf Hwf Hrows. unfold growColumns.
  destruct (mapM (growRow csf) (elems cs)) as [rows|] eqn:Hm; [|done].
  cbn. intros [= <-]. cbn [arr len]. apply mapM_Some in Hm.
  pose proof (Forall2_length _ _ _ Hm) as Hlen. rewrite length_elems in Hlen by done.
  split; [done|]. split.
  - intros i r' Hi. cbn [arr len] in *. split.
    + intros Hlt. rewrite lookup_app_l in Hi by lia.
      destruct (Forall2_lookup_r _ _ _ _ _ Hm Hi) as (r & Hr & Hg).
      apply elems_lookup_Some in Hr as [Hr _].
      destruct (proj1 (Hrows i r Hr) Hlt) as [Hcap Hle].
      destruct (growRow_cells csf r r' Hcsf Hcap Hle Hg) as (? & ? & _). done.
    + intros Hge. rewrite lookup_app_r in Hi by lia. rewrite lookup_drop in Hi.
      apply (Hrows _ _ Hi). lia.
  - intros i j c Hc. apply cellIn_lookup in Hc as (r' & Hi & Hr' & Hj & Hc).
    cbn [arr len] in *. rewrite lookup_app_l in Hr' by lia.
    destruct (Forall2_lookup_r _ _ _ _ _ Hm Hr') as (r & Hr & Hg).
    apply elems_lookup_Some in Hr as [Hr Hlt].
    destruct (proj1 (Hrows _ r Hr) Hlt) as [Hcap Hle].
    destruct (growRow_cells csf r r' Hcsf Hcap Hle Hg) as (_ & _ & Hcells).
    destruct (Hcells _ c Hc) as [Hold | ->]; [|by right]. left.
    apply cellIn_lookup. exists r. split; [done|]. split; [done|]. split; [|done].
    apply lookup_lt_Some in Hold. unfold cap in Hcap. lia.
Qed.

(** [ensureSufficientSize] keeps the grid a rectangle, and a cell it
    adds is a zero cell. *)
Lemma ensureSufficientSize_rect (l l' : GridLayout) (rows columns : Z) :
  wf l -> rectangular l ->
  ensureSufficientSize l rows columns = Some l' ->
  rectangular l'
  /\ forall i j c, cellAt l' i j = Some c -> cellAt l i j = Some c \/ c = zeroCell.
Proof.
  intros [Hrsf Hcsf [Hcells Hrows] Hinfos] [Hlen Hrect]. unfold ensureSufficientSize.
  cbn zeta.
  destruct (sufficientStretchFactors_spec (rowStretchFactors l) rows Hrsf)
    as (Hrsf' & Hlr & _).
  destruct (sufficientStretchFactors_spec (columnStretchFactors l) columns Hcsf)
    as (Hcsf' & Hlc & _).
  set (rsf := sufficientStretchFactors (rowStretchFactors l) rows) in *.
  set (csf := sufficientStretchFactors (columnStretchFactors l) columns) in *.
  destruct (growRows_spec rsf (cells l) Hrsf' Hcells Hrows)
    as (cs1 & Hg1 & Hwf1 & Hrows1 & _ & _).
  rewrite Hg1. cbn [mbind option_bind].
  destruct (growRows_rows rsf (cells l) cs1 Hrsf' Hcells Hg1) as [Hlen1 Harr1].
  assert (forall i r, arr cs1 !! i = Some r ->
            ((i < len cs1)%nat -> cap r = len r /\ (len r <= len csf)%nat)
            /\ ((len cs1 <= i)%nat -> cap r = 0%nat)) as Hpre.
  { intros i r Hi. destruct (Harr1 i r Hi) as [Hold Hnew].
    assert (Slice.wf r) as Hwr.
    { rewrite Forall_forall in Hrows1. apply Hrows1. by eapply list_elem_of_lookup_2. }
    unfold Slice.wf in Hwr.
    destruct (decide (i < len (cells l))%nat) as [Hlt|Hge].
    - destruct (Hrect i r (Hold Hlt)) as [Hv _]. destruct (Hv Hlt) as [H1 H2].
      split; [intros _; lia|lia].
    - assert (cap r = 0%nat) as H0.
      { destruct Hnew as [Hi' | ->]; [lia| |done].
        destruct (Hrect i r Hi') as [_ Hh]. apply Hh. lia. }
      split; [intros _; lia|done]. }
  destruct (growColumns csf cs1) as [cs2|] eqn:Hg2; [|done]. cbn [mbind option_bind].
  destruct (bool_decide _); [|done]. intros [= <-].
  destruct (growColumns_rect csf cs1 cs2 Hcsf' Hwf1 Hpre Hg2)
    as (Hlen2 & Hrect2 & Hcells2).
  split.
  - split; cbn [cells rowStretchFactors columnStretchFactors]; [|exact Hrect2].
    rewrite Hlen2, Hlen1. lia.
  - intros i j c Hc. unfold cellAt in *. cbn [cells] in Hc.
    change (cellIn cs2 i j = Some c) in Hc.
    change (cellIn (cells l) i j = Some c \/ c = zeroCell).
    destruct (Hcells2 i j c Hc) as [H1 | ->]; [|by right]. left.
    apply cellIn_lookup in H1 as (r & Hi & Hr & Hj & Hcc).
    apply cellIn_lookup. exists r. destruct (Harr1 _ r Hr) as [Hold Hnew].
    destruct (decide (Z.to_nat i < len (cells l))%nat) as [Hlt|Hge].
    + split; [lia|]. split; [by apply Hold|done].
    + exfalso. assert (Slice.wf r) as Hwr.
      { rewrite Forall_forall in Hrows1. apply Hrows1. by eapply list_elem_of_lookup_2. }
      unfold Slice.wf in Hwr.
      assert (cap r = 0%nat) as H0.
      { destruct Hnew as [Hi' | ->]; [lia| |done].
        destruct (Hrect _ r Hi') as [_ Hh]. apply Hh. lia. }
      lia.
Qed.

Lemma previousRange_infoRange (l : GridLayout) (wb : positive)
    (info : gridLayoutWidgetInfo) :
  wf l -> widgetBase2Info l !! wb = Some info ->
  exists p, cell info = Some p /\ previousRange l wb = infoRange p info.
Proof.
  intros Hwf Hinfo. destruct (infoOk_range _ _ (wf_infos l Hwf wb info Hinfo))
    as (p & Hp & Hr & _).
  exists p. split; [done|]. unfold previousRange. by rewrite Hinfo, Hr.
Qed.

Lemma previousRange_eq (l l' : GridLayout) (wb : positive) :
  wf l -> wf l' -> widgetBase2Info l' !! wb = widgetBase2Info l !! wb ->
  previousRange l' wb = previousRange l wb.
Proof.
  intros Hwf Hwf' Heq. destruct (widgetBase2Info l !! wb) as [info|] eqn:Hinfo.
  - destruct (previousRange_infoRange l wb info Hwf Hinfo) as (p & Hp & ->).
    destruct (previousRange_infoRange l' wb info Hwf' Heq) as (p' & Hp' & ->).
    congruence.
  - unfold previousRange. by rewrite Heq, Hinfo.
Qed.

Lemma clearPreviousRange_shape (l l1 : GridLayout) (wb : positive) :
  clearPreviousRange l wb = Some l1 ->
  exists cs1, l1 = withCells l cs1 /\ shape cs1 = shape (cells l).
Proof.
  unfold clearPreviousRange. destruct (widgetBase2Info l !! wb) as [info|].
  - destruct (rangeFromGridLayoutWidgetInfo (cells l) info) as [old|]; [|done]. cbn.
    destruct (setWidgetOnCells (cells l) None old) as [cs|] eqn:Hs; [|done]. cbn.
    intros [= <-]. exists cs. split; [done|]. by eapply setWidgetOnCells_shape.
  - intros [= <-]. exists (cells l). split; [by destruct l|done].
Qed.

(** [SetRange] keeps the grid a rectangle and every widget of a cell
    registered. *)
Lemma SetRange_rect (l l' : GridLayout) (widget : option Widget) (r : RectangleGrid)
    (e : option string) :
  wf l -> rectangular l -> registered l ->
  SetRange l widget r = Some (e, l') ->
  rectangular l' /\ registered l'.
Proof.
  intros Hwf Hrect Hreg Hs.
  assert (wf l') as Hwf'.
  { destruct (SetRange_total l widget r Hwf) as (e' & l'' & Heq & H').
    rewrite Hs in Heq. by injection Heq as <- <-. }
  revert Hs. unfold SetRange, fail.
  destruct widget as [w|]; [|by intros [= <- <-]].
  destruct (container l) as [c0|] eqn:Hc; [|by intros [= <- <-]].
  destruct (negb (containsHandle c0 (Handle w))); [by intros [= <- <-]|].
  destruct ((gX r <? 0) || (gY r <? 0)) eqn:Hxy; [by intros [= <- <-]|].
  destruct ((gWidth r <? 1) || (gHeight r <? 1)) eqn:Hwh; [by intros [= <- <-]|].
  apply orb_false_iff in Hxy as [HX%Z.ltb_ge HY%Z.ltb_ge].
  apply orb_false_iff in Hwh as [HW%Z.ltb_ge HH%Z.ltb_ge].
  cbn zeta. set (wb := AsWidgetBase w).
  destruct (clearPreviousRange_spec l wb Hwf) as (cs1 & Hcl & Hwf1 & Hu1).
  destruct (clearPreviousRange_shape l _ wb Hcl) as (cs1' & Heq & Hsh1).
  assert (cs1' = cs1) as -> by (by apply (f_equal cells) in Heq).
  rewrite Hcl. cbn [mbind option_bind].
  assert (rectangular (withCells l cs1)) as Hrect1.
  { destruct Hrect as [Hlen Hok].
    split; cbn [cells rowStretchFactors columnStretchFactors withCells].
    - rewrite (shape_len _ _ Hsh1). exact Hlen.
    - by eapply rectOk_shape. }
  destruct (ensureSufficientSize_grows (withCells l cs1) (gY r + gHeight r)
              (gX r + gWidth r) Hwf1)
    as (l2 & He & Hwf2 & _ & _ & _ & _ & _ & _ & Hinfos & Hbounds & _ & _).
  rewrite He. cbn [mbind option_bind].
  destruct (ensureSufficientSize_rect _ _ _ _ Hwf1 Hrect1 He) as [Hrect2 Hprov].
  assert (forall i j, inRange r i j = true -> is_Some (cellIn (cells l2) i j)) as Hin2.
  { intros i j Hij%inRange_spec. apply (Hbounds i j); lia. }
  destruct (Hin2 (gY r) (gX r)) as [c2 Hc2]; [apply inRange_spec; lia|].
  assert (cellAddr (cells l2) (gY r) (gX r) = Some (Z.to_nat (gY r), Z.to_nat (gX r)))
    as ->.
  { unfold cellAddr. unfold cellIn in Hc2.
    destruct (get (cells l2) (gY r)); [|done]. cbn in Hc2 |- *. by rewrite Hc2. }
  cbn [mbind option_bind].
  destruct Hwf2 as [Hrsf2 Hcsf2 Hok2 Hinfos2].
  destruct (setCell_spec (withPosition (gY r) (gX r)) (cells l2) (gY r) (gX r) Hok2)
    as (cs3 & Hs3 & Hu3); [by eexists|].
  change (setCellRowColumn (cells l2) (gY r) (gX r) = Some cs3) in Hs3.
  rewrite Hs3. cbn [mbind option_bind].
  cbn [cells withCells withInfos].
  destruct (setWidgetOnCells_spec cs3 (Some w) r) as (cs4 & Hs4 & Hu4).
  { by eapply updated_gridOk. }
  { intros i j Hij. eapply updated_is_Some; [exact Hu3|]. by apply Hin2. }
  rewrite Hs4. cbn [mbind option_bind]. unfold succeed. intros [= <- <-].
  apply setCellRowColumn_shape in Hs3. apply setWidgetOnCells_shape in Hs4.
  split.
  - destruct Hrect2 as [Hlen2 Hok2']. split;
      cbn [cells rowStretchFactors columnStretchFactors withCells withInfos].
    + rewrite (shape_len _ _ Hs4), (shape_len _ _ Hs3). exact Hlen2.
    + eapply rectOk_shape; [exact Hs4|]. by eapply rectOk_shape.
  - destruct Hreg as [Hcellreg Hspans]. cbn [widgetBase2Info withCells] in Hinfos.
    split.
    + intros i j c wb' Hcell Hwb'. unfold cellAt in Hcell. cbn [cells withCells] in Hcell.
      change (cellIn cs4 i j = Some c) in Hcell.
      destruct Hu4 as (_ & _ & Hu4). rewrite Hu4 in Hcell.
      destruct (cellIn cs3 i j) as [c3|] eqn:Hc3; [|done]. cbn in Hcell.
      injection Hcell as <-.
      destruct (inRange r i j) eqn:Hij.
      { cbn in Hwb'. injection Hwb' as <-. fold wb.
        match goal with |- inRange (previousRange ?l0 _) _ _ = true =>
          destruct (previousRange_infoRange l0 wb _ Hwf' (lookup_insert_eq _ _ _))
            as (p & Hp & ->) end.
        cbn [cell] in Hp. injection Hp as <-.
        revert Hij. rewrite !inRange_spec. cbn. rewrite !Z2Nat.id by done. done. }
      destruct Hu3 as (_ & _ & Hu3). rewrite Hu3 in Hc3.
      destruct (cellIn (cells l2) i j) as [c2'|] eqn:Hc2'; [|done]. cbn in Hc3.
      injection Hc3 as <-.
      assert (widgetBase c2' = Some wb') as Hw2.
      { by destruct ((i =? gY r) && (j =? gX r)). }
      destruct (Hprov i j c2' Hc2') as [Hc1 | ->]; [|done].
      unfold cellAt in Hc1. cbn [cells withCells] in Hc1.
      change (cellIn cs1 i j = Some c2') in Hc1.
      destruct Hu1 as (_ & _ & Hu1). rewrite Hu1 in Hc1.
      destruct (cellIn (cells l) i j) as [c1|] eqn:Hc0; [|done]. cbn in Hc1.
      injection Hc1 as <-.
      destruct (inRange (previousRange l wb) i j) eqn:Hprev; [done|].
      pose proof (Hcellreg i j c1 wb' Hc0 Hw2) as Hold.
      destruct (decide (wb' = wb)) as [->|Hne]; [congruence|].
      rewrite (previousRange_eq l _ wb' Hwf Hwf'); [done|].
      cbn [widgetBase2Info withCells withInfos].
      by rewrite lookup_insert_ne, Hinfos.
    + cbn [widgetBase2Info withCells withInfos].
      rewrite Hinfos. apply map_Forall_insert_2; [cbn; lia|done].
Qed.

Lemma SetRowStretchFactor_rect (l l' : GridLayout) (row factor : Z)
    (e : option string) :
  wf l -> rectangular l -> registered l ->
  SetRowStretchFactor l row factor = Some (e, l') ->
  rectangular l' /\ registered l'.
Proof.
  intros Hwf Hrect Hreg Hs.
  assert (wf l') as Hwf'.
  { destruct (SetRowStretchFactor_total l row factor Hwf) as (e' & l'' & Heq & H').
    rewrite Hs in Heq. by injection Heq as <- <-. }
  revert Hwf' Hs. unfold SetRowStretchFactor, fail, succeed. intros Hwf'.
  destruct (row <? 0) eqn:Hrow; [by intros [= <- <-]|].
  destruct (negb (factor =? RowStretchFactor l row)); [|by intros [= <- <-]].
  destruct (container l) as [c0|]; [|by intros [= <- <-]].
  destruct (factor <? 1); [by intros [= <- <-]|].
  destruct (ensureSufficientSize l (row + 1) (Z.of_nat (len (columnStretchFactors l))))
    as [l1|] eqn:He; [|done].
  cbn [mbind option_bind].
  destruct (set (rowStretchFactors l1) row factor) as [sf|] eqn:Hset; [|done].
  cbn [mbind option_bind]. intros [= <- <-]. clear Hrow.
  destruct (ensureSufficientSize_rect _ _ _ _ Hwf Hrect He) as [[Hlen Hok] Hprov].
  destruct (ensureSufficientSize_grows l (row + 1)
              (Z.of_nat (len (columnStretchFactors l))) Hwf)
    as (l1' & He' & _ & _ & _ & _ & _ & _ & _ & Hinfos & _).
  rewrite He in He'. injection He' as <-.
  unfold set in Hset. destruct (decide _) in Hset; [|done]. injection Hset as <-.
  split.
  - split; cbn; done.
  - destruct Hreg as [Hcellreg Hspans]. split; [|by cbn; rewrite Hinfos].
    intros i j c wb Hc Hwb. destruct (Hprov i j c Hc) as [H0 | ->]; [|done].
    rewrite (previousRange_eq l _ wb Hwf Hwf'); [by apply (Hcellreg i j c wb)|].
    cbn. by rewrite Hinfos.
Qed.

Lemma SetColumnStretchFactor_rect (l l' : GridLayout) (column factor : Z)
    (e : option string) :
  wf l -> rectangular l -> registered l ->
  SetColumnStretchFactor l column factor = Some (e, l') ->
  rectangular l' /\ registered l'.
Proof.
  intros Hwf Hrect Hreg Hs.
  assert (wf l') as Hwf'.
  { destruct (SetColumnStretchFactor_total l column factor Hwf)
      as (e' & l'' & Heq & H').
    rewrite Hs in Heq. by injection Heq as <- <-. }
  revert Hwf' Hs. unfold SetColumnStretchFactor, fail, succeed. intros Hwf'.
  destruct (column <? 0) eqn:Hrow; [by intros [= <- <-]|].
  destruct (negb (factor =? ColumnStretchFactor l column)); [|by intros [= <- <-]].
  destruct (container l) as [c0|]; [|by intros [= <- <-]].
  destruct (factor <? 1); [by intros [= <- <-]|].
  destruct (ensureSufficientSize l (Z.of_nat (len (rowStretchFactors l))) (column + 1))
    as [l1|] eqn:He; [|done].
  cbn [mbind option_bind].
  destruct (set (columnStretchFactors l1) column factor) as [sf|] eqn:Hset; [|done].
  cbn [mbind option_bind]. intros [= <- <-]. clear Hrow.
  destruct (ensureSufficientSize_rect _ _ _ _ Hwf Hrect He) as [[Hlen Hok] Hprov].
  destruct (ensureSufficientSize_grows l (Z.of_nat (len (rowStretchFactors l)))
              (column + 1) Hwf)
    as (l1' & He' & _ & _ & _ & _ & _ & _ & _ & Hinfos & _).
  rewrite He in He'. injection He' as <-.
  unfold set in Hset. destruct (decide _) in Hset; [|done]. injection Hset as <-.
  split.
  - split; cbn; done.
  - destruct Hreg as [Hcellreg Hspans]. split; [|by cbn; rewrite Hinfos].
    intros i j c wb Hc Hwb. destruct (Hprov i j c Hc) as [H0 | ->]; [|done].
    rewrite (previousRange_eq l _ wb Hwf Hwf'); [by apply (Hcellreg i j c wb)|].
    cbn. by rewrite Hinfos.
Qed.

(** The layouts a program can make are rectangles in which a cell shows a
    widget inside the range of the widget only. *)
Lemma reachable_rect (l : GridLayout) : reachable l -> rectangular l /\ registered l.
Proof.
  induction 1 as [|l c Hl IH|l widget r e l' Hl IH Hs|l row factor e l' Hl IH Hs
                  |l column factor e l' Hl IH Hs].
  - split.
    + split; [done|]. intros i r Hi. cbn in Hi. by rewrite lookup_nil in Hi.
    + split; [|apply map_Forall_empty]. intros i j c wb Hc.
      apply cellIn_lookup in Hc as (r & Hi & _). cbn in Hi. lia.
  - destruct IH as [[? ?] [? ?]]. split; split; done.
  - destruct IH. apply reachable_wf in Hl as [Hwf _]. by eapply SetRange_rect.
  - destruct IH. apply reachable_wf in Hl as [Hwf _]. by eapply SetRowStretchFactor_rect.
  - destruct IH. apply reachable_wf in Hl as [Hwf _].
    by eapply SetColumnStretchFactor_rect.
Qed.

Lemma previousRange_registered (l : GridLayout) (wb : positive) (i j : Z) :
  inRange (previousRange l wb) i j = true -> is_Some (widgetBase2Info l !! wb).
Proof.
  unfold previousRange. destruct (widgetBase2Info l !! wb); [by eexists|].
  by rewrite inRange_zeroRange.
Qed.


Lemma rectangular_cellAt (l : GridLayout) (i j : Z) :
  wf l -> rectangular l ->
  is_Some (cellAt l i j)
  <-> 0 <= i < Z.of_nat (length (rowFactors l))
      /\ 0 <= j < Z.of_nat (length (columnFactors l)).
Proof.
  intros [Hrsf Hcsf [Hcells Hrows] _] [Hlen Hrect].
  unfold rowFactors, columnFactors. rewrite !length_elems by done.
  change (cellAt l i j) with (cellIn (cells l) i j). split.
  - intros [c Hc]. apply cellIn_lookup in Hc as (r & Hi & Hr & Hj & _).
    destruct (Hrect _ r Hr) as [Hv _]. destruct Hv as [Hl _]; lia.
  - intros [Hi Hj]. unfold Slice.wf, cap in Hcells.
    destruct (lookup_lt_is_Some_2 (arr (cells l)) (Z.to_nat i)) as [r Hr]; [lia|].
    destruct (Hrect _ r Hr) as [Hv _]. destruct Hv as [Hl Hc]; [lia|].
    unfold cap in Hc.
    destruct (lookup_lt_is_Some_2 (arr r) (Z.to_nat j)) as [c Hcc]; [lia|].
    exists c. apply cellIn_lookup. exists r. repeat split; try done; lia.
Qed.

(** X24: on a layout made by the methods a cell shows a widget only
    inside the range of the widget: for a child of the container [Range]
    returns a range, and the cell lies in it. *)
Theorem cell_widget_in_Range (l : GridLayout) (w : Widget) (i j : Z)
    (c0 : Container) :
  reachable l ->
  widgetAt l i j = Some (AsWidgetBase w) ->
  container l = Some c0 -> Handle w ∈ Children c0 ->
  exists r, Range l (Some w) = Some (Some r) /\ inRange r i j = true.
Proof.
  intros Hreach Hw Hc Hchild.
  pose proof (reachable_wf l Hreach) as [Hwf _].
  pose proof (reachable_rect l Hreach) as [_ [Hcellreg _]].
  unfold widgetAt in Hw. destruct (cellAt l i j) as [c|] eqn:Hcell; [|done].
  cbn in Hw. pose proof (Hcellreg i j c _ Hcell Hw) as Hin.
  destruct (previousRange_registered _ _ _ _ Hin) as [info Hinfo].
  exists (previousRange l (AsWidgetBase w)). split; [|done].
  destruct (infoOk_range _ _ (wf_infos l Hwf _ info Hinfo)) as (p & Hp & Hr & _).
  unfold Range, previousRange. rewrite Hinfo, Hc. unfold containsHandle.
  rewrite bool_decide_eq_true_2 by done. by rewrite Hr.
Qed.


Lemma cell_widget_in_Range_witness :
  exists r, Range exampleGrid (Some (exampleWidget 1)) = Some (Some r)
            /\ inRange r 0 2 = true.
Proof.
  apply (cell_widget_in_Range exampleGrid (exampleWidget 1) 0 2 exampleContainer
           exampleGrid_reachable);
    [reflexivity|reflexivity|apply exampleWidget_child; lia].
Defined.


End GridLayoutFacts.

(** ** gridLayoutItem *)

Section GridItemFacts.
Import GridItem.

(** In a proof about an example grid, the DPI conversions are applied to
    the spacing and the margins of the grid only. *)
Ltac expose_conversions li :=
  unfold MinSizeForSize, computeMinSize, minWidths, rowHeights, rowHeightCell,
    usedSpace, axisMargins, sectionSizesForSpace, sectionInfos, scanSection,
    visitCell, visitItem, spannedWidth, initialState;
  change (spacing li) with 6;
  change (dpi li) with 96.

(** The example grids are what [CreateLayoutItem] makes of the grid
    model after [SetRange] for their widgets, placed in a container. *)
Lemma examples_are_snapshots :
  let size := {| Width := 220; Height := 100 |} in
  placed margins9 6 96 size
    <$> CreateLayoutItem (fun wb _ => plainItem wb 50 20)
          (gridOf [(1%positive, rangeAt 0 0 1 1); (2%positive, rangeAt 1 0 1 1)]) 96
  = Some twoColumns
  /\ placed margins9 6 96 size
       <$> CreateLayoutItem (fun wb _ => plainItem wb 50 20)
             (gridOf [(1%positive, rangeAt 1 0 1 1)]) 96
     = Some emptyFirstColumn
  /\ placed margins9 6 96 size
       <$> CreateLayoutItem (fun wb _ => plainItem wb 100 20)
             (gridOf [(1%positive, rangeAt 0 0 2 1)]) 96
     = Some spannedOnly
  /\ placed margins9 6 96 {| Width := 400; Height := 100 |}
       <$> CreateLayoutItem
             (fun wb _ => match wb with
                          | 1%positive => greedyItem 1 100 20
                          | 2%positive => greedyItem 2 50 20
                          | _ => hSpacer 3
                          end)
             (gridOf [(1%positive, rangeAt 0 0 1 1); (2%positive, rangeAt 1 0 1 1);
                      (3%positive, rangeAt 1 1 1 1)]) 96
     = Some greedyMix
  /\ placed margins0 6 96 size
       <$> CreateLayoutItem (fun wb _ => plainItem wb 0 0)
             (gridOf [(1%positive, rangeAt 0 0 1 1)]) 96
     = Some zeroSizeGrid.
Proof. repeat split; vm_compute; reflexivity. Qed.

Ltac example_consistent :=
  constructor;
  [ reflexivity
  | repeat constructor
  | intros r c cl it Hcl Hit Hlay;
    destruct r as [|[|r]]; destruct c as [|[|c]];
    vm_compute in Hcl; try discriminate Hcl;
    injection Hcl as <-; cbn in Hit; try discriminate Hit;
    injection Hit as <-;
    (eexists; split; [vm_compute; reflexivity|]);
    eexists (_, _), _;
    (split; [reflexivity|]); (split; [vm_compute; reflexivity|]);
    cbn; lia ].

Lemma examples_consistent :
  consistent twoColumns /\ consistent emptyFirstColumn /\ consistent spannedOnly
  /\ consistent greedyMix /\ consistent zeroSizeGrid.
Proof. split; [|split; [|split; [|split]]]; example_consistent. Qed.

(** C3: two columns of stretch factor 1 and minimum width 50 without a
    maximum, margins 9 left and right, spacing 6: for the space 220 both
    columns get the width 98. *)
Theorem sectionSizes_two_columns
    (IntFrom96DPI : Z -> Z -> Z) (MarginsFrom96DPI : Margins -> Z -> Margins) :
  IntFrom96DPI 6 96 = 6 ->
  MarginsFrom96DPI margins9 96 = margins9 ->
  sectionSizesForSpace IntFrom96DPI MarginsFrom96DPI twoColumns Horizontal 220 []
  = Some [98; 98].
Proof.
  intros Hs Hm. expose_conversions twoColumns.
  change (margins twoColumns) with margins9.
  rewrite Hs, Hm. vm_compute. reflexivity.
Qed.

Lemma sectionSizes_two_columns_witness :
  sectionSizesForSpace linearFrom96DPI linearMarginsFrom96DPI twoColumns
                       Horizontal 220 []
  = Some [98; 98].
Proof.
  apply (sectionSizes_two_columns linearFrom96DPI linearMarginsFrom96DPI);
    reflexivity.
Defined.


Lemma addSections_shifted (sp : Pixel) (l : list Pixel) (k : nat) (acc : Pixel) :
  foldl (fun acc '(i, w) =>
           if w >? 0
           then (if (0 <? i)%nat then acc + sp else acc) + w
           else acc)
        acc (imap (fun i => pair (S k + i)%nat) l)
  = acc + sumPixels (positiveSizes l) + sp * Z.of_nat (length (positiveSizes l)).
Proof.
  revert k acc. induction l as [|w l IH]; intros k acc.
  - cbn. lia.
  - cbn [imap foldl]. unfold positiveSizes. rewrite filter_cons.
    rewrite (imap_ext _ (fun i => pair (S (S k) + i)%nat))
      by (intros; cbn; f_equal; lia).
    rewrite IH. unfold positiveSizes.
    change (0 <? S k + 0)%nat with true. cbn match.
    destruct (Z.gtb_spec w 0); destruct (decide (0 < w)); try lia.
    unfold sumPixels. cbn [length foldr]. rewrite Nat2Z.inj_succ. lia.
Qed.

Lemma addSections_cons (sp start w : Pixel) (l : list Pixel) :
  addSections sp start (w :: l)
  = (if w >? 0 then start + w else start)
    + sumPixels (positiveSizes l) + sp * Z.of_nat (length (positiveSizes l)).
Proof.
  unfold addSections. cbn [imap foldl].
  rewrite (imap_ext _ (fun i => pair (S 0 + i)%nat)) by done.
  rewrite addSections_shifted. cbn. done.
Qed.

(** When the first section has a positive size, the total is the one
    the specification states. *)
Lemma addSections_first_positive (sp start w : Pixel) (l : list Pixel) :
  0 < w -> addSections sp start (w :: l) = specTotal sp start (w :: l).
Proof.
  intros Hw. rewrite addSections_cons. unfold specTotal, positiveSizes.
  rewrite filter_cons. destruct (Z.gtb_spec w 0); destruct (decide (0 < w)); try lia.
  unfold sumPixels. cbn [length foldr]. rewrite Nat.sub_succ, Nat.sub_0_r. lia.
Qed.

(** When the first section has no size and a later one has, the total
    has one spacing more. *)
Lemma addSections_first_empty (sp start w : Pixel) (l : list Pixel) :
  w <= 0 -> positiveSizes l <> [] ->
  addSections sp start (w :: l) = specTotal sp start (w :: l) + sp.
Proof.
  intros Hw Hl. rewrite addSections_cons. unfold specTotal, positiveSizes in *.
  rewrite filter_cons. destruct (Z.gtb_spec w 0); destruct (decide (0 < w)); try lia.
  destruct (filter _ l) as [|x l']; [done|]. cbn [length].
  rewrite Nat.sub_succ, Nat.sub_0_r, Nat2Z.inj_succ. lia.
Qed.

(** C8, at a grid whose first column is empty: [MinSizeForSize] adds a
    spacing in front of the only column that has a width, and returns
    the width 74 where the sizes, the spacing between them and the
    margins make 68. *)
Theorem MinSizeForSize_empty_first_column :
  minWidths emptyFirstColumn = Some [0; 50]
  /\ fst <$> MinSizeForSize linearFrom96DPI linearMarginsFrom96DPI
                            emptyFirstColumn {| Width := 220; Height := 100 |}
     = Some {| Width := 74; Height := 38 |}
  /\ specTotal 6 (9 + 9) [0; 50] = 68.
Proof. repeat split; vm_compute; reflexivity. Qed.

(** C5: a second call of [MinSizeForSize] for the same size returns the
    same result and leaves the item as it is; it is answered from the
    cache when the result has a positive width and a positive height;
    a cached size is returned without any computation; and the cache of
    a new snapshot is empty. *)
Theorem MinSizeForSize_twice
    (IntFrom96DPI : Z -> Z -> Z) (MarginsFrom96DPI : Margins -> Z -> Margins)
    (li li1 : gridLayoutItem) (size r : SizePixels) :
  MinSizeForSize IntFrom96DPI MarginsFrom96DPI li size = Some (r, li1) ->
  MinSizeForSize IntFrom96DPI MarginsFrom96DPI li1 size = Some (r, li1)
  /\ (0 < Width r -> 0 < Height r -> size2MinSize li1 !! size = Some r)
  /\ (forall li2, cells li2 <> [] -> size2MinSize li2 !! size = Some r ->
        MinSizeForSize IntFrom96DPI MarginsFrom96DPI li2 size = Some (r, li2))
  /\ (forall create l ctx li0,
        CreateLayoutItem create l ctx = Some li0 -> size2MinSize li0 = ∅).
Proof.
  intros H.
  assert (forall li2, cells li2 <> [] -> size2MinSize li2 !! size = Some r ->
            MinSizeForSize IntFrom96DPI MarginsFrom96DPI li2 size = Some (r, li2))
    as Hhit.
  { intros li2 Hne Hl. unfold MinSizeForSize.
    destruct (decide (length (cells li2) = 0%nat)) as [Hz|_].
    - by destruct (cells li2).
    - by rewrite Hl. }
  assert (forall create l ctx li0,
            CreateLayoutItem create l ctx = Some li0 -> size2MinSize li0 = ∅)
    as Hnew.
  { intros create l ctx li0. unfold CreateLayoutItem.
    destruct (mapM _ _); cbn; [|done]. by intros [= <-]. }
  split; [|split; [|split; [exact Hhit|exact Hnew]]].
  - unfold MinSizeForSize in H.
    destruct (decide (length (cells li) = 0%nat)) as [Hz|Hz].
    { injection H as <- <-. unfold MinSizeForSize. by rewrite decide_True. }
    destruct (size2MinSize li !! size) as [m|] eqn:Hm.
    { injection H as <- <-. apply Hhit; [|done]. by destruct (cells li). }
    destruct (computeMinSize _ _ li size) as [r'|] eqn:Hc; cbn in H; [|done].
    destruct ((Width r' >? 0) && (Height r' >? 0)) eqn:Hpos.
    + injection H as <- <-. apply Hhit.
      * cbn. by destruct (cells li).
      * cbn. by rewrite lookup_insert_eq.
    + injection H as <- <-. unfold MinSizeForSize.
      rewrite decide_False by done. by rewrite Hm, Hc; cbn; rewrite Hpos.
  - intros Hw Hh. unfold MinSizeForSize in H.
    destruct (decide (length (cells li) = 0%nat)) as [Hz|Hz].
    { injection H as <- <-. cbn in Hw. lia. }
    destruct (size2MinSize li !! size) as [m|] eqn:Hm.
    { by injection H as <- <-. }
    destruct (computeMinSize _ _ li size) as [r'|] eqn:Hc; cbn in H; [|done].
    destruct ((Width r' >? 0) && (Height r' >? 0)) eqn:Hpos.
    + injection H as <- <-. cbn. by rewrite lookup_insert_eq.
    + injection H as <- <-. apply andb_false_iff in Hpos. lia.
Qed.

Lemma MinSizeForSize_twice_witness :
  MinSizeForSize linearFrom96DPI linearMarginsFrom96DPI
    (withCache twoColumns
       {[ {| Width := 220; Height := 100 |} := {| Width := 124; Height := 38 |} ]})
    {| Width := 220; Height := 100 |}
  = Some ({| Width := 124; Height := 38 |},
          withCache twoColumns
            {[ {| Width := 220; Height := 100 |}
               := {| Width := 124; Height := 38 |} ]}).
Proof.
  refine (proj1 (MinSizeForSize_twice linearFrom96DPI linearMarginsFrom96DPI
                   twoColumns _ {| Width := 220; Height := 100 |} _ _)).
  vm_compute. reflexivity.
Defined.

(** A result without a positive width and height is not cached: after
    the first call the cache has no entry for the size, and the second
    call computes the size again. *)
Lemma MinSizeForSize_not_cached :
  MinSizeForSize linearFrom96DPI linearMarginsFrom96DPI zeroSizeGrid
                 {| Width := 220; Height := 100 |}
  = Some (zeroSize, zeroSizeGrid)
  /\ size2MinSize zeroSizeGrid !! {| Width := 220; Height := 100 |} = None
  /\ ~ (forall li size r li1,
          MinSizeForSize linearFrom96DPI linearMarginsFrom96DPI li size
          = Some (r, li1) ->
          size2MinSize li1 !! size = Some r).
Proof.
  assert (MinSizeForSize linearFrom96DPI linearMarginsFrom96DPI zeroSizeGrid
                         {| Width := 220; Height := 100 |}
          = Some (zeroSize, zeroSizeGrid)) as H1 by (vm_compute; reflexivity).
  split; [exact H1|]. split; [reflexivity|].
  intros H. specialize (H _ _ _ _ H1). discriminate H.
Qed.

(** *** The minimum size of a section *)

Section ScanFacts.
Variable IntFrom96DPI : Z -> Z -> Z.
Variable MarginsFrom96DPI : Margins -> Z -> Margins.
Variable li : gridLayoutItem.
Variable o : Orientation.
Variable widths : list Z.

Lemma maxPixel_spec (a b : Z) : maxPixel a b = Z.max a b.
Proof. unfold maxPixel. destruct (Z.gtb_spec a b); lia. Qed.

(** The minimum after an item: the larger of the minimum before and of
    what the item asks for when it spans one section, the minimum before
    otherwise. *)
Lemma visitItem_min (a0 a : sectionScan) (it : LayoutItem) :
  visitItem IntFrom96DPI li o widths a0 it = Some a ->
  exists info, item2Info li !! Some (itemPtr it) = Some info
    /\ if decide (axisSpan o info = 1)
       then exists v, itemMinimum IntFrom96DPI li o widths it info = Some v
                      /\ scanMin a = Z.max (scanMin a0) v
       else scanMin a = scanMin a0.
Proof.
  unfold visitItem. destruct (item2Info li !! Some (itemPtr it)) as [info|]; [|done].
  cbn. intros H. exists info. split; [done|].
  destruct o; cbn [axisSpan itemMinimum] in *.
  - injection H as <-. cbn [scanMin].
    destruct (Z.eqb_spec (spanHorz info) 1) as [He|He].
    + rewrite decide_True by done. eexists. split; [done|]. apply maxPixel_spec.
    + by rewrite decide_False.
  - destruct (Z.eqb_spec (spanVert info) 1) as [He|He].
    + rewrite decide_True by done.
      destruct (HeightForWidth it) as [hfw|].
      * destruct (spannedWidth IntFrom96DPI li info widths) as [w|]; [|done].
        cbn in H. injection H as <-. cbn [scanMin].
        eexists. split; [done|]. apply maxPixel_spec.
      * cbn in H. injection H as <-. cbn [scanMin].
        eexists. split; [done|]. apply maxPixel_spec.
    + rewrite decide_False by done. cbn in H. by injection H as <-.
Qed.

(** The invariant of the scan of section i over its first n cells. *)
Definition scanned (i n : nat) (a : sectionScan) : Prop :=
  0 <= scanMin a
  /\ (forall j it info,
        (j < n)%nat -> singleSpanItemAt li o i j it info ->
        exists v, itemMinimum IntFrom96DPI li o widths it info = Some v
                  /\ v <= scanMin a)
  /\ (scanMin a = 0
      \/ exists j it info,
           (j < n)%nat /\ singleSpanItemAt li o i j it info
           /\ itemMinimum IntFrom96DPI li o widths it info = Some (scanMin a)).

Lemma scanned_step (i n : nat) (a0 a : sectionScan) :
  (n < otherAxisCount li o)%nat ->
  scanned i n a0 ->
  visitCell IntFrom96DPI li o widths i (Some a0) n = Some a ->
  scanned i (S n) a.
Proof.
  intros Hn (Hpos & Hub & Hex). unfold visitCell. cbn.
  destruct (sectionCell li o i n) as [c|] eqn:Hc; [|done]. cbn.
  assert (scanMin a = scanMin a0 ->
          (forall it info, ~ singleSpanItemAt li o i n it info) ->
          scanned i (S n) a) as Hskip.
  { intros Heq Hnone. unfold scanned. rewrite Heq. split; [done|]. split.
    - intros j it info Hj Hs. destruct (decide (j = n)) as [->|Hne].
      + by destruct (Hnone it info).
      + apply (Hub j); [lia|done].
    - destruct Hex as [?|(j & it & info & ? & ? & ?)]; [by left|].
      right. exists j, it, info. split; [lia|done]. }
  destruct (item c) as [it|] eqn:Hit.
  2:{ intros [= <-]. apply Hskip; [done|].
      intros it info (_ & c' & Hc' & Hit' & _). congruence. }
  destruct (shouldLayout it) eqn:Hsl.
  2:{ intros [= <-]. apply Hskip; [done|].
      intros it' info (_ & c' & Hc' & Hit' & Hsl' & _). congruence. }
  intros Hv. destruct (visitItem_min _ _ _ Hv) as (info & Hinfo & Hmin).
  destruct (decide (axisSpan o info = 1)) as [Hspan|Hspan].
  2:{ apply Hskip; [done|].
      intros it' info' (_ & c' & Hc' & Hit' & _ & Hinfo' & Hspan'). congruence. }
  destruct Hmin as (v & Hv' & Hmax).
  split; [lia|]. split.
  - intros j it' info' Hj Hs. destruct (decide (j = n)) as [->|Hne].
    + destruct Hs as (_ & c' & Hc' & Hit' & _ & Hinfo' & _).
      assert (it' = it) as -> by congruence.
      assert (info' = info) as -> by congruence.
      exists v. split; [done|lia].
    + destruct (Hub j it' info') as (v' & ? & ?); [lia|done|].
      exists v'. split; [done|lia].
  - destruct (Z.max_spec (scanMin a0) v) as [[Hlt Hm]|[Hge Hm]].
    + right. exists n, it, info. split; [lia|]. split.
      * split; [done|]. exists c. done.
      * congruence.
    + destruct Hex as [Hz|(j & it' & info' & ? & ? & Hj)]; [left; lia|].
      right. exists j, it', info'. split; [lia|]. split; [done|]. congruence.
Qed.

Lemma scanned_fold (i n : nat) (a : sectionScan) :
  (n <= otherAxisCount li o)%nat ->
  foldl (visitCell IntFrom96DPI li o widths i) (Some emptyScan) (seq 0 n) = Some a ->
  scanned i n a.
Proof.
  revert a. induction n as [|n IH]; intros a Hn.
  - cbn. intros [= <-]. split; [done|]. split; [|by left]. intros; lia.
  - rewrite seq_S, foldl_app. cbn [foldl Nat.add].
    destruct (foldl _ _ (seq 0 n)) as [a0|] eqn:Hf; [|done].
    intros Hv. eapply scanned_step; [lia| |exact Hv]. apply IH; [lia|done].
Qed.

End ScanFacts.

(** *** The scan returns *)

Section ScanTotal.
Variable IntFrom96DPI : Z -> Z -> Z.
Variable li : gridLayoutItem.
Variable widths : list Z.

Lemma cellAt_is_Some (r c : nat) :
  consistent li ->
  (r < length (rowStretchFactors li))%nat ->
  (c < length (columnStretchFactors li))%nat ->
  is_Some (cellAt li r c).
Proof.
  intros [Hrows Hcols _] Hr Hc. unfold cellAt.
  destruct (lookup_lt_is_Some_2 (cells li) r) as [rw Hrw]; [lia|].
  rewrite Hrw. cbn. apply lookup_lt_is_Some_2.
  by rewrite (Forall_lookup_1 _ _ _ _ Hcols Hrw).
Qed.

Lemma spannedWidth_fold (spacingPixels first : Z) (indices : list Z) :
  forall width : Z,
  Forall (fun i => 0 <= i < Z.of_nat (length widths)) indices ->
  is_Some
    (foldl (fun acc i =>
              width ← acc;
              w ← pixelAt widths i;
              Some (if w >? 0
                    then (if i >? first then width + w + spacingPixels
                          else width + w)
                    else width))
           (Some width) indices).
Proof.
  induction indices as [|i indices IH]; intros width Hall; [by eexists|].
  apply Forall_cons in Hall as [Hi Hall]. cbn [foldl mbind option_bind].
  unfold pixelAt at 2. rewrite decide_True by lia.
  destruct (lookup_lt_is_Some_2 widths (Z.to_nat i)) as [w ->]; [lia|].
  by apply IH.
Qed.

Lemma spannedWidth_total (info : gridLayoutItemInfo) :
  infoInGrid li info ->
  length widths = length (columnStretchFactors li) ->
  is_Some (spannedWidth IntFrom96DPI li info widths).
Proof.
  intros (p & c & Hp & Hc & Hlo & Hhi) Hlen. unfold spannedWidth.
  rewrite Hp. cbn. rewrite Hc. cbn. apply spannedWidth_fold.
  apply Forall_forall. intros i. unfold zrange. rewrite list_elem_of_fmap.
  intros (k & -> & Hk%elem_of_seq). lia.
Qed.

Lemma visitItem_total (o : Orientation) (a : sectionScan) (it : LayoutItem)
    (r c : nat) (cl : gridLayoutItemCell) :
  consistent li ->
  (o = Vertical -> length widths = length (columnStretchFactors li)) ->
  cellAt li r c = Some cl -> item cl = Some it -> shouldLayout it = true ->
  is_Some (visitItem IntFrom96DPI li o widths a it).
Proof.
  intros Hok Hw Hcl Hit Hlay.
  destruct (items_known li Hok r c cl it Hcl Hit Hlay) as (info & Hinfo & Hgrid).
  unfold visitItem. rewrite Hinfo. cbn. destruct o; [by eexists|].
  destruct (spanVert info =? 1); [|by eexists].
  destruct (HeightForWidth it) as [hfw|]; [|by eexists].
  destruct (spannedWidth_total info Hgrid (Hw eq_refl)) as [w ->]. by eexists.
Qed.

Lemma visitCell_total (o : Orientation) (i j : nat) (a : sectionScan) :
  consistent li ->
  (o = Vertical -> length widths = length (columnStretchFactors li)) ->
  (i < length (axisStretchFactors li o))%nat ->
  (j < otherAxisCount li o)%nat ->
  is_Some (visitCell IntFrom96DPI li o widths i (Some a) j).
Proof.
  intros Hok Hw Hi Hj. unfold visitCell. cbn.
  assert (exists r c, sectionCell li o i j = cellAt li r c
                      /\ is_Some (cellAt li r c)) as (r & c & -> & [cl Hcl]).
  { destruct o; cbn in *; eexists _, _; (split; [reflexivity|]);
      by apply cellAt_is_Some. }
  rewrite Hcl. cbn. destruct (item cl) as [it|] eqn:Hit; [|by eexists].
  destruct (shouldLayout it) eqn:Hlay; [|by eexists].
  by eapply visitItem_total.
Qed.

Lemma scanSection_total (o : Orientation) (i : nat) :
  consistent li ->
  (o = Vertical -> length widths = length (columnStretchFactors li)) ->
  (i < length (axisStretchFactors li o))%nat ->
  is_Some (scanSection IntFrom96DPI li o widths i).
Proof.
  intros Hok Hw Hi. unfold scanSection.
  assert (forall js a, Forall (fun j => (j < otherAxisCount li o)%nat) js ->
            is_Some (foldl (visitCell IntFrom96DPI li o widths i) (Some a) js))
    as Hfold.
  { induction js as [|j js IH]; intros a Hall; [by eexists|].
    apply Forall_cons in Hall as [Hj Hall]. cbn [foldl].
    destruct (visitCell_total o i j a Hok Hw Hi Hj) as [a' ->]. by apply IH. }
  apply Hfold. apply Forall_forall. intros j Hj%elem_of_seq. lia.
Qed.

(** X15: on a snapshot that is a grid the scan of the sections returns
    for columns and for rows: no index is out of range and no info is
    missing. *)
Lemma sectionInfos_total (o : Orientation) :
  consistent li ->
  (o = Vertical -> length widths = length (columnStretchFactors li)) ->
  exists infos, sectionInfos IntFrom96DPI li o widths = Some infos.
Proof.
  intros Hok Hw. apply (mapM_is_Some_2 _). apply Forall_forall.
  intros [i sf] Hin. apply elem_of_lookup_imap_1 in Hin as (k & x & [= -> ->] & Hk).
  apply lookup_lt_Some in Hk. cbn.
  destruct (scanSection_total o k Hok Hw Hk) as [a ->]. by eexists.
Qed.

End ScanTotal.

Lemma sectionInfos_total_witness :
  (exists infos, sectionInfos linearFrom96DPI greedyMix Horizontal [] = Some infos)
  /\ (exists infos,
        sectionInfos linearFrom96DPI greedyMix Vertical [98; 98] = Some infos).
Proof.
  split.
  - apply (sectionInfos_total linearFrom96DPI greedyMix [] Horizontal);
      [apply examples_consistent|discriminate].
  - apply (sectionInfos_total linearFrom96DPI greedyMix [98; 98] Vertical);
      [apply examples_consistent|reflexivity].
Defined.


Lemma sectionInfos_lookup IntFrom96DPI li o widths infos i s :
  sectionInfos IntFrom96DPI li o widths = Some infos ->
  infos !! i = Some s ->
  exists sf a, axisStretchFactors li o !! i = Some sf
    /\ scanSection IntFrom96DPI li o widths i = Some a
    /\ s = {| index := i; secMinSize := scanMin a; secMaxSize := scanMax a;
              stretch := maxi 1 sf;
              hasGreedyNonSpacer := scanGreedyNonSpacer a;
              hasGreedySpacer := scanGreedySpacer a |}.
Proof.
  unfold sectionInfos. intros Hm Hi.
  apply mapM_Some in Hm.
  destruct (Forall2_lookup_r _ _ _ _ _ Hm Hi) as ([i' sf] & Hx & Hf).
  rewrite list_lookup_imap in Hx.
  destruct (axisStretchFactors li o !! i) as [sf'|] eqn:Hsf; [|done].
  cbn in Hx. injection Hx as <- <-.
  destruct (scanSection IntFrom96DPI li o widths i) as [a|]; [|done].
  cbn in Hf. injection Hf as <-. eauto.
Qed.

Lemma sectionInfos_length IntFrom96DPI li o widths infos :
  sectionInfos IntFrom96DPI li o widths = Some infos ->
  length infos = length (axisStretchFactors li o).
Proof.
  unfold sectionInfos. intros Hm. apply mapM_Some in Hm.
  apply Forall2_length in Hm. by rewrite length_imap in Hm.
Qed.

Lemma minWidthCell_zero li row n (ws : list Z) (acc : option (list Z)) col :
  (forall r c cl it info,
     cellAt li r c = Some cl -> item cl = Some it -> shouldLayout it = true ->
     item2Info li !! Some (itemPtr it) = Some info -> spanHorz info <> 1) ->
  (acc = None \/ acc = Some (replicate n 0)) ->
  minWidthCell li row acc col = Some ws -> ws = replicate n 0.
Proof.
  intros Hall [-> | ->]; [done|]. unfold minWidthCell. cbn.
  destruct (cellAt li row col) as [cl|] eqn:Hc; [|done]. cbn.
  destruct (item cl) as [it|] eqn:Hit; [|by intros [= <-]].
  destruct (shouldLayout it) eqn:Hsl; [|by intros [= <-]].
  destruct (item2Info li !! Some (itemPtr it)) as [info|] eqn:Hinfo; [|done]. cbn.
  destruct (Z.eqb_spec (spanHorz info) 1) as [He|He]; [|by intros [= <-]].
  by destruct (Hall _ _ _ _ _ Hc Hit Hsl Hinfo).
Qed.

Lemma minWidths_zero li (ws : list Z) :
  (forall r c cl it info,
     cellAt li r c = Some cl -> item cl = Some it -> shouldLayout it = true ->
     item2Info li !! Some (itemPtr it) = Some info -> spanHorz info <> 1) ->
  minWidths li = Some ws -> Forall (fun w => w = 0) ws.
Proof.
  intros Hall. unfold minWidths.
  destruct (cells li !! 0%nat) as [row0|]; [|done]. cbn.
  set (n := length row0).
  assert (forall rows acc, (acc = None \/ acc = Some (replicate n 0)) ->
            let r := foldl (fun acc row => foldl (minWidthCell li row) acc (seq 0 n))
                           acc rows in
            r = None \/ r = Some (replicate n 0)) as Hrows.
  { induction rows as [|row rows IH]; intros acc Hacc; [done|].
    cbn [foldl]. apply IH.
    generalize (seq 0 n). intros cols. revert acc Hacc.
    induction cols as [|col cols IHc]; intros acc Hacc; [done|].
    cbn [foldl]. apply IHc.
    destruct (minWidthCell li row acc col) as [ws'|] eqn:Hw; [|by left].
    right. f_equal. by eapply minWidthCell_zero. }
  intros Hf. destruct (Hrows (seq 0 (length (cells li))) (Some (replicate n 0)))
    as [Hn|Hs]; [by right| |].
  - cbn in Hn. congruence.
  - cbn in Hs. rewrite Hf in Hs. injection Hs as ->.
    apply Forall_replicate. done.
Qed.

(** C4: the minimum size of a section is the largest of what the
    laid-out items spanning that section alone ask for, and 0 without
    such an item: an item that spans more than one section adds nothing
    to the minimum size of the sections it covers.  A grid in which
    every item spans several sections has the minimum size 0 in every
    section of that axis, in [sectionSizesForSpace] and in the column
    minimum widths of [MinSizeForSize]. *)
Theorem minimum_sizes_single_span
    (IntFrom96DPI : Z -> Z -> Z) (li : gridLayoutItem) (o : Orientation)
    (widths : list Z) (infos : list gridLayoutSectionInfo) :
  sectionInfos IntFrom96DPI li o widths = Some infos ->
  (forall i s, infos !! i = Some s ->
     0 <= secMinSize s
     /\ (forall j it info, singleSpanItemAt li o i j it info ->
           exists v, itemMinimum IntFrom96DPI li o widths it info = Some v
                     /\ v <= secMinSize s)
     /\ (secMinSize s = 0
         \/ exists j it info,
              singleSpanItemAt li o i j it info
              /\ itemMinimum IntFrom96DPI li o widths it info = Some (secMinSize s))
     /\ ((forall j it info, ~ singleSpanItemAt li o i j it info) ->
         secMinSize s = 0))
  /\ (forall ws,
        (forall r c cl it info,
           cellAt li r c = Some cl -> item cl = Some it -> shouldLayout it = true ->
           item2Info li !! Some (itemPtr it) = Some info -> spanHorz info <> 1) ->
        minWidths li = Some ws -> Forall (fun w => w = 0) ws).
Proof.
  intros Hinfos. split; [|intros ws Hall Hws; by eapply minWidths_zero].
  intros i s Hi.
  destruct (sectionInfos_lookup _ _ _ _ _ _ _ Hinfos Hi) as (sf & a & Hsf & Hscan & ->).
  cbn [secMinSize].
  destruct (scanned_fold IntFrom96DPI li o widths i (otherAxisCount li o) a)
    as (Hpos & Hub & Hex); [lia|exact Hscan|].
  split; [done|]. split; [|split].
  - intros j it info Hs. apply (Hub j); [|done]. by destruct Hs.
  - destruct Hex as [?|(j & it & info & _ & ? & ?)]; [by left|].
    right. by exists j, it, info.
  - intros Hnone. destruct Hex as [?|(j & it & info & _ & Hs & _)]; [done|].
    by destruct (Hnone j it info).
Qed.

Lemma minimum_sizes_single_span_witness :
  exists infos,
    sectionInfos linearFrom96DPI spannedOnly Horizontal [] = Some infos
    /\ forall i s, infos !! i = Some s -> secMinSize s = 0.
Proof.
  eexists. split; [vm_compute; reflexivity|].
  intros i s Hi.
  refine (proj2 (proj2 (proj2 (proj1
            (minimum_sizes_single_span linearFrom96DPI spannedOnly Horizontal []
               _ _) i s Hi))) _); [vm_compute; reflexivity|].
  intros j it info (Hj & c & Hc & Hit & _ & Hinfo & Hspan).
  cbn in Hj.
  assert (j = 0%nat) as -> by lia.
  destruct i as [|[|i]]; [| |by destruct i].
  - vm_compute in Hc. injection Hc as <-. injection Hit as <-.
    vm_compute in Hinfo. injection Hinfo as <-. discriminate Hspan.
  - vm_compute in Hc. injection Hc as <-. injection Hit as <-.
    vm_compute in Hinfo. injection Hinfo as <-. discriminate Hspan.
Defined.

(** *** The order of the sections *)

(** [Less] is a strict weak order. *)
Ltac less_cases :=
  unfold Less;
  repeat match goal with
         | |- context [hasGreedyNonSpacer ?a] => destruct (hasGreedyNonSpacer a)
         | |- context [hasGreedySpacer ?a] => destruct (hasGreedySpacer a)
         end;
  cbn [eqb];
  repeat match goal with
         | |- context [Z.quot ?x ?y] => generalize (Z.quot x y); intro
         end;
  repeat match goal with
         | |- context [?x =? ?y] => destruct (Z.eqb_spec x y)
         | |- context [?x <? ?y] => destruct (Z.ltb_spec x y)
         | |- context [?x >? ?y] => destruct (Z.gtb_spec x y)
         end;
  try discriminate; try reflexivity; intros; try lia.

Lemma Less_irrefl a : Less a a = false.
Proof. less_cases. Qed.

Lemma Less_asym a b : Less a b = true -> Less b a = false.
Proof. less_cases. Qed.

Lemma Less_trans a b c : Less a b = true -> Less b c = true -> Less a c = true.
Proof. less_cases. Qed.

Lemma Less_negtrans a b c :
  Less a b = false -> Less b c = false -> Less a c = false.
Proof. less_cases. Qed.

(** A higher tier is less. *)
Lemma Less_tier a b : (tier a < tier b)%nat -> Less a b = true.
Proof. unfold tier. less_cases. Qed.

Lemma insertSection_perm x l : insertSection x l ≡ₚ x :: l.
Proof.
  induction l as [|y l IH]; cbn; [done|].
  destruct (Less y x); [|done]. rewrite IH. apply Permutation_swap.
Qed.

Lemma sortStable_perm l : sortStable l ≡ₚ l.
Proof.
  induction l as [|x l IH]; cbn; [done|].
  rewrite insertSection_perm. by rewrite IH.
Qed.

Lemma sortStable_length l : length (sortStable l) = length l.
Proof. apply Permutation_length, sortStable_perm. Qed.

Lemma before_Less_false a b : before a b -> Less b a = false.
Proof. intros [H|[H _]]; [by apply Less_asym|done]. Qed.

Lemma before_tier a b : before a b -> (tier a <= tier b)%nat.
Proof.
  intros H. apply before_Less_false in H.
  destruct (decide (tier a <= tier b)%nat) as [|Hn]; [done|].
  rewrite Less_tier in H by lia. done.
Qed.

Lemma insertSection_sorted x l :
  StronglySorted before l ->
  Forall (fun y => (index x < index y)%nat) l ->
  StronglySorted before (insertSection x l).
Proof.
  induction 1 as [|y l Hl IH Hy]; intros Hx; cbn.
  { repeat constructor. }
  apply Forall_cons in Hx as [Hxy Hx].
  destruct (Less y x) eqn:Hyx.
  - constructor; [by apply IH|].
    rewrite insertSection_perm. constructor; [by left|done].
  - constructor; [by constructor|].
    constructor; [right; done|].
    rewrite Forall_forall in Hy, Hx |- *. intros z Hz.
    right. split; [|by apply Hx].
    destruct (Hy z Hz) as [Hyz|[Hzy _]].
    + destruct (Less z x) eqn:Hzx; [|done].
      by rewrite (Less_trans _ _ _ Hyz Hzx) in Hyx.
    + by eapply Less_negtrans.
Qed.

Lemma sortStable_sorted l :
  StronglySorted (fun a b => (index a < index b)%nat) l ->
  StronglySorted before (sortStable l).
Proof.
  induction 1 as [|x l Hl IH Hx]; cbn; [constructor|].
  apply insertSection_sorted; [done|]. by rewrite sortStable_perm.
Qed.

Lemma StronglySorted_lookup {A} (R : relation A) (l : list A) :
  StronglySorted R l <->
  forall i j x y, (i < j)%nat -> l !! i = Some x -> l !! j = Some y -> R x y.
Proof.
  split.
  - induction 1 as [|a l Hl IH Ha]; intros i j x y Hij Hi Hj; [done|].
    destruct j as [|j]; [lia|]. cbn in Hj.
    destruct i as [|i]; cbn in Hi.
    + injection Hi as <-. rewrite Forall_forall in Ha. apply Ha.
      by eapply list_elem_of_lookup_2.
    + eapply (IH i j); [lia|done..].
  - induction l as [|a l IH]; intros H; constructor.
    + apply IH. intros i j x y Hij Hi Hj. by apply (H (S i) (S j)); [lia|..].
    + apply Forall_forall. intros y Hy.
      apply list_elem_of_lookup in Hy as [j Hj]. by apply (H 0%nat (S j)); [lia|..].
Qed.

(** The sort of the Go library is any stable sort: a permutation of the
    sections that is in the order [before] is the list [sortStable]
    returns. *)
Lemma sortStable_unique l l' :
  StronglySorted (fun a b => (index a < index b)%nat) l ->
  l' ≡ₚ l -> StronglySorted before l' -> l' = sortStable l.
Proof.
  intros Hl Hp Hs. apply (StronglySorted_unique_strong before); [|done| |].
  - intros a b _ _ Hab Hba. exfalso.
    pose proof (before_Less_false _ _ Hab) as H1.
    pose proof (before_Less_false _ _ Hba) as H2.
    destruct Hab as [?|[_ ?]]; [congruence|].
    destruct Hba as [?|[_ ?]]; [congruence|]. lia.
  - by apply sortStable_sorted.
  - by rewrite sortStable_perm.
Qed.

Lemma filter_none {A} (P : A -> Prop) `{forall x, Decision (P x)} (l : list A) :
  Forall (fun x => ~ P x) l -> filter P l = [].
Proof.
  induction 1 as [|x l Hx _ IH]; [done|].
  rewrite filter_cons, decide_False by done. exact IH.
Qed.

(** A list in the order of the tiers is its three tiers, one after the
    other. *)
Lemma tiers_split l :
  StronglySorted (fun a b => (tier a <= tier b)%nat) l ->
  l = filter (fun s => tier s = 0%nat) l
      ++ filter (fun s => tier s = 1%nat) l
      ++ filter (fun s => tier s = 2%nat) l.
Proof.
  assert (forall s, (tier s <= 2)%nat) as Hle.
  { intros s. unfold tier. destruct (hasGreedyNonSpacer s), (hasGreedySpacer s); lia. }
  induction 1 as [|x l Hl IH Hx]; [done|].
  rewrite !filter_cons.
  destruct (decide (tier x = 0%nat)) as [H0|H0].
  { rewrite !decide_False by lia. cbn. by rewrite <- IH. }
  rewrite (filter_none (fun s => tier s = 0%nat) l) in *
    by (eapply Forall_impl; [exact Hx|]; cbn; intros; lia).
  destruct (decide (tier x = 1%nat)) as [H1|H1].
  { rewrite !decide_False by lia. cbn. cbn in IH. by rewrite <- IH. }
  rewrite (filter_none (fun s => tier s = 1%nat) l) in *
    by (eapply Forall_impl; [exact Hx|]; cbn; intros; lia).
  pose proof (Hle x). rewrite decide_True by lia. cbn. cbn in IH. by rewrite <- IH.
Qed.

Lemma tierVisits_take (l : list gridLayoutSectionInfo) (offset count : nat) :
  (offset + count <= length l)%nat ->
  tierVisits l offset count = Some <$> take count (drop offset l).
Proof.
  intros Hle. unfold tierVisits. apply list_eq. intros j.
  rewrite !list_lookup_fmap.
  destruct (decide (j < count)%nat) as [Hj|Hj].
  - rewrite lookup_seq_lt by done. cbn.
    rewrite lookup_take_lt by done. rewrite lookup_drop.
    destruct (lookup_lt_is_Some_2 l (offset + j)) as [x Hx]; [lia|].
    by rewrite Hx.
  - rewrite lookup_seq_ge by lia. by rewrite lookup_take_ge by lia.
Qed.

Lemma tierCount_sortStable l t : tierCount (sortStable l) t = tierCount l t.
Proof. unfold tierCount. by rewrite sortStable_perm. Qed.

Lemma tierCount_sum l :
  (tierCount l 0 + tierCount l 1 + tierCount l 2 = length l)%nat.
Proof.
  unfold tierCount. induction l as [|x l IH]; [done|].
  rewrite !filter_cons.
  assert (tier x <= 2)%nat
    by (unfold tier; destruct (hasGreedyNonSpacer x), (hasGreedySpacer x); lia).
  destruct (decide (tier x = 0%nat)), (decide (tier x = 1%nat)),
    (decide (tier x = 2%nat)); cbn [length]; lia.
Qed.

(** Each of the three loops reads the sections of its tier, in the
    sorted order. *)
Lemma tierVisits_tiers l :
  StronglySorted (fun a b => (index a < index b)%nat) l ->
  let sorted := sortStable l in
  let c0 := tierCount l 0 in
  let c1 := tierCount l 1 in
  tierVisits sorted 0 c0 = Some <$> filter (fun s => tier s = 0%nat) sorted
  /\ tierVisits sorted c0 c1 = Some <$> filter (fun s => tier s = 1%nat) sorted
  /\ tierVisits sorted (c0 + c1) (length l - c0 - c1)
     = Some <$> filter (fun s => tier s = 2%nat) sorted.
Proof.
  intros Hl sorted c0 c1.
  assert (StronglySorted (fun a b => (tier a <= tier b)%nat) sorted) as Ht.
  { eapply StronglySorted_lookup. intros i j x y Hij Hi Hj.
    apply before_tier.
    eapply (proj1 (StronglySorted_lookup before sorted)); [|done..].
    by apply sortStable_sorted. }
  pose proof (tiers_split sorted Ht) as Hsplit.
  pose proof (tierCount_sum l) as Hsum.
  assert (length (filter (fun s => tier s = 0%nat) sorted) = c0) as L0
    by apply tierCount_sortStable.
  assert (length (filter (fun s => tier s = 1%nat) sorted) = c1) as L1
    by apply tierCount_sortStable.
  assert (length (filter (fun s => tier s = 2%nat) sorted) = (length l - c0 - c1)%nat) as L2.
  { pose proof (tierCount_sortStable l 2) as H2. unfold tierCount in H2 at 1.
    fold sorted in H2. rewrite H2. subst c0 c1. lia. }
  assert (length sorted = length l) as Hlen by apply sortStable_length.
  rewrite !tierVisits_take by (subst c0 c1; lia).
  set (A := filter (fun s => tier s = 0%nat) sorted) in *.
  set (B := filter (fun s => tier s = 1%nat) sorted) in *.
  set (C := filter (fun s => tier s = 2%nat) sorted) in *.
  rewrite Hsplit at 1 2 3.
  split; [|split]; f_equal.
  - rewrite drop_0. by rewrite take_app_length' by done.
  - rewrite drop_app_length' by done. by rewrite take_app_length' by done.
  - rewrite app_assoc. rewrite drop_app_length' by (rewrite length_app; lia).
    rewrite take_ge by lia. done.
Qed.

Section FlagFacts.
Variable IntFrom96DPI : Z -> Z -> Z.
Variable li : gridLayoutItem.
Variable o : Orientation.
Variable widths : list Z.





End FlagFacts.

Lemma sectionInfos_index_sorted IntFrom96DPI li o widths infos :
  sectionInfos IntFrom96DPI li o widths = Some infos ->
  StronglySorted (fun a b => (index a < index b)%nat) infos.
Proof.
  intros H. apply StronglySorted_lookup. intros i j x y Hij Hi Hj.
  destruct (sectionInfos_lookup _ _ _ _ _ _ _ H Hi) as (? & ? & _ & _ & ->).
  destruct (sectionInfos_lookup _ _ _ _ _ _ _ H Hj) as (? & ? & _ & _ & ->).
  done.
Qed.





(** *** The distribution of the space *)

Section DistributionFacts.
Variable spacingPixels : Z.
Variable stretchFactors : list Z.



End DistributionFacts.

Section TierFacts.
Variable spacingPixels : Z.
Variable stretchFactors : list Z.







End TierFacts.


Lemma insertAll_length (asg : list (nat * Z)) (l : list Z) :
  length (insertAll l asg) = length l.
Proof.
  revert l. induction asg as [|[k v] asg IH]; intros l; cbn; [done|].
  unfold insertAll in IH. rewrite IH. apply length_insert.
Qed.


Lemma insertAll_lookup (asg : list (nat * Z)) (l : list Z) (k : nat) (v : Z) :
  NoDup asg.*1 -> (k, v) ∈ asg -> (k < length l)%nat ->
  insertAll l asg !! k = Some v.
Proof.
  revert l. induction asg as [|[k' v'] asg IH]; intros l Hnd Hin Hk.
  { by apply elem_of_nil in Hin. }
  cbn in Hnd. apply NoDup_cons in Hnd as [Hk' Hnd].
  change (insertAll l ((k', v') :: asg)) with (insertAll (<[k' := v']> l) asg).
  apply elem_of_cons in Hin as [Heq|Hin].
  - injection Heq as <- <-. clear IH.
    assert (forall l', l' !! k = Some v -> insertAll l' asg !! k = Some v) as Hkeep.
    { clear Hk. induction asg as [|[k2 v2] asg IH2]; intros l' Hl'; [done|].
      cbn in Hk', Hnd. apply NoDup_cons in Hnd as [_ Hnd].
      change (insertAll l' ((k2, v2) :: asg)) with (insertAll (<[k2 := v2]> l') asg).
      apply IH2; [|done|].
      - intros Hin. apply Hk'. by right.
      - rewrite list_lookup_insert_ne; [done|]. intros ->. apply Hk'. by left. }
    apply Hkeep. by apply list_lookup_insert_eq.
  - apply IH; [done|done|by rewrite length_insert].
Qed.

Section Totals.
Variable stretchFactors : list Z.




End Totals.



Lemma insertAll_app (l : list Z) (a1 a2 : list (nat * Z)) :
  insertAll l (a1 ++ a2) = insertAll (insertAll l a1) a2.
Proof. unfold insertAll. apply foldl_app. Qed.

Lemma sectionInfos_indices IntFrom96DPI li o widths infos :
  sectionInfos IntFrom96DPI li o widths = Some infos ->
  index <$> infos = seq 0 (length (axisStretchFactors li o)).
Proof.
  intros H. pose proof (sectionInfos_length _ _ _ _ _ H) as Hlen.
  apply list_eq. intros i. rewrite list_lookup_fmap.
  destruct (infos !! i) as [s|] eqn:Hs; cbn.
  - destruct (sectionInfos_lookup _ _ _ _ _ _ _ H Hs) as (? & ? & _ & _ & ->). cbn.
    symmetry. apply lookup_seq. split; [done|].
    rewrite <- Hlen. by eapply lookup_lt_Some.
  - symmetry. apply lookup_ge_None. rewrite length_seq, <- Hlen.
    by apply lookup_ge_None.
Qed.

(** The snapshot has the stretch factors of the grid model, none of
    which is below 1. *)
Lemma CreateLayoutItem_stretch_factors
    (createLayoutItemForWidgetWithContext : positive -> Z -> LayoutItem)
    (l : GridLayout.GridLayout) (ctx : Z) (li : gridLayoutItem) (o : Orientation) :
  GridLayout.factorsOk l ->
  CreateLayoutItem createLayoutItemForWidgetWithContext l ctx = Some li ->
  rowStretchFactors li = GridLayout.rowFactors l
  /\ columnStretchFactors li = GridLayout.columnFactors l
  /\ Forall (fun f => 1 <= f) (axisStretchFactors li o).
Proof.
  intros (_ & _ & Hr & Hc). unfold CreateLayoutItem. cbn zeta.
  destruct (mapM _ _) as [infos|]; [|done]. cbn. intros [= <-].
  split; [done|]. split; [done|]. by destruct o.
Qed.



(** *** Sizes within their bounds *)

Section Bounds.
Variable spacingPixels : Z.
Variable stretchFactors : list Z.

Lemma sectionSize_inBounds (st : distState) (f mn mx v : Z) :
  sectionSize st f mn mx = Some v ->
  mn <= v /\ (mn < mx -> v <= mx) /\ (mx <= mn -> v = mn).
Proof.
  unfold sectionSize. destruct (Z.ltb_spec mn mx) as [Hlt|Hge].
  - destruct (excessShare _ _ _) as [d|]; [|done]. cbn. intros [= <-].
    destruct (Z.ltb_spec (mn + d) mn); [lia|].
    destruct (Z.gtb_spec (mn + d) mx); lia.
  - intros [= <-]. lia.
Qed.

Lemma assign_inBounds (st st' : distState) (s : gridLayoutSectionInfo) :
  assign spacingPixels stretchFactors st s = Some st' ->
  exists v, sizes st' = <[index s := v]> (sizes st)
    /\ (index s < length (sizes st))%nat /\ inBounds s v.
Proof.
  unfold assign. destruct (stretchFactors !! index s) as [f|]; [|done]. cbn.
  destruct (sectionSize st f (secMinSize s) (secMaxSize s)) as [v|] eqn:Hv; [|done].
  cbn. destruct (decide _) as [Hk|]; [|done]. intros [= <-]. cbn.
  exists v. split; [done|]. split; [done|]. by eapply sectionSize_inBounds.
Qed.

Lemma visits_None (visits : list (option gridLayoutSectionInfo)) :
  foldl (fun acc visit =>
           s ← acc; info ← visit; assign spacingPixels stretchFactors s info)
        None visits = None.
Proof. induction visits as [|v visits IH]; [done|]. exact IH. Qed.

Lemma visits_inBounds (visits : list (option gridLayoutSectionInfo)) :
  forall st st',
    foldl (fun acc visit =>
             s ← acc; info ← visit; assign spacingPixels stretchFactors s info)
          (Some st) visits = Some st' ->
    exists secs asg,
      visits = Some <$> secs
      /\ asg.*1 = index <$> secs
      /\ sizes st' = insertAll (sizes st) asg
      /\ Forall2 (fun s kv => inBounds s kv.2) secs asg
      /\ Forall (fun s => (index s < length (sizes st))%nat) secs.
Proof.
  induction visits as [|visit visits IH]; intros st st' Hfold.
  { injection Hfold as <-. exists [], []. repeat split; constructor. }
  cbn [foldl] in Hfold. cbn in Hfold.
  destruct visit as [s|]; cbn in Hfold; [|by rewrite visits_None in Hfold].
  destruct (assign spacingPixels stretchFactors st s) as [st1|] eqn:Ha;
    [|by rewrite visits_None in Hfold].
  destruct (assign_inBounds _ _ _ Ha) as (v & Hsz & Hk & Hb).
  destruct (IH st1 st' Hfold) as (secs & asg & -> & Hkeys & Hsizes & Hall & Hlen).
  exists (s :: secs), ((index s, v) :: asg).
  split; [done|]. split; [cbn; by rewrite Hkeys|].
  split; [by rewrite Hsizes, Hsz|]. split; [by constructor|].
  constructor; [done|]. eapply Forall_impl; [exact Hlen|]. cbn. intros s'.
  by rewrite Hsz, length_insert.
Qed.

End Bounds.

Lemma sectionSizes_assigned
    (IntFrom96DPI : Z -> Z -> Z) (MarginsFrom96DPI : Margins -> Z -> Margins)
    (li : gridLayoutItem) (o : Orientation) (space : Z) (widths : list Z)
    (infos : list gridLayoutSectionInfo) (sizes : list Z) :
  sectionInfos IntFrom96DPI li o widths = Some infos ->
  sectionSizesForSpace IntFrom96DPI MarginsFrom96DPI li o space widths = Some sizes ->
  length sizes = length (axisStretchFactors li o)
  /\ forall i s, infos !! i = Some s ->
       exists v, sizes !! i = Some v /\ inBounds s v.
Proof.
  intros Hinfos. unfold sectionSizesForSpace. rewrite Hinfos. cbn.
  destruct (distribute _ _ _ _) as [st|] eqn:Hd; [|done]. cbn. intros [= <-].
  unfold distribute in Hd. cbn zeta in Hd.
  pose proof (sectionInfos_index_sorted _ _ _ _ _ Hinfos) as Hidx.
  pose proof (sectionInfos_length _ _ _ _ _ Hinfos) as Hlen.
  pose proof (sectionInfos_indices _ _ _ _ _ Hinfos) as Hind.
  destruct (tierVisits_tiers infos Hidx) as (V0 & V1 & V2). cbn zeta in V0, V1, V2.
  rewrite Hlen in V2.
  set (sorted := sortStable infos) in *.
  set (sp := IntFrom96DPI (spacing li) (dpi li)) in *.
  set (sfs := axisStretchFactors li o) in *.
  set (st0 := initialState IntFrom96DPI MarginsFrom96DPI li o space infos) in *.
  unfold runTier in Hd. rewrite V0, V1, V2 in Hd.
  destruct (foldl _ (Some (startTier _ st0)) _) as [st1|] eqn:H1; [|done].
  cbn in Hd.
  destruct (foldl _ (Some (startTier _ st1)) _) as [st2|] eqn:H2; [|done].
  cbn in Hd. rename Hd into H3.
  destruct (visits_inBounds sp sfs _ _ _ H1) as (s0 & a0 & E0 & K0 & Z0 & B0 & _).
  destruct (visits_inBounds sp sfs _ _ _ H2) as (s1 & a1 & E1 & K1 & Z1 & B1 & _).
  destruct (visits_inBounds sp sfs _ _ _ H3) as (s2 & a2 & E2 & K2 & Z2 & B2 & _).
  apply (inj (fmap Some)) in E0, E1, E2.
  cbn [sizes startTier] in Z0, Z1, Z2.
  assert (sorted = s0 ++ s1 ++ s2) as Hsplit.
  { rewrite <- E0, <- E1, <- E2. apply tiers_split.
    apply StronglySorted_lookup. intros i j x y Hij Hi Hj. apply before_tier.
    eapply (proj1 (StronglySorted_lookup before sorted)); [|done..].
    by apply sortStable_sorted. }
  set (asg := a0 ++ a1 ++ a2).
  assert (sizes st = insertAll (replicate (length sfs) 0) asg) as Hsz.
  { unfold asg. rewrite Z2, Z1, Z0, !insertAll_app. reflexivity. }
  assert (asg.*1 = index <$> sorted) as Hkeys.
  { unfold asg. rewrite Hsplit, !fmap_app. by rewrite K0, K1, K2. }
  assert (Forall2 (fun s kv => inBounds s kv.2) sorted asg) as Hall.
  { rewrite Hsplit. unfold asg. by repeat apply Forall2_app. }
  assert (asg.*1 ≡ₚ seq 0 (length sfs)) as Hperm.
  { rewrite Hkeys, <- Hind. apply fmap_Permutation, sortStable_perm. }
  assert (NoDup asg.*1) as Hnd by (rewrite Hperm; apply NoDup_seq).
  split; [by rewrite Hsz, insertAll_length, length_replicate|].
  intros i s Hi.
  assert (s ∈ sorted) as Hs.
  { unfold sorted. rewrite sortStable_perm. by eapply list_elem_of_lookup_2. }
  apply list_elem_of_lookup in Hs as [k Hk].
  destruct (Forall2_lookup_l _ _ _ _ _ Hall Hk) as ([k' v] & Hkv & Hb).
  assert (k' = index s) as ->.
  { assert (asg.*1 !! k = Some k') as Hx by (by rewrite list_lookup_fmap, Hkv).
    rewrite Hkeys, list_lookup_fmap, Hk in Hx. by injection Hx. }
  assert (index s = i) as Hidx'.
  { destruct (sectionInfos_lookup _ _ _ _ _ _ _ Hinfos Hi) as (? & ? & _ & _ & ->).
    done. }
  exists v. split; [|exact Hb]. rewrite Hsz, <- Hidx'.
  apply insertAll_lookup; [done|by eapply list_elem_of_lookup_2|].
  rewrite length_replicate, Hidx'. rewrite <- Hlen. by eapply lookup_lt_Some.
Qed.

(** X10: [sectionSizesForSpace] returns one size for every section,
    and no section gets less than its minimum size; a section whose
    minimum is below its maximum gets at most its maximum, any other
    section gets its minimum, whatever the space is. *)
Theorem sectionSizes_within_bounds
    (IntFrom96DPI : Z -> Z -> Z) (MarginsFrom96DPI : Margins -> Z -> Margins)
    (li : gridLayoutItem) (o : Orientation) (space : Z) (widths : list Z)
    (infos : list gridLayoutSectionInfo) (sizes : list Z) :
  sectionInfos IntFrom96DPI li o widths = Some infos ->
  sectionSizesForSpace IntFrom96DPI MarginsFrom96DPI li o space widths = Some sizes ->
  length sizes = length (axisStretchFactors li o)
  /\ forall i s, infos !! i = Some s ->
       exists v, sizes !! i = Some v /\ inBounds s v.
Proof. apply sectionSizes_assigned. Qed.

Lemma sectionSizes_within_bounds_witness :
  length [98; 98] = length (axisStretchFactors twoColumns Horizontal)
  /\ forall i s,
       [ {| index := 0; secMinSize := 50; secMaxSize := 32768; stretch := 1;
            hasGreedyNonSpacer := false; hasGreedySpacer := false |};
         {| index := 1; secMinSize := 50; secMaxSize := 32768; stretch := 1;
            hasGreedyNonSpacer := false; hasGreedySpacer := false |} ] !! i = Some s ->
       exists v, [98; 98] !! i = Some v /\ inBounds s v.
Proof.
  apply (sectionSizes_within_bounds linearFrom96DPI linearMarginsFrom96DPI
           twoColumns Horizontal 220 []); vm_compute; reflexivity.
Defined.

Lemma sectionSizesForSpace_length
    (IntFrom96DPI : Z -> Z -> Z) (MarginsFrom96DPI : Margins -> Z -> Margins)
    (li : gridLayoutItem) (o : Orientation) (space : Z) (widths sizes : list Z) :
  sectionSizesForSpace IntFrom96DPI MarginsFrom96DPI li o space widths = Some sizes ->
  length sizes = length (axisStretchFactors li o).
Proof.
  intros Hs. unfold sectionSizesForSpace in Hs.
  destruct (sectionInfos IntFrom96DPI li o widths) as [infos|] eqn:Hinfos; [|done].
  apply (sectionSizes_assigned IntFrom96DPI MarginsFrom96DPI li o space widths infos);
    [done|]. unfold sectionSizesForSpace. by rewrite Hinfos.
Qed.

(** *** The minimum size and the candidate size *)

Section SizeIndependent.
Variable IntFrom96DPI : Z -> Z -> Z.
Variable MarginsFrom96DPI : Margins -> Z -> Margins.
Variable li : gridLayoutItem.
Hypothesis Hno : noHeightForWidth li.

Lemma rowHeightCell_widths (widths1 widths2 : list Z) (row col : nat)
    (acc : option Z) :
  rowHeightCell IntFrom96DPI li widths1 row acc col
  = rowHeightCell IntFrom96DPI li widths2 row acc col.
Proof.
  unfold rowHeightCell. destruct acc as [maxHeight|]; [|done]. cbn.
  destruct (cellAt li row col) as [cl|] eqn:Hcl; [|done]. cbn.
  destruct (item cl) as [it|] eqn:Hit; [|done].
  destruct (shouldLayout it) eqn:Hlay; [|done].
  by rewrite (Hno row col cl it Hcl Hit Hlay).
Qed.

Lemma rowHeights_widths (widths1 widths2 heights1 heights2 : list Z) :
  length widths1 = length widths2 -> length heights1 = length heights2 ->
  rowHeights IntFrom96DPI li widths1 heights1
  = rowHeights IntFrom96DPI li widths2 heights2.
Proof.
  intros Hw Hh. unfold rowHeights. rewrite Hw, Hh.
  apply mapM_ext. intros row.
  generalize (Some 0). induction (seq 0 (length widths2)) as [|col cols IH];
    intros acc; [done|].
  cbn [foldl]. rewrite (rowHeightCell_widths widths1 widths2). apply IH.
Qed.

Lemma computeMinSize_any_size (size1 size2 r1 r2 : SizePixels) :
  computeMinSize IntFrom96DPI MarginsFrom96DPI li size1 = Some r1 ->
  computeMinSize IntFrom96DPI MarginsFrom96DPI li size2 = Some r2 ->
  r1 = r2.
Proof.
  unfold computeMinSize. intros E1 E2.
  destruct (minWidths li) as [ws|]; [|by cbn in E1]. cbn [mbind option_bind] in E1, E2.
  set (sizesFor := sectionSizesForSpace IntFrom96DPI MarginsFrom96DPI li) in *.
  destruct (sizesFor Horizontal (Width size1) []) as [widths1|] eqn:W1; [|by cbn in E1].
  destruct (sizesFor Horizontal (Width size2) []) as [widths2|] eqn:W2; [|by cbn in E2].
  cbn [mbind option_bind] in E1, E2.
  destruct (sizesFor Vertical (Height size1) widths1) as [heights1|] eqn:H1; [|by cbn in E1].
  destruct (sizesFor Vertical (Height size2) widths2) as [heights2|] eqn:H2; [|by cbn in E2].
  cbn [mbind option_bind] in E1, E2. subst sizesFor.
  apply sectionSizesForSpace_length in W1, W2, H1, H2.
  rewrite (rowHeights_widths widths1 widths2 heights1 heights2) in E1 by congruence.
  destruct (rowHeights IntFrom96DPI li widths2 heights2) as [heights|]; [|by cbn in E1].
  cbn [mbind option_bind] in E1, E2. congruence.
Qed.

End SizeIndependent.

(** X12: on a new snapshot in which no item that is laid out has a
    height that depends on its width, [MinSizeForSize] returns the same
    size for every candidate size. *)
Theorem MinSizeForSize_any_size
    (IntFrom96DPI : Z -> Z -> Z) (MarginsFrom96DPI : Margins -> Z -> Margins)
    (li li1 li2 : gridLayoutItem) (size1 size2 r1 r2 : SizePixels) :
  noHeightForWidth li -> size2MinSize li = ∅ ->
  MinSizeForSize IntFrom96DPI MarginsFrom96DPI li size1 = Some (r1, li1) ->
  MinSizeForSize IntFrom96DPI MarginsFrom96DPI li size2 = Some (r2, li2) ->
  r1 = r2.
Proof.
  intros Hno Hcache. unfold MinSizeForSize.
  destruct (decide (length (cells li) = 0%nat)); [by intros [= <- _] [= <- _]|].
  rewrite Hcache, !lookup_empty. intros E1 E2.
  destruct (computeMinSize IntFrom96DPI MarginsFrom96DPI li size1) as [x1|] eqn:C1;
    [|by cbn in E1].
  destruct (computeMinSize IntFrom96DPI MarginsFrom96DPI li size2) as [x2|] eqn:C2;
    [|by cbn in E2].
  cbn in E1, E2.
  pose proof (computeMinSize_any_size _ _ li Hno _ _ _ _ C1 C2) as <-.
  destruct (_ && _); congruence.
Qed.

Lemma twoColumns_noHeightForWidth : noHeightForWidth twoColumns.
Proof.
  intros r c cl it Hcl Hit _.
  destruct r as [|r]; [|by destruct r]. destruct c as [|[|c]]; [| |by destruct c].
  - injection Hcl as <-. by injection Hit as <-.
  - injection Hcl as <-. by injection Hit as <-.
Qed.

Lemma MinSizeForSize_any_size_witness :
  exists r,
    fst <$> MinSizeForSize linearFrom96DPI linearMarginsFrom96DPI twoColumns
              {| Width := 220; Height := 100 |} = Some r
    /\ fst <$> MinSizeForSize linearFrom96DPI linearMarginsFrom96DPI twoColumns
                {| Width := 1000; Height := 7 |} = Some r.
Proof.
  assert (exists r l, MinSizeForSize linearFrom96DPI linearMarginsFrom96DPI twoColumns
                        {| Width := 220; Height := 100 |} = Some (r, l))
    as (r1 & l1 & E1) by (do 2 eexists; vm_compute; reflexivity).
  assert (exists r l, MinSizeForSize linearFrom96DPI linearMarginsFrom96DPI twoColumns
                        {| Width := 1000; Height := 7 |} = Some (r, l))
    as (r2 & l2 & E2) by (do 2 eexists; vm_compute; reflexivity).
  exists r1. rewrite E1, E2. split; [reflexivity|]. cbn. f_equal. symmetry.
  exact (MinSizeForSize_any_size linearFrom96DPI linearMarginsFrom96DPI twoColumns
           l1 l2 _ _ r1 r2 twoColumns_noHeightForWidth eq_refl E1 E2).
Defined.

(** *** The totals of the minimum size *)

Lemma addSections_total (sp start : Z) (l : list Z) :
  addSections sp start l = specTotal sp start l + firstSectionExtra sp l.
Proof.
  destruct l as [|w rest]; [unfold addSections, specTotal; cbn; lia|].
  unfold firstSectionExtra. destruct (decide (0 < w)) as [Hw|Hw].
  - rewrite addSections_first_positive by done. rewrite decide_False by lia. lia.
  - destruct (decide (positiveSizes rest = [])) as [He|Hne].
    + rewrite decide_False by tauto. rewrite addSections_cons.
      unfold specTotal, positiveSizes in *. rewrite filter_cons, decide_False by done.
      rewrite He. destruct (Z.gtb_spec w 0); [lia|]. cbn. lia.
    + rewrite decide_True by (split; [lia|done]).
      apply addSections_first_empty; [lia|done].
Qed.

(** X13: the width [MinSizeForSize] computes is the horizontal margins,
    the positive minimum widths of the columns and a spacing between
    each two of them, and one more spacing when column 0 has no width
    and a later column has one; the height is made in the same way of
    the vertical margins and the heights of the rows. *)
Theorem MinSizeForSize_totals
    (IntFrom96DPI : Z -> Z -> Z) (MarginsFrom96DPI : Margins -> Z -> Margins)
    (li : gridLayoutItem) (size r : SizePixels) :
  computeMinSize IntFrom96DPI MarginsFrom96DPI li size = Some r ->
  let m := MarginsFrom96DPI (margins li) (dpi li) in
  let sp := IntFrom96DPI (spacing li) (dpi li) in
  exists ws widths heights0 heights,
    minWidths li = Some ws
    /\ sectionSizesForSpace IntFrom96DPI MarginsFrom96DPI li Horizontal
         (Width size) [] = Some widths
    /\ sectionSizesForSpace IntFrom96DPI MarginsFrom96DPI li Vertical
         (Height size) widths = Some heights0
    /\ rowHeights IntFrom96DPI li widths heights0 = Some heights
    /\ Width r = specTotal sp (HNear m + HFar m) ws + firstSectionExtra sp ws
    /\ Height r
       = specTotal sp (VNear m + VFar m) heights + firstSectionExtra sp heights.
Proof.
  unfold computeMinSize. intros E.
  destruct (minWidths li) as [ws|]; [|by cbn in E]. cbn [mbind option_bind] in E.
  set (sizesFor := sectionSizesForSpace IntFrom96DPI MarginsFrom96DPI li) in *.
  destruct (sizesFor Horizontal (Width size) []) as [widths|] eqn:W; [|by cbn in E].
  cbn [mbind option_bind] in E.
  destruct (sizesFor Vertical (Height size) widths) as [heights0|] eqn:H; [|by cbn in E].
  cbn [mbind option_bind] in E.
  destruct (rowHeights IntFrom96DPI li widths heights0) as [heights|] eqn:R;
    [|by cbn in E].
  cbn [mbind option_bind] in E. injection E as <-. cbn zeta.
  exists ws, widths, heights0, heights. cbn [Width Height].
  by rewrite !addSections_total.
Qed.

Lemma MinSizeForSize_totals_witness :
  exists ws widths heights0 heights,
    minWidths emptyFirstColumn = Some ws
    /\ sectionSizesForSpace linearFrom96DPI linearMarginsFrom96DPI emptyFirstColumn
         Horizontal 220 [] = Some widths
    /\ sectionSizesForSpace linearFrom96DPI linearMarginsFrom96DPI emptyFirstColumn
         Vertical 100 widths = Some heights0
    /\ rowHeights linearFrom96DPI emptyFirstColumn widths heights0 = Some heights
    /\ 74 = specTotal 6 (9 + 9) ws + firstSectionExtra 6 ws
    /\ 38 = specTotal 6 (9 + 9) heights + firstSectionExtra 6 heights.
Proof.
  apply (MinSizeForSize_totals linearFrom96DPI linearMarginsFrom96DPI emptyFirstColumn
           {| Width := 220; Height := 100 |} {| Width := 74; Height := 38 |}).
  vm_compute. reflexivity.
Defined.

(** X14: while the stretch factors left and the excess space times
    them stay below 2^53, the share of the excess space computed in
    [float64] is the integer quotient, cut towards zero, of the excess
    space times the stretch factor by the stretch factors left. *)
Theorem sectionSize_exact (st : distState) (f mn mx : Z) :
  1 <= f <= stretchFactorsRemaining st ->
  stretchFactorsRemaining st < 2 ^ 53 ->
  Z.abs (excess st) * stretchFactorsRemaining st < 2 ^ 53 ->
  sectionSize st f mn mx
  = Some (if mn <? mx
          then clamp mn mx (mn + Z.quot (excess st * f) (stretchFactorsRemaining st))
          else mn).
Proof.
  intros Hf HS HE. unfold sectionSize. fold (excess st).
  destruct (Z.ltb_spec mn mx) as [Hlt|Hge]; [|done].
  rewrite excessShare_exact;
    [|rewrite Z.abs_mul, (Z.abs_eq f) by lia;
      assert (0 <= Z.abs (excess st)) by lia; nia|lia|lia].
  cbn. f_equal. unfold clamp.
  set (q := Z.quot _ _).
  destruct (Z.ltb_spec (mn + q) mn); destruct (Z.gtb_spec (mn + q) mx); lia.
Qed.

Lemma sectionSize_exact_witness :
  sectionSize {| sizes := [0; 0]; space := 202; minSizesRemaining := 100;
                 spacingRemaining := 6; stretchFactorsRemaining := 2 |}
              1 50 32768
  = Some 98.
Proof.
  rewrite (sectionSize_exact _ 1 50 32768);
    [reflexivity|cbn; lia|reflexivity|reflexivity].
Defined.

(** X9: on sections with a stretch of at least 1, as
    [sectionSizesForSpace] makes them, [Less] is a strict weak order:
    irreflexive, asymmetric, transitive, and so is being not less. *)
Theorem Less_strict_weak_order (a b c : gridLayoutSectionInfo) :
  1 <= stretch a -> 1 <= stretch b -> 1 <= stretch c ->
  Less a a = false
  /\ (Less a b = true -> Less b a = false)
  /\ (Less a b = true -> Less b c = true -> Less a c = true)
  /\ (Less a b = false -> Less b c = false -> Less a c = false).
Proof.
  intros _ _ _. split; [apply Less_irrefl|]. split; [apply Less_asym|].
  split; [apply Less_trans|apply Less_negtrans].
Qed.

Lemma Less_strict_weak_order_witness :
  let a := {| index := 0; secMinSize := 100; secMaxSize := 32768; stretch := 1;
              hasGreedyNonSpacer := true; hasGreedySpacer := false |} in
  let b := {| index := 1; secMinSize := 50; secMaxSize := 32768; stretch := 2;
              hasGreedyNonSpacer := true; hasGreedySpacer := false |} in
  let c := {| index := 2; secMinSize := 50; secMaxSize := 32768; stretch := 1;
              hasGreedyNonSpacer := false; hasGreedySpacer := false |} in
  Less a b = true /\ Less b c = true /\ Less a c = true /\ Less c a = false.
Proof.
  intros a b c.
  destruct (Less_strict_weak_order a b c) as (_ & _ & Htrans & _); [cbn; lia..|].
  destruct (Less_strict_weak_order a c a) as (_ & Hasym & _); [cbn; lia..|].
  assert (Less a b = true) as Hab by reflexivity.
  assert (Less b c = true) as Hbc by reflexivity.
  split; [exact Hab|]. split; [exact Hbc|].
  split; [exact (Htrans Hab Hbc)|exact (Hasym (Htrans Hab Hbc))].
Defined.

(** *** The snapshot *)

Lemma firstSeen_spec (l : list positive) : forall seen : gset positive,
  NoDup (firstSeen seen l)
  /\ forall x, x ∈ firstSeen seen l <-> x ∈ l /\ x ∉ seen.
Proof.
  induction l as [|wb l IH]; intros seen; cbn.
  - split; [constructor|]. intros x. rewrite elem_of_nil. tauto.
  - destruct (decide (wb ∈ seen)) as [Hin|Hout].
    + destruct (IH seen) as [Hnd Hmem]. split; [done|].
      intros x. rewrite Hmem, elem_of_cons. split; [tauto|].
      intros [[->|?] ?]; [done|tauto].
    + destruct (IH ({[wb]} ∪ seen)) as [Hnd Hmem]. split.
      * constructor; [|done]. rewrite Hmem, elem_of_union, elem_of_singleton. tauto.
      * intros x. rewrite !elem_of_cons, Hmem, elem_of_union, elem_of_singleton.
        destruct (decide (x = wb)) as [->|]; tauto.
Qed.

Lemma elem_of_concat {A} (x : A) (ls : list (list A)) :
  x ∈ concat ls <-> exists l, x ∈ l /\ l ∈ ls.
Proof.
  induction ls as [|l ls IH]; cbn.
  - rewrite elem_of_nil. split; [done|]. intros (l & _ & Hl). by apply elem_of_nil in Hl.
  - rewrite elem_of_app, IH. split.
    + intros [Hx|(l' & Hx & Hl')]; [exists l; split; [done|left]|].
      exists l'. split; [done|by right].
    + intros (l' & Hx & [->|Hl']%elem_of_cons); [by left|right; eauto].
Qed.

Lemma cellWidgets_spec (l : GridLayout.GridLayout) (wb : positive) :
  wb ∈ cellWidgets l
  <-> exists i j c, GridLayout.cellAt l i j = Some c
                    /\ GridLayout.widgetBase c = Some wb.
Proof.
  unfold cellWidgets. rewrite list_elem_of_omap. split.
  - intros (c & Hc & Hwb). apply elem_of_concat in Hc as (rw & Hc & Hrw).
    apply list_elem_of_fmap in Hrw as (r & -> & Hr).
    apply list_elem_of_lookup in Hr as [i Hi]. apply list_elem_of_lookup in Hc as [j Hj].
    exists (Z.of_nat i), (Z.of_nat j), c. split; [|done].
    apply cellIn_elems. eauto.
  - intros (i & j & c & Hc & Hwb). exists c. split; [|done].
    change (GridLayout.cellIn (GridLayout.cells l) i j = Some c) in Hc.
    destruct (cellIn_nonneg _ _ _ _ Hc) as [Hi Hj].
    rewrite <- (Z2Nat.id i), <- (Z2Nat.id j) in Hc by done.
    apply cellIn_elems in Hc as (r & Hr & Hc).
    apply elem_of_concat. exists (Slice.elems r). split.
    + by eapply list_elem_of_lookup_2.
    + apply list_elem_of_fmap. exists r. split; [done|]. by eapply list_elem_of_lookup_2.
Qed.

Section SnapshotFacts.
Variable createLayoutItemForWidgetWithContext : positive -> Z -> LayoutItem.
Local Abbreviation create := createLayoutItemForWidgetWithContext.

Lemma snapshotCells_lookup (ctx : Z) (l : GridLayout.GridLayout) (r c : nat)
    (cl : gridLayoutItemCell) :
  (snapshotCells create ctx l !! r) ≫= (.!! c) = Some cl
  <-> exists src, GridLayout.cellAt l (Z.of_nat r) (Z.of_nat c) = Some src
                  /\ cl = snapshotCell create ctx r c src.
Proof.
  unfold snapshotCells. rewrite list_lookup_imap.
  change (GridLayout.cellAt l (Z.of_nat r) (Z.of_nat c))
    with (GridLayout.cellIn (GridLayout.cells l) (Z.of_nat r) (Z.of_nat c)).
  split.
  - destruct (Slice.elems (GridLayout.cells l) !! r) as [rw|] eqn:Hr; [|done]. cbn.
    rewrite list_lookup_imap.
    destruct (Slice.elems rw !! c) as [src|] eqn:Hc; [|done]. cbn. intros [= <-].
    exists src. split; [|done]. apply cellIn_elems. eauto.
  - intros (src & Hsrc & ->). apply cellIn_elems in Hsrc as (rw & -> & Hc). cbn.
    by rewrite list_lookup_imap, Hc.
Qed.

(** X16: the snapshot has one layout item for every widget that a cell
    shows, also for a widget that spans several cells; every item of a
    cell is one of these children and stands for the widget of that
    cell; and the cache of the snapshot is empty. *)
Theorem CreateLayoutItem_children (l : GridLayout.GridLayout) (ctx : Z)
    (li : gridLayoutItem) :
  CreateLayoutItem create l ctx = Some li ->
  NoDup (itemPtr <$> children li)
  /\ (forall wb, wb ∈ itemPtr <$> children li
        <-> exists i j c, GridLayout.cellAt l i j = Some c
                          /\ GridLayout.widgetBase c = Some wb)
  /\ (forall r c cl it,
        cellAt li r c = Some cl -> item cl = Some it ->
        it ∈ children li
        /\ GridLayout.widgetAt l (Z.of_nat r) (Z.of_nat c) = Some (itemPtr it))
  /\ size2MinSize li = ∅.
Proof.
  unfold CreateLayoutItem. cbn zeta.
  destruct (mapM _ _) as [infos|]; [|done]. cbn. intros [= <-]. cbn.
  assert (itemPtr <$> ((fun wb => newItem create wb ctx) <$> firstSeen ∅ (cellWidgets l))
          = firstSeen ∅ (cellWidgets l)) as Hptr.
  { rewrite <- list_fmap_compose. apply (list_fmap_id (firstSeen ∅ (cellWidgets l))). }
  destruct (firstSeen_spec (cellWidgets l) ∅) as [Hnd Hmem].
  rewrite Hptr. split; [done|]. split; [|split; [|done]].
  - intros wb. rewrite Hmem, cellWidgets_spec. pose proof (not_elem_of_empty (C:=gset positive) wb). tauto.
  - intros r c cl it Hcl Hit. unfold cellAt in Hcl. cbn [cells] in Hcl.
    apply snapshotCells_lookup in Hcl as (src & Hsrc & ->).
    cbn in Hit. destruct (GridLayout.widgetBase src) as [wb|] eqn:Hwb; [|done].
    injection Hit as <-. cbn [itemPtr newItem]. split.
    + apply list_elem_of_fmap. exists wb. split; [done|].
      apply Hmem. split; [|apply not_elem_of_empty]. apply cellWidgets_spec. eauto.
    + unfold GridLayout.widgetAt. by rewrite Hsrc.
Qed.

Lemma snapshotInfo_is_Some (l : GridLayout.GridLayout) (ctx : Z) (wb : positive)
    (info : GridLayout.gridLayoutWidgetInfo) :
  GridLayout.infoOk (GridLayout.cells l) info ->
  is_Some (snapshotInfo l (snapshotCells create ctx l) (wb, info)).
Proof.
  intros (p & c & Hp & Hc & Hrow & Hcol & _). unfold snapshotInfo.
  rewrite Hp. rewrite (cellIn_deref _ _ _ Hc). cbn. rewrite Hrow, Hcol.
  destruct (decide (0 <= Z.of_nat p.1 /\ 0 <= Z.of_nat p.2)) as [_|Hn]; [|lia].
  rewrite !Nat2Z.id.
  assert ((snapshotCells create ctx l !! p.1) ≫= (.!! p.2)
          = Some (snapshotCell create ctx p.1 p.2 c)) as Hl
    by (apply snapshotCells_lookup; by exists c).
  destruct (snapshotCells create ctx l !! p.1) as [rw|]; [|done]. cbn in Hl |- *.
  rewrite Hl. cbn. by eexists.
Qed.

(** X17: on a layout made by the methods [CreateLayoutItem] returns (no
    cell pointer is out of range), with the stretch factors of the
    layout, none of them below 1. *)
Theorem CreateLayoutItem_returns (l : GridLayout.GridLayout) (ctx : Z) :
  GridLayout.reachable l ->
  exists li, CreateLayoutItem create l ctx = Some li
    /\ rowStretchFactors li = GridLayout.rowFactors l
    /\ columnStretchFactors li = GridLayout.columnFactors l
    /\ Forall (fun f => 1 <= f) (rowStretchFactors li)
    /\ Forall (fun f => 1 <= f) (columnStretchFactors li).
Proof.
  intros [Hwf (_ & _ & Hrf & Hcf)]%reachable_wf. unfold CreateLayoutItem. cbn zeta.
  destruct (mapM_is_Some_2 (snapshotInfo l (snapshotCells create ctx l))
              (map_to_list (GridLayout.widgetBase2Info l))) as [infos ->].
  { apply Forall_forall. intros [wb info] Hin%elem_of_map_to_list. cbn.
    apply snapshotInfo_is_Some. by apply (GridLayout.wf_infos l Hwf wb). }
  cbn. eexists. split; [reflexivity|]. by cbn.
Qed.

End SnapshotFacts.

Lemma CreateLayoutItem_children_witness :
  exists li,
    CreateLayoutItem (fun wb _ => plainItem wb 100 20)
                     (gridOf [(1%positive, rangeAt 0 0 2 1)]) 96 = Some li
    /\ NoDup (itemPtr <$> children li)
    /\ length (children li) = 1%nat
    /\ length (concat (cells li)) = 2%nat.
Proof.
  eexists. split; [vm_compute; reflexivity|].
  split; [|split; reflexivity].
  refine (proj1 (CreateLayoutItem_children (fun wb _ => plainItem wb 100 20)
                   (gridOf [(1%positive, rangeAt 0 0 2 1)]) 96 _ _)).
  vm_compute. reflexivity.
Defined.

Lemma CreateLayoutItem_returns_witness :
  exists li,
    CreateLayoutItem (fun wb _ => plainItem wb 50 20) GridLayout.exampleGrid 96
    = Some li
    /\ rowStretchFactors li = [1; 1; 1] /\ columnStretchFactors li = [1; 1; 1].
Proof.
  destruct (CreateLayoutItem_returns (fun wb _ => plainItem wb 50 20)
              GridLayout.exampleGrid 96 exampleGrid_reachable)
    as (li & Hli & Hr & Hc & _).
  exists li. split; [exact Hli|]. rewrite Hr, Hc. split; reflexivity.
Defined.

(** *** The loops of the minimum size return *)

Section LoopsTotal.
Variable IntFrom96DPI : Z -> Z -> Z.
Variable li : gridLayoutItem.

Lemma minWidthCell_total (row col : nat) (ws : list Z) :
  consistent li ->
  (row < length (rowStretchFactors li))%nat ->
  (col < length (columnStretchFactors li))%nat ->
  length ws = length (columnStretchFactors li) ->
  exists ws', minWidthCell li row (Some ws) col = Some ws'
              /\ length ws' = length ws.
Proof.
  intros Hok Hr Hc Hlen. unfold minWidthCell. cbn [mbind option_bind].
  destruct (cellAt_is_Some li row col Hok Hr Hc) as [cl Hcl]. rewrite Hcl. cbn.
  destruct (item cl) as [it|] eqn:Hit; [|by eexists].
  destruct (shouldLayout it) eqn:Hlay; [|by eexists].
  destruct (items_known li Hok row col cl it Hcl Hit Hlay) as (info & -> & _). cbn.
  destruct (spanHorz info =? 1); [|by eexists].
  destruct (lookup_lt_is_Some_2 ws col) as [w ->]; [lia|]. cbn.
  eexists. split; [done|]. by rewrite length_insert.
Qed.

Lemma minWidthRow_total (row : nat) (cols : list nat) : forall ws,
  consistent li ->
  (row < length (rowStretchFactors li))%nat ->
  Forall (fun col => (col < length (columnStretchFactors li))%nat) cols ->
  length ws = length (columnStretchFactors li) ->
  exists ws', foldl (minWidthCell li row) (Some ws) cols = Some ws'
              /\ length ws' = length ws.
Proof.
  induction cols as [|col cols IH]; intros ws Hok Hr Hall Hlen; [by eexists|].
  apply Forall_cons in Hall as [Hc Hall]. cbn [foldl].
  destruct (minWidthCell_total row col ws Hok Hr Hc Hlen) as (ws1 & -> & Hl1).
  destruct (IH ws1 Hok Hr Hall) as (ws' & -> & Hl'); [congruence|].
  exists ws'. split; [done|congruence].
Qed.

Lemma minWidths_total :
  consistent li -> cells li <> [] ->
  exists ws, minWidths li = Some ws
             /\ length ws = length (columnStretchFactors li).
Proof.
  intros Hok Hne. unfold minWidths.
  destruct (cells li) as [|row0 rest] eqn:Hcells; [done|]. cbn [lookup list_lookup].
  cbn [mbind option_bind]. cbn zeta.
  assert (length row0 = length (columnStretchFactors li)) as Hn.
  { pose proof (columns_fit li Hok) as Hcols. rewrite Hcells in Hcols.
    by apply Forall_cons in Hcols as [? _]. }
  assert (length (row0 :: rest) = length (rowStretchFactors li)) as Hrows.
  { rewrite <- Hcells. apply (rows_fit li Hok). }
  rewrite Hn, Hrows.
  assert (forall rows ws,
            Forall (fun row => (row < length (rowStretchFactors li))%nat) rows ->
            length ws = length (columnStretchFactors li) ->
            exists ws',
              foldl (fun acc row =>
                       foldl (minWidthCell li row) acc
                             (seq 0 (length (columnStretchFactors li))))
                    (Some ws) rows = Some ws'
              /\ length ws' = length ws) as Hfold.
  { induction rows as [|row rows IH]; intros ws Hall Hlen; [by eexists|].
    apply Forall_cons in Hall as [Hr Hall]. cbn [foldl].
    destruct (minWidthRow_total row (seq 0 (length (columnStretchFactors li))) ws
                Hok Hr) as (ws1 & -> & Hl1); [|done|].
    { apply Forall_forall. intros c Hc%elem_of_seq. lia. }
    destruct (IH ws1 Hall) as (ws' & -> & Hl'); [congruence|].
    exists ws'. split; [done|congruence]. }
  destruct (Hfold (seq 0 (length (rowStretchFactors li)))
              (replicate (length (columnStretchFactors li)) 0))
    as (ws & -> & Hl).
  { apply Forall_forall. intros r Hr%elem_of_seq. lia. }
  { by rewrite length_replicate. }
  exists ws. split; [done|]. by rewrite Hl, length_replicate.
Qed.

Lemma rowHeightCell_total (widths : list Z) (row col : nat) (h : Z) :
  consistent li ->
  length widths = length (columnStretchFactors li) ->
  (row < length (rowStretchFactors li))%nat ->
  (col < length (columnStretchFactors li))%nat ->
  is_Some (rowHeightCell IntFrom96DPI li widths row (Some h) col).
Proof.
  intros Hok Hw Hr Hc. unfold rowHeightCell. cbn [mbind option_bind].
  destruct (cellAt_is_Some li row col Hok Hr Hc) as [cl Hcl]. rewrite Hcl. cbn.
  destruct (item cl) as [it|] eqn:Hit; [|by eexists].
  destruct (shouldLayout it) eqn:Hlay; [|by eexists].
  destruct (items_known li Hok row col cl it Hcl Hit Hlay) as (info & -> & Hgrid).
  cbn. destruct (spanVert info =? 1); [|by eexists].
  destruct (HeightForWidth it) as [hfw|]; [|by eexists].
  destruct (spannedWidth_total IntFrom96DPI li widths info Hgrid Hw) as [w ->].
  by eexists.
Qed.

Lemma rowHeights_total (widths heights : list Z) :
  consistent li ->
  length widths = length (columnStretchFactors li) ->
  length heights = length (rowStretchFactors li) ->
  exists hs, rowHeights IntFrom96DPI li widths heights = Some hs
             /\ length hs = length heights.
Proof.
  intros Hok Hw Hh. unfold rowHeights.
  destruct (mapM_is_Some_2
              (fun row => foldl (rowHeightCell IntFrom96DPI li widths row) (Some 0)
                                (seq 0 (length widths)))
              (seq 0 (length heights))) as [hs Hhs].
  { apply Forall_forall. intros row Hrow%elem_of_seq.
    assert (forall cols h,
              Forall (fun col => (col < length (columnStretchFactors li))%nat) cols ->
              is_Some (foldl (rowHeightCell IntFrom96DPI li widths row) (Some h) cols))
      as Hfold.
    { induction cols as [|col cols IH]; intros h Hall; [by eexists|].
      apply Forall_cons in Hall as [Hc Hall]. cbn [foldl].
      destruct (rowHeightCell_total widths row col h Hok Hw) as [h' ->]; [lia|done|].
      by apply IH. }
    apply Hfold. apply Forall_forall. intros c Hc%elem_of_seq. lia. }
  exists hs. split; [done|]. apply mapM_Some, Forall2_length in Hhs.
  by rewrite length_seq in Hhs.
Qed.

(** X26: on a snapshot that is a grid with at least one row the loops of
    [MinSizeForSize] itself return: the loop over the minimum widths
    gives one width for every column, and the loop over the row heights
    gives one height for every row when there is a width for every
    column; no cell index is out of range and no info is missing. *)
Theorem MinSizeForSize_loops_return (widths heights : list Z) :
  consistent li -> cells li <> [] ->
  (exists ws, minWidths li = Some ws
              /\ length ws = length (columnStretchFactors li))
  /\ (length widths = length (columnStretchFactors li) ->
      length heights = length (rowStretchFactors li) ->
      exists hs, rowHeights IntFrom96DPI li widths heights = Some hs
                 /\ length hs = length heights).
Proof.
  intros Hok Hne. split; [by apply minWidths_total|].
  intros Hw Hh. by apply rowHeights_total.
Qed.

End LoopsTotal.

Lemma MinSizeForSize_loops_return_witness :
  (exists ws, minWidths greedyMix = Some ws
              /\ length ws = length (columnStretchFactors greedyMix))
  /\ (length [98; 98] = length (columnStretchFactors greedyMix) ->
      length [82; 20] = length (rowStretchFactors greedyMix) ->
      exists hs, rowHeights linearFrom96DPI greedyMix [98; 98] [82; 20] = Some hs
                 /\ length hs = length [82; 20]).
Proof.
  apply (MinSizeForSize_loops_return linearFrom96DPI greedyMix [98; 98] [82; 20]);
    [apply examples_consistent|discriminate].
Defined.

(** *** The snapshot is a grid *)

Section SnapshotGrid.
Variable createLayoutItemForWidgetWithContext : positive -> Z -> LayoutItem.
Local Abbreviation create := createLayoutItemForWidgetWithContext.

(** The info of the snapshot for a registered widget that a cell shows. *)
Lemma snapshotInfo_spec (l : GridLayout.GridLayout) (ctx : Z) (wb : positive)
    (winfo : GridLayout.gridLayoutWidgetInfo) :
  GridLayout.infoOk (GridLayout.cells l) winfo ->
  wb ∈ cellWidgets l ->
  exists p src,
    GridLayout.cell winfo = Some p
    /\ GridLayout.cellAt l (Z.of_nat p.1) (Z.of_nat p.2) = Some src
    /\ snapshotInfo l (snapshotCells create ctx l) (wb, winfo)
       = Some (Some wb, {| cell := Some p; spanHorz := GridLayout.spanHorz winfo;
                           spanVert := GridLayout.spanVert winfo;
                           minSize := GridLayout.minSize winfo |}).
Proof.
  intros (p & c & Hp & Hc & Hrow & Hcol & _) Hin. exists p, c.
  split; [done|]. split; [done|]. unfold snapshotInfo.
  rewrite decide_True by done.
  rewrite Hp. rewrite (cellIn_deref _ _ _ Hc). cbn. rewrite Hrow, Hcol.
  destruct (decide (0 <= Z.of_nat p.1 /\ 0 <= Z.of_nat p.2)) as [_|Hn]; [|lia].
  rewrite !Nat2Z.id.
  assert ((snapshotCells create ctx l !! p.1) ≫= (.!! p.2)
          = Some (snapshotCell create ctx p.1 p.2 c)) as Hl
    by (apply snapshotCells_lookup; by exists c).
  destruct (snapshotCells create ctx l !! p.1) as [rw|]; [|done]. cbn in Hl |- *.
  rewrite Hl. cbn. by destruct p.
Qed.

Lemma snapshotInfo_key (l : GridLayout.GridLayout) dst (wb wb' : positive)
    (winfo : GridLayout.gridLayoutWidgetInfo) (y : gridLayoutItemInfo) :
  snapshotInfo l dst (wb', winfo) = Some (Some wb, y) -> wb' = wb.
Proof.
  unfold snapshotInfo. destruct (decide (wb' ∈ cellWidgets l)).
  - destruct (match GridLayout.cell winfo with Some _ => _ | None => _ end); [|done].
    cbn. by intros [= ->].
  - destruct (match GridLayout.cell winfo with Some _ => _ | None => _ end); [|done].
    cbn. done.
Qed.

(** The snapshot of a layout made by the methods is a grid. *)
Lemma snapshot_consistent (l : GridLayout.GridLayout) (ctx : Z)
    (li : gridLayoutItem) :
  GridLayout.reachable l ->
  CreateLayoutItem create l ctx = Some li ->
  consistent li.
Proof.
  intros Hreach. pose proof (reachable_wf l Hreach) as [Hwf _].
  pose proof (reachable_rect l Hreach) as [[Hlen Hrect] [Hcellreg Hspans]].
  destruct Hwf as [Hrsf Hcsf [Hcells Hrows] Hinfos].
  unfold CreateLayoutItem. cbn zeta.
  destruct (mapM _ _) as [infos|] eqn:Hm; [|done]. cbn. intros [= <-].
  apply mapM_Some in Hm.
  split; cbn [cells rowStretchFactors columnStretchFactors item2Info].
  - unfold snapshotCells. rewrite length_imap, !length_elems by done. exact Hlen.
  - apply Forall_forall. intros rw Hin.
    apply elem_of_lookup_imap_1 in Hin as (i & src & -> & Hi).
    rewrite length_imap. apply elems_lookup_Some in Hi as [Hi Hlt].
    assert (Slice.wf src) as Hws.
    { rewrite Forall_forall in Hrows. apply Hrows. by eapply list_elem_of_lookup_2. }
    rewrite !length_elems by done. by apply (Hrect i src Hi).
  - intros r c cl it Hcl Hit Hlay. unfold cellAt in Hcl. cbn [cells] in Hcl.
    apply snapshotCells_lookup in Hcl as (src & Hsrc & ->).
    cbn in Hit. destruct (GridLayout.widgetBase src) as [wb|] eqn:Hwb; [|done].
    injection Hit as <-. cbn [itemPtr newItem].
    destruct (previousRange_registered _ _ _ _ (Hcellreg _ _ src wb Hsrc Hwb))
      as [winfo Hw].
    assert (wb ∈ cellWidgets l) as Hshown by (apply cellWidgets_spec; eauto).
    destruct (snapshotInfo_spec l ctx wb winfo (Hinfos wb winfo Hw) Hshown)
      as (p & src0 & Hp & Hsrc0 & Hsnap).
    eexists. split.
    + apply elem_of_list_to_map_1'.
      * intros y Hy. apply list_elem_of_lookup in Hy as [k Hk].
        destruct (Forall2_lookup_r _ _ _ _ _ Hm Hk) as ([wb' winfo'] & He & Hs).
        pose proof (snapshotInfo_key _ _ _ _ _ _ Hs) as ->.
        apply list_elem_of_lookup_2, elem_of_map_to_list in He.
        rewrite Hw in He. injection He as <-. rewrite Hsnap in Hs. by injection Hs.
      * apply elem_of_map_to_list in Hw. apply list_elem_of_lookup in Hw as [k Hk].
        destruct (Forall2_lookup_l _ _ _ _ _ Hm Hk) as (y & Hy & Hs).
        rewrite Hsnap in Hs. injection Hs as <-. by eapply list_elem_of_lookup_2.
    + exists p, (snapshotCell create ctx p.1 p.2 src0).
      cbn [cell spanHorz column snapshotCell columnStretchFactors].
      split; [done|]. split.
      { unfold cellAt. cbn [cells]. apply snapshotCells_lookup. by exists src0. }
      split; [lia|].
      destruct (Hspans wb winfo Hw) as [Hh Hv].
      destruct (Hinfos wb winfo Hw) as (p' & c' & Hp' & Hc' & _ & _ & Hrange).
      rewrite Hp in Hp'. injection Hp' as <-.
      destruct (Hrange (Z.of_nat p.1) (Z.of_nat p.2 + GridLayout.spanHorz winfo - 1))
        as [x Hx].
      { apply inRange_spec. cbn. lia. }
      apply cellIn_lookup in Hx as (rw & Hi & Hrw & Hj & _).
      destruct (Hrect _ rw Hrw) as [Hvis _]. destruct Hvis as [Hl _]; [lia|].
      rewrite length_elems by done. lia.
Qed.

Lemma consistent_placed (m : Margins) (s d : Z) (size : SizePixels)
    (li : gridLayoutItem) :
  consistent li -> consistent (placed m s d size li).
Proof. intros [Hr Hc Hi]. by split. Qed.

(** X11: the snapshot [CreateLayoutItem] makes of a layout made by the
    methods is a grid, whatever margins, spacing, DPI and client size it
    is given afterwards: it has a row of cells for every row stretch
    factor, a cell in every row for every column stretch factor, and for
    every item of a cell that is laid out an info whose cell and columns
    lie in the grid. *)
Theorem CreateLayoutItem_consistent (l : GridLayout.GridLayout) (ctx : Z)
    (li : gridLayoutItem) :
  GridLayout.reachable l ->
  CreateLayoutItem create l ctx = Some li ->
  consistent li
  /\ forall m s d size, consistent (placed m s d size li).
Proof.
  intros Hreach Hli. pose proof (snapshot_consistent l ctx li Hreach Hli) as Hok.
  split; [done|]. intros m s d size. by apply consistent_placed.
Qed.

End SnapshotGrid.

Lemma CreateLayoutItem_consistent_witness :
  exists li,
    CreateLayoutItem (fun wb _ => plainItem wb 50 20) GridLayout.exampleGrid 96
    = Some li
    /\ consistent li.
Proof.
  destruct (CreateLayoutItem (fun wb _ => plainItem wb 50 20) GridLayout.exampleGrid 96)
    as [li|] eqn:H; [|vm_compute in H; discriminate].
  exists li. split; [reflexivity|].
  exact (proj1 (CreateLayoutItem_consistent (fun wb _ => plainItem wb 50 20)
                  GridLayout.exampleGrid 96 li exampleGrid_reachable H)).
Defined.

(** *** The placement of the items *)

Lemma zrange_fmap (lo hi : Z) :
  zrange lo hi = (fun k => lo + Z.of_nat k) <$> seq 0 (Z.to_nat (hi - lo)).
Proof. done. Qed.

Lemma sectionOffset_S (near sp : Z) (sizes : list Z) (n : Z) :
  0 <= n ->
  sectionOffset near sp sizes (n + 1)
  = x ← sectionOffset near sp sizes n;
    w ← pixelAt sizes n;
    Some (if w >? 0 then x + (w + sp) else x).
Proof.
  intros Hn. unfold sectionOffset. rewrite !zrange_fmap.
  replace (Z.to_nat (n + 1 - 0)) with (S (Z.to_nat (n - 0))) by lia.
  rewrite seq_S, fmap_app, foldl_app. cbn [fmap list_fmap foldl].
  replace (0 + Z.of_nat (0 + Z.to_nat (n - 0))) with n by lia. done.
Qed.

Lemma spanFold_S (sp first : Z) (sizes : list Z) (n : nat) :
  spanFold sp first sizes (S n)
  = width ← spanFold sp first sizes n;
    w ← pixelAt sizes (first + Z.of_nat n);
    Some (if w >? 0
          then (if first + Z.of_nat n >? first then width + w + sp else width + w)
          else width).
Proof. unfold spanFold. by rewrite seq_S, fmap_app, foldl_app. Qed.

(** The cells an item spans end where the next section begins. *)
Lemma span_before_next (near sp : Z) (sizes : list Z) (first : Z) (n : nat) :
  0 <= sp -> 0 <= first ->
  forall x x' width,
    sectionOffset near sp sizes first = Some x ->
    spanFold sp first sizes n = Some width ->
    sectionOffset near sp sizes (first + Z.of_nat n) = Some x' ->
    0 <= width /\ x + width <= x'.
Proof.
  intros Hsp Hfirst. induction n as [|n IH]; intros x x' width Hx Hw Hx'.
  - rewrite Z.add_0_r, Hx in Hx'. injection Hx' as <-. injection Hw as <-. lia.
  - rewrite spanFold_S in Hw.
    replace (first + Z.of_nat (S n)) with (first + Z.of_nat n + 1) in Hx' by lia.
    rewrite sectionOffset_S in Hx' by lia.
    destruct (spanFold sp first sizes n) as [width0|]; [|done].
    destruct (sectionOffset near sp sizes (first + Z.of_nat n)) as [x0|]; [|done].
    cbn in Hw, Hx'.
    destruct (pixelAt sizes (first + Z.of_nat n)) as [w|]; [|done]. cbn in Hw, Hx'.
    injection Hw as <-. injection Hx' as <-.
    destruct (IH x x0 width0 Hx eq_refl eq_refl) as [H0 Hle].
    destruct (Z.gtb_spec w 0); [|lia].
    destruct (Z.gtb_spec (first + Z.of_nat n) first); lia.
Qed.

Lemma sectionOffset_mono (near sp : Z) (sizes : list Z) (a : Z) (n : nat) :
  0 <= sp -> 0 <= a ->
  forall x x',
    sectionOffset near sp sizes a = Some x ->
    sectionOffset near sp sizes (a + Z.of_nat n) = Some x' ->
    x <= x'.
Proof.
  intros Hsp Ha. induction n as [|n IH]; intros x x' Hx Hx'.
  - rewrite Z.add_0_r, Hx in Hx'. injection Hx' as <-. lia.
  - replace (a + Z.of_nat (S n)) with (a + Z.of_nat n + 1) in Hx' by lia.
    rewrite sectionOffset_S in Hx' by lia.
    destruct (sectionOffset near sp sizes (a + Z.of_nat n)) as [x0|]; [|done].
    cbn in Hx'. destruct (pixelAt sizes (a + Z.of_nat n)) as [w|]; [|done].
    cbn in Hx'. injection Hx' as <-. specialize (IH x x0 Hx eq_refl).
    destruct (Z.gtb_spec w 0); lia.
Qed.

Lemma sectionOffset_prefix (near sp : Z) (sizes : list Z) (a : Z) (n : nat) :
  0 <= a ->
  is_Some (sectionOffset near sp sizes (a + Z.of_nat n)) ->
  is_Some (sectionOffset near sp sizes a).
Proof.
  intros Ha. induction n as [|n IH]; [by rewrite Z.add_0_r|].
  replace (a + Z.of_nat (S n)) with (a + Z.of_nat n + 1) by lia.
  rewrite sectionOffset_S by lia. intros [x Hx]. apply IH.
  destruct (sectionOffset near sp sizes (a + Z.of_nat n)); [by eexists|done].
Qed.

Lemma alignHorz_within (a : Alignment2D) (x width w : Z) :
  0 <= w <= width ->
  x <= alignHorz a x width w /\ alignHorz a x width w + w <= x + width.
Proof.
  intros Hw. unfold alignHorz. destruct (Z.eqb_spec w width); [lia|].
  assert (0 <= Z.quot (width - w) 2 <= width - w).
  { split; [apply Z.quot_pos; lia|]. apply Z.quot_le_upper_bound; lia. }
  destruct a; lia.
Qed.

Lemma alignVert_within (a : Alignment2D) (y height h : Z) :
  0 <= h <= height ->
  y <= alignVert a y height h /\ alignVert a y height h + h <= y + height.
Proof.
  intros Hh. unfold alignVert. destruct (Z.eqb_spec h height); [lia|].
  assert (0 <= Z.quot (height - h) 2 <= height - h).
  { split; [apply Z.quot_pos; lia|]. apply Z.quot_le_upper_bound; lia. }
  destruct a; lia.
Qed.

Lemma itemSize_growable (it : LayoutItem) (width height : Z) :
  Z.land (LayoutFlags it) GrowableHorz <> 0 ->
  Z.land (LayoutFlags it) GrowableVert <> 0 ->
  itemSize it width height = (width, height).
Proof.
  intros Hh Hv. unfold itemSize.
  by rewrite (proj2 (Z.eqb_neq _ _) Hh), (proj2 (Z.eqb_neq _ _) Hv).
Qed.

Section PlacementFacts.
Variable IntFrom96DPI : Z -> Z -> Z.
Variable MarginsFrom96DPI : Margins -> Z -> Margins.
Variable li : gridLayoutItem.
Variable alignment : Alignment2D.
Variable widths heights : list Z.

Local Abbreviation sp := (IntFrom96DPI (spacing li) (dpi li)).
Local Abbreviation m := (MarginsFrom96DPI (margins li) (dpi li)).

(** What [layoutItem] computes, step by step. *)
Lemma layoutItem_Some (it : LayoutItem) (ia : Alignment2D)
    (info : gridLayoutItemInfo) (b : RectanglePixels) :
  layoutItem IntFrom96DPI MarginsFrom96DPI li alignment widths heights it ia info
  = Some (Some b) ->
  exists p c x y width height,
    cell info = Some p /\ cellAt li p.1 p.2 = Some c
    /\ sectionOffset (HNear m) sp widths (column c) = Some x
    /\ sectionOffset (VNear m) sp heights (row c) = Some y
    /\ spannedWidth IntFrom96DPI li info widths = Some width
    /\ spannedHeight IntFrom96DPI li info heights = Some height
    /\ itemSize it width height = (rWidth b, rHeight b)
    /\ exists a, rX b = alignHorz a x width (rWidth b)
                 /\ rY b = alignVert a y height (rHeight b).
Proof.
  unfold layoutItem. destruct (shouldLayout it); [|done]. cbn [negb].
  cbn zeta. intros H.
  destruct (cell info) as [p|]; [|done]. cbn [mbind option_bind] in H.
  destruct (cellAt li p.1 p.2) as [c|] eqn:Hc; [|done]. cbn [mbind option_bind] in H.
  destruct (sectionOffset _ _ widths _) as [x|] eqn:Hx; [|done].
  cbn [mbind option_bind] in H.
  destruct (sectionOffset _ _ heights _) as [y|] eqn:Hy; [|done].
  cbn [mbind option_bind] in H.
  destruct (spannedWidth IntFrom96DPI li info widths) as [width|] eqn:Hw; [|done].
  cbn [mbind option_bind] in H.
  destruct (spannedHeight IntFrom96DPI li info heights) as [height|] eqn:Hh; [|done].
  cbn [mbind option_bind] in H.
  destruct (itemSize it width height) as [w h] eqn:Hs.
  injection H as <-. cbn [rX rY rWidth rHeight].
  exists p, c, x, y, width, height. repeat (split; [done|]). eauto.
Qed.

Lemma layoutItem_spec (it : LayoutItem) (ia : Alignment2D)
    (info : gridLayoutItemInfo) (b : RectanglePixels) :
  layoutItem IntFrom96DPI MarginsFrom96DPI li alignment widths heights it ia info
  = Some (Some b) ->
  exists p c x y width height,
    cell info = Some p /\ cellAt li p.1 p.2 = Some c
    /\ sectionOffset (HNear m) sp widths (column c) = Some x
    /\ sectionOffset (VNear m) sp heights (row c) = Some y
    /\ spannedWidth IntFrom96DPI li info widths = Some width
    /\ spannedHeight IntFrom96DPI li info heights = Some height
    /\ (0 <= rWidth b <= width ->
        x <= rX b /\ rX b + rWidth b <= x + width)
    /\ (0 <= rHeight b <= height ->
        y <= rY b /\ rY b + rHeight b <= y + height)
    /\ (Z.land (LayoutFlags it) GrowableHorz <> 0 ->
        Z.land (LayoutFlags it) GrowableVert <> 0 ->
        b = {| rX := x; rY := y; rWidth := width; rHeight := height |}).
Proof.
  intros H.
  destruct (layoutItem_Some it ia info b H)
    as (p & c & x & y & width & height & Hp & Hc & Hx & Hy & Hw & Hh & Hs & a & HX & HY).
  exists p, c, x, y, width, height. repeat (split; [done|]).
  split; [|split].
  - intros Hfit. rewrite HX. by apply alignHorz_within.
  - intros Hfit. rewrite HY. by apply alignVert_within.
  - intros Gh Gv. rewrite itemSize_growable in Hs by done.
    injection Hs as Hw' Hh'. destruct b as [bx by_ bw bh]. cbn in *. subst bw bh.
    unfold alignHorz in HX. unfold alignVert in HY. rewrite Z.eqb_refl in HX, HY.
    by subst.
Qed.

(** X18: the rectangle [PerformLayout] gives an item starts, for an item
    no larger than the cells it spans, inside these cells and ends
    inside them, in both directions and for every alignment; an item
    that grows in both directions gets exactly the cells it spans.  The
    origin of the cells is the near margin and, for every section before
    the cell that has a size, the size and a spacing. *)
Theorem layoutItem_within_span (it : LayoutItem) (ia : Alignment2D)
    (info : gridLayoutItemInfo) (b : RectanglePixels) :
  layoutItem IntFrom96DPI MarginsFrom96DPI li alignment widths heights it ia info
  = Some (Some b) ->
  exists p c x y width height,
    cell info = Some p /\ cellAt li p.1 p.2 = Some c
    /\ sectionOffset (HNear m) sp widths (column c) = Some x
    /\ sectionOffset (VNear m) sp heights (row c) = Some y
    /\ spannedWidth IntFrom96DPI li info widths = Some width
    /\ spannedHeight IntFrom96DPI li info heights = Some height
    /\ (0 <= rWidth b <= width ->
        x <= rX b /\ rX b + rWidth b <= x + width)
    /\ (0 <= rHeight b <= height ->
        y <= rY b /\ rY b + rHeight b <= y + height)
    /\ (Z.land (LayoutFlags it) GrowableHorz <> 0 ->
        Z.land (LayoutFlags it) GrowableVert <> 0 ->
        b = {| rX := x; rY := y; rWidth := width; rHeight := height |}).
Proof. apply layoutItem_spec. Qed.

Lemma spannedWidth_spanFold (info : gridLayoutItemInfo) (p : nat * nat)
    (c : gridLayoutItemCell) :
  cell info = Some p -> cellAt li p.1 p.2 = Some c ->
  spannedWidth IntFrom96DPI li info widths
  = spanFold sp (column c) widths (Z.to_nat (spanHorz info)).
Proof.
  intros Hp Hc. unfold spannedWidth, spanFold. rewrite Hp. cbn. rewrite Hc. cbn.
  rewrite zrange_fmap. do 3 f_equal. lia.
Qed.

Lemma spannedHeight_spanFold (info : gridLayoutItemInfo) (p : nat * nat)
    (c : gridLayoutItemCell) :
  cell info = Some p -> cellAt li p.1 p.2 = Some c ->
  spannedHeight IntFrom96DPI li info heights
  = spanFold sp (row c) heights (Z.to_nat (spanVert info)).
Proof.
  intros Hp Hc. unfold spannedHeight, spanFold. rewrite Hp. cbn. rewrite Hc. cbn.
  rewrite zrange_fmap. do 3 f_equal. lia.
Qed.

(** X19: two items that grow in both directions do not overlap: when the
    second item starts in a column after the last column the first
    spans, its rectangle starts at or after the right edge of the
    rectangle of the first, and likewise for rows, with a spacing that is
    not negative. *)
Theorem growable_items_do_not_overlap (it1 it2 : LayoutItem) (ia1 ia2 : Alignment2D)
    (info1 info2 : gridLayoutItemInfo) (b1 b2 : RectanglePixels)
    (p1 p2 : nat * nat) (c1 c2 : gridLayoutItemCell) :
  layoutItem IntFrom96DPI MarginsFrom96DPI li alignment widths heights it1 ia1 info1
  = Some (Some b1) ->
  layoutItem IntFrom96DPI MarginsFrom96DPI li alignment widths heights it2 ia2 info2
  = Some (Some b2) ->
  cell info1 = Some p1 -> cellAt li p1.1 p1.2 = Some c1 ->
  cell info2 = Some p2 -> cellAt li p2.1 p2.2 = Some c2 ->
  Z.land (LayoutFlags it1) GrowableHorz <> 0 ->
  Z.land (LayoutFlags it1) GrowableVert <> 0 ->
  Z.land (LayoutFlags it2) GrowableHorz <> 0 ->
  Z.land (LayoutFlags it2) GrowableVert <> 0 ->
  0 <= sp -> 0 <= column c1 -> 0 <= row c1 ->
  0 <= spanHorz info1 -> 0 <= spanVert info1 ->
  (column c1 + spanHorz info1 <= column c2 -> rX b1 + rWidth b1 <= rX b2)
  /\ (row c1 + spanVert info1 <= row c2 -> rY b1 + rHeight b1 <= rY b2).
Proof.
  intros H1 H2 Hp1 Hc1 Hp2 Hc2 G1h G1v G2h G2v Hsp Hcol Hrow Hsh Hsv.
  destruct (layoutItem_spec it1 ia1 info1 b1 H1)
    as (q1 & d1 & x1 & y1 & w1 & h1 & Hq1 & Hd1 & Hx1 & Hy1 & Hw1 & Hh1 & _ & _ & Hb1).
  destruct (layoutItem_spec it2 ia2 info2 b2 H2)
    as (q2 & d2 & x2 & y2 & w2 & h2 & Hq2 & Hd2 & Hx2 & Hy2 & Hw2 & Hh2 & _ & _ & Hb2).
  rewrite Hp1 in Hq1. injection Hq1 as <-. rewrite Hc1 in Hd1. injection Hd1 as <-.
  rewrite Hp2 in Hq2. injection Hq2 as <-. rewrite Hc2 in Hd2. injection Hd2 as <-.
  rewrite (Hb1 G1h G1v), (Hb2 G2h G2v). cbn [rX rY rWidth rHeight].
  rewrite (spannedWidth_spanFold info1 p1 c1 Hp1 Hc1) in Hw1.
  rewrite (spannedHeight_spanFold info1 p1 c1 Hp1 Hc1) in Hh1.
  split.
  - intros Hle.
    replace (column c2)
      with (column c1 + Z.of_nat (Z.to_nat (spanHorz info1))
            + Z.of_nat (Z.to_nat (column c2 - column c1 - spanHorz info1)))
      in Hx2 by lia.
    assert (0 <= column c1 + Z.of_nat (Z.to_nat (spanHorz info1))) as Hmid by lia.
    destruct (sectionOffset_prefix _ _ _ _ _ Hmid (mk_is_Some _ _ Hx2)) as [x' Hx'].
    destruct (span_before_next _ sp widths (column c1) _ Hsp Hcol x1 x' w1 Hx1 Hw1 Hx').
    pose proof (sectionOffset_mono _ sp widths _ _ Hsp Hmid x' x2 Hx' Hx2). lia.
  - intros Hle.
    replace (row c2)
      with (row c1 + Z.of_nat (Z.to_nat (spanVert info1))
            + Z.of_nat (Z.to_nat (row c2 - row c1 - spanVert info1)))
      in Hy2 by lia.
    assert (0 <= row c1 + Z.of_nat (Z.to_nat (spanVert info1))) as Hmid by lia.
    destruct (sectionOffset_prefix _ _ _ _ _ Hmid (mk_is_Some _ _ Hy2)) as [y' Hy'].
    destruct (span_before_next _ sp heights (row c1) _ Hsp Hrow y1 y' h1 Hy1 Hh1 Hy').
    pose proof (sectionOffset_mono _ sp heights _ _ Hsp Hmid y' y2 Hy' Hy2). lia.
Qed.

End PlacementFacts.

Lemma layoutItem_within_span_witness :
  exists p c x y width height,
    cell (infoAt 0 1 1 1) = Some p /\ cellAt twoColumns p.1 p.2 = Some c
    /\ sectionOffset (HNear (linearMarginsFrom96DPI (margins twoColumns) 96))
         (linearFrom96DPI (spacing twoColumns) 96) [98; 98] (column c) = Some x
    /\ sectionOffset (VNear (linearMarginsFrom96DPI (margins twoColumns) 96))
         (linearFrom96DPI (spacing twoColumns) 96) [82] (row c) = Some y
    /\ spannedWidth linearFrom96DPI twoColumns (infoAt 0 1 1 1) [98; 98] = Some width
    /\ spannedHeight linearFrom96DPI twoColumns (infoAt 0 1 1 1) [82] = Some height
    /\ (0 <= 40 <= width -> x <= 142 /\ 142 + 40 <= x + width)
    /\ (0 <= 20 <= height -> y <= 40 /\ 40 + 20 <= y + height)
    /\ (Z.land (LayoutFlags (fixedItem 2 40 20)) GrowableHorz <> 0 ->
        Z.land (LayoutFlags (fixedItem 2 40 20)) GrowableVert <> 0 ->
        {| rX := 142; rY := 40; rWidth := 40; rHeight := 20 |}
        = {| rX := x; rY := y; rWidth := width; rHeight := height |}).
Proof.
  apply (layoutItem_within_span linearFrom96DPI linearMarginsFrom96DPI twoColumns
           AlignHCenterVCenter [98; 98] [82] (fixedItem 2 40 20) AlignHVDefault
           (infoAt 0 1 1 1) {| rX := 142; rY := 40; rWidth := 40; rHeight := 20 |}).
  vm_compute. reflexivity.
Defined.

Lemma growable_items_do_not_overlap_witness :
  9 + 98 <= 113.
Proof.
  refine (proj1 (growable_items_do_not_overlap linearFrom96DPI linearMarginsFrom96DPI
            twoColumns AlignHVDefault [98; 98] [82]
            (plainItem 1 50 20) (plainItem 2 50 20) AlignHVDefault AlignHVDefault
            (infoAt 0 0 1 1) (infoAt 0 1 1 1)
            {| rX := 9; rY := 9; rWidth := 98; rHeight := 82 |}
            {| rX := 113; rY := 9; rWidth := 98; rHeight := 82 |}
            (0%nat, 0%nat) (0%nat, 1%nat)
            (cellWith 0 0 (Some (plainItem 1 50 20)))
            (cellWith 0 1 (Some (plainItem 2 50 20)))
            _ _ _ _ _ _ _ _ _ _ _ _ _ _ _) _);
    try (vm_compute; reflexivity); try (vm_compute; discriminate); cbn; lia.
Defined.

Section PerformLayoutFacts.
Variable IntFrom96DPI : Z -> Z -> Z.
Variable MarginsFrom96DPI : Margins -> Z -> Margins.
Variable li : gridLayoutItem.
Variable alignment : Alignment2D.




End PerformLayoutFacts.


(** *** The flags of the grid *)

Lemma foldl_flags_testbit (counts : LayoutItem -> bool) (f : LayoutItem -> Z)
    (l : list LayoutItem) (n : Z) :
  forall acc,
  Z.testbit (foldl (fun flags it => if counts it then Z.lor flags (f it) else flags)
               acc l) n = true
  <-> Z.testbit acc n = true
      \/ exists it, it ∈ l /\ counts it = true /\ Z.testbit (f it) n = true.
Proof.
  induction l as [|it l IH]; intros acc; cbn [foldl].
  - split; [by left|]. intros [H|(it & Hin & _)]; [done|by apply elem_of_nil in Hin].
  - rewrite IH. destruct (counts it) eqn:Hc.
    + rewrite Z.lor_spec, orb_true_iff. split.
      * intros [[H|H]|(it' & Hin & Hc' & Hb)]; [by left| |].
        -- right. exists it. split; [apply list_elem_of_here|done].
        -- right. exists it'. split; [by apply list_elem_of_further|done].
      * intros [H|(it' & Hin & Hc' & Hb)]; [by left; left|].
        apply elem_of_cons in Hin as [->|Hin]; [by left; right|].
        right. by exists it'.
    + split.
      * intros [H|(it' & Hin & Hc' & Hb)]; [by left|].
        right. exists it'. split; [by apply list_elem_of_further|done].
      * intros [H|(it' & Hin & Hc' & Hb)]; [by left|].
        apply elem_of_cons in Hin as [->|Hin]; [congruence|].
        right. by exists it'.
Qed.

Lemma land_pow2_testbit (x k : Z) :
  0 <= k -> (Z.land x (2 ^ k) <> 0 <-> Z.testbit x k = true).
Proof.
  intros Hk. destruct (Z.testbit x k) eqn:Hb.
  - split; [done|]. intros _ H0.
    assert (Z.testbit (Z.land x (2 ^ k)) k = true) as H1.
    { by rewrite Z.land_spec, Hb, Z.pow2_bits_true. }
    rewrite H0, Z.bits_0 in H1. done.
  - split; [|done]. intros H. exfalso. apply H. apply Z.bits_inj'. intros n Hn.
    rewrite Z.land_spec, Z.bits_0. destruct (decide (n = k)) as [->|Hne].
    + by rewrite Hb.
    + by rewrite (Z.pow2_bits_false k n), andb_false_r.
Qed.

Lemma itemFlags_testbit (it : LayoutItem) (n : Z) :
  0 <= n ->
  Z.testbit (itemFlags it) n
  = Z.testbit (LayoutFlags it) n
    && negb ((n =? 4) && (Width (MaxSize it) >? 0))
    && negb ((n =? 5) && (Height (MaxSize it) >? 0)).
Proof.
  intros Hn. unfold itemFlags. cbn zeta.
  change GreedyHorz with (2 ^ 4). change GreedyVert with (2 ^ 5).
  generalize (LayoutFlags it). intros wf.
  assert (forall x k, 0 <= k ->
            negb (Z.land x (2 ^ k) =? 0) = Z.testbit x k) as Hbit.
  { intros x k Hk. destruct (Z.testbit x k) eqn:Hb.
    - apply negb_true_iff, Z.eqb_neq. by apply land_pow2_testbit.
    - apply negb_false_iff, Z.eqb_eq.
      destruct (decide (Z.land x (2 ^ k) = 0)) as [|Hne]; [done|].
      apply land_pow2_testbit in Hne; [congruence|done]. }
  assert (forall x k, 0 <= k ->
            Z.testbit (Z.ldiff x (2 ^ k)) n = Z.testbit x n && negb (n =? k)) as Hld.
  { intros x k Hk. rewrite Z.ldiff_spec. f_equal.
    destruct (Z.eqb_spec n k) as [->|Hne].
    - by rewrite Z.pow2_bits_true.
    - by rewrite (Z.pow2_bits_false k n). }
  rewrite !Hbit by lia.
  assert (Z.testbit (if Z.testbit wf 4 && (Width (MaxSize it) >? 0)
                     then Z.ldiff wf (2 ^ 4) else wf) n
          = Z.testbit wf n && negb ((n =? 4) && (Width (MaxSize it) >? 0))) as H1.
  { destruct (Z.testbit wf 4) eqn:B4; cbn [andb].
    - destruct (Width (MaxSize it) >? 0).
      + rewrite Hld by lia. by rewrite andb_true_r.
      + by rewrite andb_false_r, andb_true_r.
    - destruct (Z.eqb_spec n 4) as [->|]; [by rewrite B4|by rewrite andb_true_r]. }
  assert (Z.testbit (if Z.testbit wf 4 && (Width (MaxSize it) >? 0)
                     then Z.ldiff wf (2 ^ 4) else wf) 5
          = Z.testbit wf 5) as H5.
  { destruct (Z.testbit wf 4 && (Width (MaxSize it) >? 0)); [|done].
    rewrite Z.ldiff_spec, (Z.pow2_bits_false 4 5) by lia. by rewrite andb_true_r. }
  revert H1 H5.
  generalize (if Z.testbit wf 4 && (Width (MaxSize it) >? 0)
              then Z.ldiff wf (2 ^ 4) else wf).
  intros wf1 H1 H5.
  destruct (Z.testbit wf1 5) eqn:B5; cbn [andb].
  - destruct (Height (MaxSize it) >? 0).
    + rewrite Hld by lia. rewrite H1. by rewrite andb_true_r.
    + by rewrite H1, andb_false_r, andb_true_r.
  - rewrite H1. destruct (Z.eqb_spec n 5) as [->|]; [|by rewrite andb_true_r].
    cbn [andb]. by rewrite <- H5.
Qed.

Section FlagsFacts.
Variable greedyLocallyOnly : LayoutItem -> bool.

(** X21: the method [LayoutFlags] of the grid item.  Without children
    the grid can shrink and grow in both directions and is not greedy.
    With children it has one of these four flags when a child that
    counts has it, and it is greedy in a direction when a child that
    counts is greedy in the direction and has no maximum size in it; the
    children that count are those that are laid out and are not spacers
    greedy locally only, so a grid whose children are all hidden has no
    flag at all. *)
Theorem gridLayoutFlags_spec (li : gridLayoutItem) :
  (children li = [] -> gridLayoutFlags greedyLocallyOnly li = 15)
  /\ (children li <> [] ->
      (forall flag, flag ∈ [ShrinkableHorz; ShrinkableVert; GrowableHorz; GrowableVert] ->
         Z.land (gridLayoutFlags greedyLocallyOnly li) flag <> 0
         <-> exists it, it ∈ children li
               /\ countsForFlags greedyLocallyOnly it = true
               /\ Z.land (LayoutFlags it) flag <> 0)
      /\ (Z.land (gridLayoutFlags greedyLocallyOnly li) GreedyHorz <> 0
          <-> exists it, it ∈ children li
                /\ countsForFlags greedyLocallyOnly it = true
                /\ Z.land (LayoutFlags it) GreedyHorz <> 0
                /\ Width (MaxSize it) <= 0)
      /\ (Z.land (gridLayoutFlags greedyLocallyOnly li) GreedyVert <> 0
          <-> exists it, it ∈ children li
                /\ countsForFlags greedyLocallyOnly it = true
                /\ Z.land (LayoutFlags it) GreedyVert <> 0
                /\ Height (MaxSize it) <= 0)).
Proof.
  split.
  - intros H. unfold gridLayoutFlags. by rewrite H.
  - intros Hne. unfold gridLayoutFlags.
    destruct (children li) as [|it0 rest] eqn:Hch; [done|]. cbn [length Nat.eqb].
    assert (forall k, 0 <= k ->
              Z.land (foldl (fun flags it =>
                               if countsForFlags greedyLocallyOnly it
                               then Z.lor flags (itemFlags it) else flags)
                        0 (it0 :: rest)) (2 ^ k) <> 0
              <-> exists it, it ∈ it0 :: rest
                    /\ countsForFlags greedyLocallyOnly it = true
                    /\ Z.testbit (itemFlags it) k = true) as Hk.
    { intros k Hk. rewrite land_pow2_testbit by done.
      rewrite foldl_flags_testbit, Z.bits_0. split; [|by right].
      by intros [|]. }
    split; [|split].
    + intros flag Hflag.
      assert (exists k, 0 <= k < 4 /\ flag = 2 ^ k) as (k & Hkr & ->).
      { repeat (apply elem_of_cons in Hflag as [->|Hflag]);
          [by exists 0|by exists 1|by exists 2|by exists 3|].
        by apply elem_of_nil in Hflag. }
      rewrite Hk by lia. split; intros (it & Hin & Hc & Hb); exists it;
        (split; [done|]); (split; [done|]).
      * apply land_pow2_testbit; [lia|]. rewrite itemFlags_testbit in Hb by lia.
        by apply andb_true_iff in Hb as [[Hb _]%andb_true_iff _].
      * apply land_pow2_testbit in Hb; [|lia]. rewrite itemFlags_testbit by lia.
        rewrite Hb. destruct (Z.eqb_spec k 4); [lia|]. destruct (Z.eqb_spec k 5); [lia|].
        done.
    + change GreedyHorz with (2 ^ 4). rewrite Hk by lia.
      split; intros (it & Hin & Hc & Hb); exists it;
        (split; [done|]); (split; [done|]).
      * rewrite itemFlags_testbit in Hb by lia.
        change (4 =? 4) with true in Hb. change (4 =? 5) with false in Hb.
        cbn [andb negb] in Hb.
        rewrite andb_true_r in Hb. apply andb_true_iff in Hb as [Hb Hm].
        split; [by apply land_pow2_testbit|].
        destruct (Z.gtb_spec (Width (MaxSize it)) 0); [done|lia].
      * destruct Hb as [Hb Hm]. apply land_pow2_testbit in Hb; [|lia].
        rewrite itemFlags_testbit by lia.
        change (4 =? 4) with true. change (4 =? 5) with false.
        cbn [andb negb]. rewrite Hb, andb_true_r.
        destruct (Z.gtb_spec (Width (MaxSize it)) 0); [lia|done].
    + change GreedyVert with (2 ^ 5). rewrite Hk by lia.
      split; intros (it & Hin & Hc & Hb); exists it;
        (split; [done|]); (split; [done|]).
      * rewrite itemFlags_testbit in Hb by lia.
        change (5 =? 4) with false in Hb. change (5 =? 5) with true in Hb.
        cbn [andb negb] in Hb.
        rewrite andb_true_r in Hb. apply andb_true_iff in Hb as [Hb Hm].
        split; [by apply land_pow2_testbit|].
        destruct (Z.gtb_spec (Height (MaxSize it)) 0); [done|lia].
      * destruct Hb as [Hb Hm]. apply land_pow2_testbit in Hb; [|lia].
        rewrite itemFlags_testbit by lia.
        change (5 =? 4) with false. change (5 =? 5) with true.
        cbn [andb negb]. rewrite Hb, andb_true_r.
        destruct (Z.gtb_spec (Height (MaxSize it)) 0); [lia|done].
Qed.

End FlagsFacts.

(** *** The cache of minimum sizes *)

Section CacheFacts.
Variable IntFrom96DPI : Z -> Z -> Z.
Variable MarginsFrom96DPI : Margins -> Z -> Margins.

Lemma computeMinSize_withCache (li : gridLayoutItem)
    (m : gmap SizePixels SizePixels) (size : SizePixels) :
  computeMinSize IntFrom96DPI MarginsFrom96DPI (withCache li m) size
  = computeMinSize IntFrom96DPI MarginsFrom96DPI li size.
Proof. reflexivity. Qed.

(** X22: a call of [MinSizeForSize] changes nothing of the item but its
    cache, to which it only adds, and it changes the result of no later
    call, for any size: the cache is not visible in the results. *)
Theorem MinSizeForSize_cache (li li1 : gridLayoutItem) (size r : SizePixels) :
  MinSizeForSize IntFrom96DPI MarginsFrom96DPI li size = Some (r, li1) ->
  li1 = withCache li (size2MinSize li1)
  /\ size2MinSize li ⊆ size2MinSize li1
  /\ forall size2,
       fst <$> MinSizeForSize IntFrom96DPI MarginsFrom96DPI li1 size2
       = fst <$> MinSizeForSize IntFrom96DPI MarginsFrom96DPI li size2.
Proof.
  assert (li = withCache li (size2MinSize li)) as Hsame by (by destruct li).
  unfold MinSizeForSize at 1. intros H.
  destruct (decide (length (cells li) = 0%nat)) as [Hz|Hnz].
  { by injection H as <- <-. }
  destruct (size2MinSize li !! size) as [mn|] eqn:Hhit.
  { by injection H as <- <-. }
  destruct (computeMinSize IntFrom96DPI MarginsFrom96DPI li size) as [r0|] eqn:Hr;
    [|done].
  cbn [mbind option_bind] in H.
  destruct ((Width r0 >? 0) && (Height r0 >? 0)) eqn:Hpos.
  - injection H as <- <-. split; [done|split].
    + cbn [size2MinSize withCache]. apply insert_subseteq. exact Hhit.
    + intros size2. unfold MinSizeForSize. cbn [cells withCache size2MinSize].
      rewrite !decide_False by done.
      destruct (decide (size2 = size)) as [->|Hne].
      * rewrite lookup_insert_eq, Hhit, Hr. cbn [mbind option_bind]. by rewrite Hpos.
      * rewrite lookup_insert_ne by done.
        destruct (size2MinSize li !! size2); [done|].
        rewrite computeMinSize_withCache.
        destruct (computeMinSize IntFrom96DPI MarginsFrom96DPI li size2) as [r2|];
          [|done].
        cbn [mbind option_bind]. by destruct ((Width r2 >? 0) && (Height r2 >? 0)).
  - by injection H as <- <-.
Qed.

End CacheFacts.

Lemma MinSizeForSize_cache_witness :
  exists r li1,
    MinSizeForSize linearFrom96DPI linearMarginsFrom96DPI twoColumns
      {| Width := 220; Height := 100 |} = Some (r, li1)
    /\ size2MinSize li1 !! {| Width := 220; Height := 100 |} = Some r
    /\ fst <$> MinSizeForSize linearFrom96DPI linearMarginsFrom96DPI li1
                 {| Width := 300; Height := 100 |}
       = fst <$> MinSizeForSize linearFrom96DPI linearMarginsFrom96DPI twoColumns
                   {| Width := 300; Height := 100 |}.
Proof.
  destruct (MinSizeForSize linearFrom96DPI linearMarginsFrom96DPI twoColumns
              {| Width := 220; Height := 100 |}) as [[r li1]|] eqn:H;
    [|vm_compute in H; discriminate].
  exists r, li1. split; [reflexivity|]. split.
  - revert H. vm_compute. intros [= <- <-]. reflexivity.
  - exact (proj2 (proj2 (MinSizeForSize_cache _ _ _ _ _ _ H))
             {| Width := 300; Height := 100 |}).
Defined.

(** *** The placement on a snapshot *)

Lemma sectionOffset_total (near sp : Z) (sizes : list Z) (n : Z) :
  n <= Z.of_nat (length sizes) -> is_Some (sectionOffset near sp sizes n).
Proof.
  intros Hn. unfold sectionOffset.
  assert (forall indices x,
            Forall (fun i => 0 <= i < Z.of_nat (length sizes)) indices ->
            is_Some (foldl (fun acc i =>
                              x ← acc;
                              w ← pixelAt sizes i;
                              Some (if w >? 0 then x + (w + sp) else x))
                           (Some x) indices)) as Hfold.
  { induction indices as [|i indices IH]; intros x Hall; [by eexists|].
    apply Forall_cons in Hall as [Hi Hall]. cbn [foldl mbind option_bind].
    unfold pixelAt at 2. rewrite decide_True by lia.
    destruct (lookup_lt_is_Some_2 sizes (Z.to_nat i)) as [w ->]; [lia|].
    by apply IH. }
  apply Hfold. apply Forall_forall. intros i. unfold zrange.
  rewrite list_elem_of_fmap. intros (k & -> & Hk%elem_of_seq). lia.
Qed.

Section SnapshotPlacement.
Variable createLayoutItemForWidgetWithContext : positive -> Z -> LayoutItem.
Local Abbreviation create := createLayoutItemForWidgetWithContext.

Lemma snapshotInfo_shown (l : GridLayout.GridLayout) dst (wb wb' : positive)
    (winfo : GridLayout.gridLayoutWidgetInfo) (y : gridLayoutItemInfo) :
  snapshotInfo l dst (wb', winfo) = Some (Some wb, y) -> wb ∈ cellWidgets l.
Proof.
  unfold snapshotInfo. destruct (decide (wb' ∈ cellWidgets l)).
  - destruct (match GridLayout.cell winfo with Some _ => _ | None => _ end); [|done].
    cbn. by intros [= <-].
  - destruct (match GridLayout.cell winfo with Some _ => _ | None => _ end); [|done].
    cbn. done.
Qed.

(** The info the snapshot of a layout made by the methods holds for an
    item: its cell is a cell of the snapshot, and the rows and columns
    the item spans are rows and columns of the grid. *)
Lemma snapshot_info_inGrid (l : GridLayout.GridLayout) (ctx : Z)
    (li : gridLayoutItem) (wb : positive) (info : gridLayoutItemInfo) :
  GridLayout.reachable l ->
  CreateLayoutItem create l ctx = Some li ->
  item2Info li !! Some wb = Some info ->
  exists p c, cell info = Some p /\ cellAt li p.1 p.2 = Some c
    /\ row c = Z.of_nat p.1 /\ column c = Z.of_nat p.2
    /\ 1 <= spanHorz info /\ 1 <= spanVert info
    /\ column c + spanHorz info <= Z.of_nat (length (columnStretchFactors li))
    /\ row c + spanVert info <= Z.of_nat (length (rowStretchFactors li)).
Proof.
  intros Hreach. pose proof (reachable_wf l Hreach) as [Hwf _].
  pose proof (reachable_rect l Hreach) as [Hrect [_ Hspans]].
  unfold CreateLayoutItem. cbn zeta.
  destruct (mapM _ _) as [infos|] eqn:Hm; [|done]. cbn. intros [= <-].
  apply mapM_Some in Hm. cbn [item2Info cells rowStretchFactors columnStretchFactors].
  intros Hin%elem_of_list_to_map_2. apply list_elem_of_lookup in Hin as [k Hk].
  destruct (Forall2_lookup_r _ _ _ _ _ Hm Hk) as ([wb' winfo] & He & Hs).
  pose proof (snapshotInfo_shown _ _ _ _ _ _ Hs) as Hshown.
  pose proof (snapshotInfo_key _ _ _ _ _ _ Hs) as ->.
  apply list_elem_of_lookup_2, elem_of_map_to_list in He.
  pose proof (GridLayout.wf_infos l Hwf wb winfo He) as Hok.
  destruct (snapshotInfo_spec create l ctx wb winfo Hok Hshown)
    as (p & src & Hp & Hsrc & Hsnap).
  rewrite Hsnap in Hs. injection Hs as <-.
  exists p, (snapshotCell create ctx p.1 p.2 src).
  cbn [cell spanHorz spanVert row column snapshotCell].
  split; [done|]. split.
  { unfold cellAt. cbn [cells]. apply snapshotCells_lookup. by exists src. }
  split; [done|]. split; [done|].
  destruct (Hspans wb winfo He) as [Hh Hv]. split; [done|]. split; [done|].
  destruct Hok as (p' & c' & Hp' & _ & _ & _ & Hrange).
  rewrite Hp in Hp'. injection Hp' as <-.
  assert (is_Some (GridLayout.cellAt l
                     (Z.of_nat p.1 + GridLayout.spanVert winfo - 1)
                     (Z.of_nat p.2 + GridLayout.spanHorz winfo - 1))) as Hcorner.
  { apply Hrange. apply inRange_spec. cbn. lia. }
  apply (rectangular_cellAt l _ _ Hwf Hrect) in Hcorner.
  unfold GridLayout.rowFactors, GridLayout.columnFactors in Hcorner. lia.
Qed.

(** X27: on the snapshot of a layout made by the methods the body of the
    loop of [PerformLayout] returns for every item that [item2Info] has
    an info for, given a width for every column and a height for every
    row: the cell pointer of the info, the sections before the cell and
    the sections the item spans are all in range. *)
Theorem snapshot_layoutItem_returns
    (IntFrom96DPI : Z -> Z -> Z) (MarginsFrom96DPI : Margins -> Z -> Margins)
    (l : GridLayout.GridLayout) (ctx : Z) (li : gridLayoutItem)
    (m : Margins) (s d : Z) (size : SizePixels)
    (alignment ia : Alignment2D) (widths heights : list Z)
    (it : LayoutItem) (info : gridLayoutItemInfo) :
  GridLayout.reachable l ->
  CreateLayoutItem create l ctx = Some li ->
  item2Info li !! Some (itemPtr it) = Some info ->
  length widths = length (columnStretchFactors li) ->
  length heights = length (rowStretchFactors li) ->
  exists b, layoutItem IntFrom96DPI MarginsFrom96DPI (placed m s d size li)
              alignment widths heights it ia info = Some b.
Proof.
  intros Hreach Hli Hinfo Hw Hh.
  destruct (snapshot_info_inGrid l ctx li _ info Hreach Hli Hinfo)
    as (p & c & Hp & Hc & Hrow & Hcol & Hsh & Hsv & Hcols & Hrows).
  unfold layoutItem. destruct (shouldLayout it); cbn [negb]; [|by eexists].
  cbn zeta. rewrite Hp. cbn [mbind option_bind].
  assert (cellAt (placed m s d size li) p.1 p.2 = Some c) as Hc' by exact Hc.
  rewrite Hc'. cbn [mbind option_bind].
  destruct (sectionOffset_total (HNear (MarginsFrom96DPI m d)) (IntFrom96DPI s d)
              widths (column c)) as [x Hx]; [lia|].
  destruct (sectionOffset_total (VNear (MarginsFrom96DPI m d)) (IntFrom96DPI s d)
              heights (row c)) as [y Hy]; [lia|].
  cbn [margins spacing dpi placed]. rewrite Hx, Hy. cbn [mbind option_bind].
  assert (is_Some (spannedWidth IntFrom96DPI (placed m s d size li) info widths))
    as [width Hwidth].
  { unfold spannedWidth. rewrite Hp. cbn [mbind option_bind]. rewrite Hc'.
    cbn [mbind option_bind]. apply spannedWidth_fold.
    apply Forall_forall. intros i. unfold zrange. rewrite list_elem_of_fmap.
    intros (k & -> & Hk%elem_of_seq). lia. }
  assert (is_Some (spannedHeight IntFrom96DPI (placed m s d size li) info heights))
    as [height Hheight].
  { unfold spannedHeight. rewrite Hp. cbn [mbind option_bind]. rewrite Hc'.
    cbn [mbind option_bind]. apply spannedWidth_fold.
    apply Forall_forall. intros i. unfold zrange. rewrite list_elem_of_fmap.
    intros (k & -> & Hk%elem_of_seq). lia. }
  rewrite Hwidth. cbn [mbind option_bind]. rewrite Hheight. cbn [mbind option_bind].
  destruct (itemSize it width height). by eexists.
Qed.

End SnapshotPlacement.

Lemma snapshot_layoutItem_returns_witness :
  exists li info b,
    CreateLayoutItem (fun wb _ => plainItem wb 50 20) GridLayout.exampleGrid 96
    = Some li
    /\ item2Info li !! Some 1%positive = Some info
    /\ layoutItem linearFrom96DPI linearMarginsFrom96DPI
         (placed margins9 6 96 zeroSize li) AlignHVDefault [10; 20; 30] [5; 5; 5]
         (plainItem 1 50 20) AlignHVDefault info = Some b.
Proof.
  destruct (CreateLayoutItem (fun wb _ => plainItem wb 50 20)
              GridLayout.exampleGrid 96) as [li|] eqn:Hli;
    [|vm_compute in Hli; discriminate].
  destruct (item2Info li !! Some 1%positive) as [info|] eqn:Hinfo.
  2:{ exfalso. revert Hinfo. generalize Hli. vm_compute. intros [= <-].
      vm_compute. discriminate. }
  destruct (snapshot_layoutItem_returns (fun wb _ => plainItem wb 50 20)
              linearFrom96DPI linearMarginsFrom96DPI GridLayout.exampleGrid 96 li
              margins9 6 96 zeroSize AlignHVDefault AlignHVDefault
              [10; 20; 30] [5; 5; 5] (plainItem 1 50 20) info
              exampleGrid_reachable Hli Hinfo) as [b Hb].
  - generalize Hli. vm_compute. intros [= <-]. reflexivity.
  - generalize Hli. vm_compute. intros [= <-]. reflexivity.
  - exists li, info, b. split; [reflexivity|]. split; [exact Hinfo|exact Hb].
Defined.

End GridItemFacts.
